(** * OSTRICH-SWMM: injection of LID parameters into a SWMM input model

    A shallow embedding of [ostrich_swmm/inject.py].  The SWMM input is the
    nested dictionary the reader produces (section name to a list of lines,
    each line a list of field values and a comment); the injection loop
    mutates it in place, which is modelled by a state and error monad whose
    state survives an exception.  Floating-point numbers are modelled by
    exact rationals. *)

From Stdlib Require Import Ascii QArith Qminmax Qfield Lqa Lia.
From stdpp Require Import base option list gmap strings pretty.

(** ** Values, lines and sections *)

(** A field of a line is either text (as the reader leaves it) or a number
    (as the injection writes it back). *)
Inductive value :=
| VStr (s : string)
| VNum (q : Q).

Record line := Line {
  values : list value;
  comment : option string
}.

Record section := Section_ {
  lines : list line;
  section_comment : option string
}.

Abbreviation swmm_input := (gmap string section).

(** ** Exceptions *)

(** A formatted message keeps its floating-point arguments as numbers. *)
Inductive fragment :=
| Text (s : string)
| Float (q : Q).

(** The exceptions the injection can end with.  [LoopBound] is not a Python
    exception: it marks an exhausted iteration bound of the model of a [while]
    loop, and is shown below never to be raised. *)
Inductive exn :=
| ConfigException (message : string)
| ValueError (message : list fragment)
| IndexError
| KeyError (key : string)
| TypeError
| ZeroDivisionError
| DimensionalityError
| ValidationError (message : string)
| LoopBound.

Definition result (A : Type) : Type := (exn + A)%type.

Global Instance result_ret : MRet result := fun _ a => inr a.
Global Instance result_bind : MBind result := fun _ _ f m =>
  match m with
  | inl e => inl e
  | inr a => f a
  end.

Definition raise {A : Type} (e : exn) : result A := inl e.

(** The double quote character, for formatted messages. *)
Definition dq : string := String (Ascii.ascii_of_nat 34) EmptyString.

(** [l[i]] and [l[i] = v] on a Python list: out of range raises. *)
Definition getitem {A : Type} (l : list A) (i : nat) : result A :=
  match l !! i with
  | Some a => mret a
  | None => raise IndexError
  end.

Definition setitem {A : Type} (l : list A) (i : nat) (v : A) : result (list A) :=
  if decide (i < length l) then mret (<[i := v]> l) else raise IndexError.

(** [v == s] for a field value and a string. *)
Definition value_eqb (v : value) (s : string) : bool :=
  match v with
  | VStr s' => bool_decide (s' = s)
  | VNum _ => false
  end.

(** ** Units *)

(** Modelled from the spec: the unit conversion facility ([units.registry]
    is not part of the sources).  A unit is a scale factor to the base units
    together with the exponent of the length dimension; conversion between
    units of the same dimension is exact, subtraction converts its right
    operand to the unit of the left one, and products and quotients combine
    magnitudes and units.  The square metre is the base area unit. *)
Module units.

Record unit := Unit {
  factor : Q;
  dimension : Z
}.

Record quantity := Quantity {
  magnitude : Q;
  unit_of : unit
}.

Definition m2 : unit := Unit 1 2.
Definition hectare : unit := Unit 10000 2.
Definition ft2 : unit := Unit (9290304 # 100000000) 2.
Definition acre : unit := Unit (40468564224 # 10000000) 2.
Definition percent : unit := Unit (1 # 100) 0.

(** [x * u] for a number and a unit. *)
Definition times (x : Q) (u : unit) : quantity := Quantity x u.

Definition to (q : quantity) (u : unit) : result quantity :=
  if Z.eqb (dimension (unit_of q)) (dimension u)
  then mret (Quantity (magnitude q * factor (unit_of q) / factor u) u)
  else raise DimensionalityError.

Definition sub (a b : quantity) : result quantity :=
  b' ← to b (unit_of a);
  mret (Quantity (magnitude a - magnitude b') (unit_of a)).

Definition mul (a b : quantity) : quantity :=
  Quantity (magnitude a * magnitude b)
           (Unit (factor (unit_of a) * factor (unit_of b))
                 (dimension (unit_of a) + dimension (unit_of b))).

Definition div (a b : quantity) : result quantity :=
  if Qeq_bool (magnitude b) 0 then raise ZeroDivisionError
  else mret (Quantity (magnitude a / magnitude b)
                      (Unit (factor (unit_of a) / factor (unit_of b))
                            (dimension (unit_of a) - dimension (unit_of b)))).

End units.

(** ** The parameter document *)

(** Modelled from the spec: the parameter schema ([parameters.schema.json]
    is not part of the sources).  A LID has the fields the spec's data model
    lists; a placement is a dictionary whose keys may be absent. *)
Module params.

Record coords := Coords {
  x : Q;
  y : Q
}.

Record placement := Placement {
  subcatchment : option string;
  map : option coords
}.

Record drain := Drain {
  drain_subcatchment : option string;
  drain_node : option string;
  drain_map : option coords
}.

Record lid := Lid {
  type : string;
  location : placement;
  drainTo : option drain;
  number : Z;
  area : Q;
  width : Q;
  initSat : Q;
  fromImp : Q;
  toPerv : Q;
  rptFile : option string
}.

Record input_parameters := InputParameters {
  lids : option (list lid)
}.

End params.

(** ** Collaborators outside the injection module *)

(** [si.data_indices]: the positions of the fields the injection reads and
    writes.  The section schema is configuration of the surrounding package,
    so the positions are parameters. *)
Class DataIndices := {
  polygon_sc_index : nat;
  polygon_x_index : nat;
  polygon_y_index : nat;
  sc_name_index : nat;
  sc_area_index : nat;
  sc_imperv_index : nat;
  lid_type_name_index : nat;
  lid_type_type_index : nat
}.

(** [shapely.geometry]: polygons built from a list of vertices, and the
    strict containment test of a point. *)
Class Shapely := {
  polygon : Type;
  Polygon : list (Q * Q) → result polygon;
  contains : polygon → Q * Q → bool
}.

(** What the language and the rest of the package provide: [float] on a
    string, the iteration order of a dictionary (each item once, in an order
    the program does not choose), [si.get_unit_system] and
    [cfg.validate_against_json_schema] with the packaged schema. *)
Class Runtime := {
  float_of_string : string → option Q;
  iteritems : ∀ {V : Type}, gmap string V → list (string * V);
  iteritems_perm : ∀ (V : Type) (m : gmap string V), iteritems m ≡ₚ map_to_list m;
  get_unit_system : swmm_input → result string;
  validate_against_json_schema : params.input_parameters → result ()
}.

(** ** Reading the model *)

Section Lookup.
Context `{DataIndices, Shapely, Runtime}.

(** [float(v)] for a field value. *)
Definition float (v : value) : result Q :=
  match v with
  | VNum q => mret q
  | VStr s =>
      match float_of_string s with
      | Some q => mret q
      | None =>
          raise (ValueError [Text "could not convert string to float: "; Text s])
      end
  end.

(** The key a polygon line files its vertex under.  The reader leaves text
    in every field; a numeric zone tag is rejected here. *)
Definition subcat_key (v : value) : result string :=
  match v with
  | VStr s => mret s
  | VNum _ => raise TypeError
  end.

(** The loop of [extract_subcatchment_polygons]: the vertices of every zone,
    in the order of the lines. *)
Fixpoint polygon_coordinates (ls : list line)
    (acc : gmap string (list (Q * Q))) : result (gmap string (list (Q * Q))) :=
  match ls with
  | [] => mret acc
  | l :: ls' =>
      match values l with
      | [] => polygon_coordinates ls' acc
      | vs =>
          k ← getitem vs polygon_sc_index;
          sc ← subcat_key k;
          vx ← getitem vs polygon_x_index;
          px ← float vx;
          vy ← getitem vs polygon_y_index;
          py ← float vy;
          polygon_coordinates ls'
            (<[sc := default [] (acc !! sc) ++ [(px, py)]]> acc)
      end
  end.

(** The dictionary comprehension: one polygon per zone, built in the
    iteration order of the dictionary of vertices. *)
Fixpoint build_polygons (items : list (string * list (Q * Q)))
    : result (list (string * polygon)) :=
  match items with
  | [] => mret []
  | (sc, coordinates) :: items' =>
      p ← Polygon coordinates;
      ps ← build_polygons items';
      mret ((sc, p) :: ps)
  end.

Definition extract_subcatchment_polygons (swmm_input : swmm_input)
    : result (gmap string polygon) :=
  let swmm_input_polygon_lines :=
    match swmm_input !! "POLYGONS" with
    | Some s => lines s
    | None => []
    end in
  subcatchment_polygon_coordinates ←
    polygon_coordinates swmm_input_polygon_lines ∅;
  ps ← build_polygons (iteritems subcatchment_polygon_coordinates);
  mret (list_to_map ps).

(** The generator of [get_subcatchment_definition]: the first line with
    fields whose name field is [sc_name].  The position of the line is
    returned with its fields: it stands for the list object itself, which the
    caller mutates in place. *)
Fixpoint find_definition (ls : list line) (pos : nat) (sc_name : string)
    : result (option (nat * list value)) :=
  match ls with
  | [] => mret None
  | l :: ls' =>
      match values l with
      | [] => find_definition ls' (S pos) sc_name
      | vs =>
          v ← getitem vs sc_name_index;
          if value_eqb v sc_name then mret (Some (pos, vs))
          else find_definition ls' (S pos) sc_name
      end
  end.

Definition get_subcatchment_definition (swmm_input : swmm_input)
    (sc_name : string) : result (option (nat * list value)) :=
  match swmm_input !! "SUBCATCHMENTS" with
  | None => mret None
  | Some s => find_definition (lines s) 0 sc_name
  end.

(** The [for] loop of [get_subcatchment_from_map_coords]. *)
Fixpoint first_containing (items : list (string * polygon)) (point : Q * Q)
    : option string :=
  match items with
  | [] => None
  | (subcatchment, polygon) :: items' =>
      if contains polygon point then Some subcatchment
      else first_containing items' point
  end.

Definition get_subcatchment_from_map_coords (coordinates : params.coords)
    (subcatchments : gmap string polygon) : result string :=
  let point := (params.x coordinates, params.y coordinates) in
  match first_containing (iteritems subcatchments) point with
  | Some subcatchment => mret subcatchment
  | None =>
      raise (ValueError [Text "Coordinates ("; Float (fst point); Text ", ";
                         Float (snd point);
                         Text ") not found in subcatchments."])
  end.

End Lookup.

(** ** The injection loop *)

Section Injection.
Context `{DataIndices, Shapely, Runtime}.

(** What one run of [inject_parameters_into_input] carries: the model it
    mutates, the lazily built polygons, the per-type counter, and the
    warnings logged. *)
Record state := State {
  input_template : swmm_input;
  sc_polygons : option (gmap string polygon);
  lid_counter : gmap string nat;
  warnings : list (list fragment)
}.

(** A computation on the state that may raise; the state at the point of the
    exception is kept. *)
Definition M (A : Type) : Type := state → state * result A.

Global Instance M_ret : MRet M := fun _ a s => (s, inr a).
Global Instance M_bind : MBind M := fun _ _ f m s =>
  match m s with
  | (s', inl e) => (s', inl e)
  | (s', inr a) => f a s'
  end.

Definition lift {A : Type} (r : result A) : M A := fun s => (s, r).
Definition throw {A : Type} (e : exn) : M A := lift (raise e).
Definition get_template : M swmm_input := fun s => (s, inr (input_template s)).
Definition modify_template (f : swmm_input → swmm_input) : M () := fun s =>
  (State (f (input_template s)) (sc_polygons s) (lid_counter s) (warnings s),
   inr ()).

(** [d[key]] on a dictionary of the parameter document. *)
Definition item {A : Type} (key : string) (o : option A) : result A :=
  match o with
  | Some a => mret a
  | None => raise (KeyError key)
  end.

(** [sc_polygons], extracted on first use. *)
Definition subcatchment_polygons : M (gmap string polygon) := fun s =>
  match sc_polygons s with
  | Some ps => (s, inr ps)
  | None =>
      match extract_subcatchment_polygons (input_template s) with
      | inl e => (s, inl e)
      | inr ps =>
          (State (input_template s) (Some ps) (lid_counter s) (warnings s),
           inr ps)
      end
  end.

Definition set_location_subcatchment (lid : params.lid) (sc : string)
    : params.lid :=
  params.Lid (params.type lid)
    (params.Placement (Some sc) (params.map (params.location lid)))
    (params.drainTo lid) (params.number lid) (params.area lid)
    (params.width lid) (params.initSat lid) (params.fromImp lid)
    (params.toPerv lid) (params.rptFile lid).

Definition set_drainTo_subcatchment (lid : params.lid) (d : params.drain)
    (sc : string) : params.lid :=
  params.Lid (params.type lid) (params.location lid)
    (Some (params.Drain (Some sc) (params.drain_node d) (params.drain_map d)))
    (params.number lid) (params.area lid)
    (params.width lid) (params.initSat lid) (params.fromImp lid)
    (params.toPerv lid) (params.rptFile lid).

(** Map coordinates of the location and of the drain point are converted to
    zone names. *)
Definition resolve_location (lid : params.lid) : M params.lid :=
  match params.map (params.location lid) with
  | Some coordinates =>
      ps ← subcatchment_polygons;
      sc ← lift (get_subcatchment_from_map_coords coordinates ps);
      mret (set_location_subcatchment lid sc)
  | None => mret lid
  end.

Definition resolve_drainTo (lid : params.lid) : M params.lid :=
  match params.drainTo lid with
  | Some d =>
      match params.drain_map d with
      | Some coordinates =>
          ps ← subcatchment_polygons;
          sc ← lift (get_subcatchment_from_map_coords coordinates ps);
          mret (set_drainTo_subcatchment lid d sc)
      | None => mret lid
      end
  | None => mret lid
  end.

Definition resolve_placements (lid : params.lid) : M params.lid :=
  lid ← resolve_location lid;
  resolve_drainTo lid.

(** The list comprehension selecting the catalog lines of a LID type. *)
Fixpoint lid_type_definition (ls : list line) (lid_type : string)
    : result (list line) :=
  match ls with
  | [] => mret []
  | l :: ls' =>
      keep ← match values l with
             | [] => mret false
             | vs =>
                 v ← getitem vs lid_type_name_index;
                 mret (value_eqb v lid_type)
             end;
      rest ← lid_type_definition ls' lid_type;
      mret (if keep : bool then l :: rest else rest)
  end.

(** [lid_counter[lid_type] += 1] on a [Counter], then the formatted id. *)
Definition count_lid (lid_type : string) : M string := fun s =>
  let n := S (default 0 (lid_counter s !! lid_type)) in
  (State (input_template s) (sc_polygons s)
         (<[lid_type := n]> (lid_counter s)) (warnings s),
   inr (lid_type +:+ "_" +:+ pretty n)).

(** The name tried for the child zone at a given value of
    [lid_sc_name_index]. *)
Definition child_name (lid_base_sc_name lid_id : string) (index : nat) : string :=
  match index with
  | O => lid_base_sc_name +:+ "##" +:+ lid_id
  | S _ => lid_base_sc_name +:+ "##" +:+ lid_id +:+ "###" +:+ pretty index
  end.

(** The [while existing_lid_sc] loop, bounded by [fuel] iterations. *)
Fixpoint while_existing (fuel : nat) (input_template : swmm_input)
    (lid_base_sc_name lid_id : string) (lid_sc_name_index : nat)
    (lid_sc_name : string) (existing_lid_sc : option (nat * list value))
    : result string :=
  match existing_lid_sc with
  | None => mret lid_sc_name
  | Some _ =>
      match fuel with
      | O => raise LoopBound
      | S fuel' =>
          let lid_sc_name_index := S lid_sc_name_index in
          let lid_sc_name :=
            child_name lid_base_sc_name lid_id lid_sc_name_index in
          existing_lid_sc ←
            get_subcatchment_definition input_template lid_sc_name;
          while_existing fuel' input_template lid_base_sc_name lid_id
            lid_sc_name_index lid_sc_name existing_lid_sc
      end
  end.

Definition sc_lines (input_template : swmm_input) : list line :=
  match input_template !! "SUBCATCHMENTS" with
  | Some s => lines s
  | None => []
  end.

(** A name for the child zone that no existing zone has.  As many iterations
    as there are zone lines are allowed. *)
Definition unique_lid_sc_name (input_template : swmm_input)
    (lid_base_sc_name lid_id : string) : result string :=
  let lid_sc_name_index := 0 in
  let lid_sc_name := child_name lid_base_sc_name lid_id lid_sc_name_index in
  existing_lid_sc ← get_subcatchment_definition input_template lid_sc_name;
  while_existing (length (sc_lines input_template)) input_template
    lid_base_sc_name lid_id lid_sc_name_index lid_sc_name existing_lid_sc.

(** The area units of a unit system: the unit LID areas are given in, and
    the unit zone areas are given in. *)
Definition area_units (input_unit_system : string)
    : result (units.unit * units.unit) :=
  if bool_decide (input_unit_system = "US") then
    mret (units.ft2, units.acre)
  else if bool_decide (input_unit_system = "SI") then
    mret (units.m2, units.hectare)
  else
    raise (ConfigException
             ("Unknown unit system " +:+ dq +:+ input_unit_system +:+ dq +:+ "."))
.

(** The line at position [pos] of the zone section gets the fields [vs]:
    the effect, on the model, of an assignment to the list [lid_base_sc]. *)
Definition write_sc (pos : nat) (vs : list value) (input_template : swmm_input)
    : swmm_input :=
  alter (fun s =>
           Section_ (alter (fun l => Line vs (comment l)) pos (lines s))
                    (section_comment s))
        "SUBCATCHMENTS" input_template.

(** [lid_base_sc[i] = v]: the list is a line of the model. *)
Definition set_base (pos : nat) (lid_base_sc : list value) (i : nat) (v : value)
    : M (list value) :=
  lid_base_sc ← lift (setitem lid_base_sc i v);
  _ ← modify_template (write_sc pos lid_base_sc);
  mret lid_base_sc.

(** [input_template[name]['lines'].append(l)] *)
Definition append_line (name : string) (l : line) (input_template : swmm_input)
    : swmm_input :=
  alter (fun s => Section_ (lines s ++ [l]) (section_comment s))
        name input_template.

(** The rain barrel branch: the child zone is split off its base zone. *)
Definition split_subcatchment (input_unit_system : string)
    (lid : params.lid) (lid_id : string) : M params.lid :=
  lid_base_sc_name ←
    lift (item "subcatchment" (params.subcatchment (params.location lid)));
  input_template ← get_template;
  found ← lift (get_subcatchment_definition input_template lid_base_sc_name);
  match found with
  | None =>
      throw (ConfigException
               ("Subcatchment " +:+ dq +:+ lid_base_sc_name +:+ dq
                +:+ " not found."))
  | Some (pos, lid_base_sc) =>
      lid_sc_name ←
        lift (unique_lid_sc_name input_template lid_base_sc_name lid_id);
      lid_sc ← lift (setitem lid_base_sc sc_name_index (VStr lid_sc_name));
      '(lid_area_unit, sc_area_unit) ← lift (area_units input_unit_system);
      let lid_num_units := params.number lid in
      let lid_total_area :=
        units.times (inject_Z lid_num_units * params.area lid) lid_area_unit in
      a ← lift (getitem lid_base_sc sc_area_index);
      a ← lift (float a);
      let lid_base_sc_area := units.times a sc_area_unit in
      lid_sc_area ← lift (units.to lid_total_area sc_area_unit);
      new_lid_base_sc_area ← lift (units.sub lid_base_sc_area lid_sc_area);
      lid_sc ←
        lift (setitem lid_sc sc_area_index (VNum (units.magnitude lid_sc_area)));
      lid_base_sc ←
        set_base pos lid_base_sc sc_area_index
          (VNum (units.magnitude new_lid_base_sc_area));
      if Qlt_le_dec (units.magnitude new_lid_base_sc_area) 0 then
        throw (ConfigException
                 ("LID " +:+ dq +:+ lid_id +:+ dq +:+ " pushes subcatchment "
                  +:+ dq +:+ lid_base_sc_name +:+ dq +:+ " below 0 area."))
      else
        p ← lift (getitem lid_base_sc sc_imperv_index);
        p ← lift (float p);
        let lid_base_sc_imperv := units.times p units.percent in
        let lid_base_sc_imperv_area :=
          units.mul lid_base_sc_imperv lid_base_sc_area in
        new_lid_base_sc_imperv_area ←
          lift (units.sub lid_base_sc_imperv_area lid_sc_area);
        new_lid_base_sc_imperv ←
          lift (units.div new_lid_base_sc_imperv_area new_lid_base_sc_area);
        lid_sc ← lift (setitem lid_sc sc_imperv_index (VNum 0));
        new_percent ← lift (units.to new_lid_base_sc_imperv units.percent);
        lid_base_sc ←
          set_base pos lid_base_sc sc_imperv_index
            (VNum (units.magnitude new_percent));
        if Qlt_le_dec (units.magnitude new_percent) 0 then
          throw (ConfigException
                   ("Subcatchment " +:+ dq +:+ lid_base_sc_name +:+ dq
                    +:+ " does not have enough impervious land left to hold LID "
                    +:+ dq +:+ lid_id +:+ dq +:+ "."))
        else
          _ ← modify_template
                (append_line "SUBCATCHMENTS"
                   (Line lid_sc
                      (Some (pretty lid_num_units
                             +:+ " LID units. (Added by OSTRICH-SWMM.)"))));
          mret (set_location_subcatchment lid lid_sc_name)
  end.

Definition fragment_of (v : value) : fragment :=
  match v with
  | VStr s => Text s
  | VNum q => Float q
  end.

(** [logging.warning] for a LID type that is not a rain barrel. *)
Definition warn_unsupported (lid_type_type : value) : M () := fun s =>
  (State (input_template s) (sc_polygons s) (lid_counter s)
         (warnings s ++
            [[Text ("LID type " +:+ dq); fragment_of lid_type_type;
              Text (dq +:+ " is not directly supported by this module. "
                    +:+ "Manual adjustments to other objects, such as "
                    +:+ "subcatchments, may be necessary.")]]),
   inr ()).

Definition lid_drain_to (lid : params.lid) : string :=
  match params.drainTo lid with
  | Some lid_drain_to_obj =>
      match params.drain_subcatchment lid_drain_to_obj with
      | Some sc => sc
      | None =>
          match params.drain_node lid_drain_to_obj with
          | Some node => node
          | None => EmptyString
          end
      end
  | None => EmptyString
  end.

Definition lid_values (lid : params.lid) : result (list value) :=
  sc ← item "subcatchment" (params.subcatchment (params.location lid));
  mret [VStr sc; VStr (params.type lid); VNum (inject_Z (params.number lid));
        VNum (params.area lid); VNum (params.width lid);
        VNum (params.initSat lid); VNum (params.fromImp lid);
        VNum (params.toPerv lid);
        VStr (default EmptyString (params.rptFile lid));
        VStr (lid_drain_to lid)].

(** The LID is added to the usage section, which is created when absent. *)
Definition add_lid_usage (lid : params.lid) : M () :=
  vs ← lift (lid_values lid);
  modify_template (fun input_template =>
    let input_template :=
      match input_template !! "LID_USAGE" with
      | Some _ => input_template
      | None => <["LID_USAGE" := Section_ [] None]> input_template
      end in
    append_line "LID_USAGE" (Line vs None) input_template).

(** The body of the loop over the LIDs.  It returns the id it gave the LID,
    a local variable of the source, so that statements can speak of it. *)
Definition inject_lid (input_unit_system : string) (lid : params.lid)
    : M string :=
  lid ← resolve_placements lid;
  let lid_type := params.type lid in
  input_template ← get_template;
  match input_template !! "LID_CONTROLS" with
  | None =>
      throw (ConfigException
               "There are no LID controls defined in the SWMM input file.")
  | Some lid_controls =>
      definition ← lift (lid_type_definition (lines lid_controls) lid_type);
      match definition with
      | [] =>
          throw (ConfigException
                   ("LID type " +:+ dq +:+ lid_type +:+ dq
                    +:+ " not found in SWMM input file."))
      | first :: _ =>
          lid_id ← count_lid lid_type;
          lid_type_type ← lift (getitem (values first) lid_type_type_index);
          lid ← (if value_eqb lid_type_type "RB"
                 then split_subcatchment input_unit_system lid lid_id
                 else (_ ← warn_unsupported lid_type_type; mret lid));
          _ ← add_lid_usage lid;
          mret lid_id
      end
  end.

Fixpoint inject_lids (input_unit_system : string) (lids : list params.lid)
    : M (list string) :=
  match lids with
  | [] => mret []
  | lid :: lids' =>
      lid_id ← inject_lid input_unit_system lid;
      lid_ids ← inject_lids input_unit_system lids';
      mret (lid_id :: lid_ids)
  end.

Definition inject_parameters_into_input
    (input_parameters : params.input_parameters)
    (input_template : swmm_input) : state * result (list string) :=
  let start := State input_template None ∅ [] in
  match validate_against_json_schema input_parameters with
  | inl e => (start, inl e)
  | inr _ =>
      match get_unit_system input_template with
      | inl e => (start, inl e)
      | inr input_unit_system =>
          inject_lids input_unit_system
            (default [] (params.lids input_parameters)) start
      end
  end.

End Injection.

(** ** Performing the injection on files *)

(** A configuration maps option names to paths; the files are the texts
    stored under their paths. *)
Definition config : Type := gmap string string.
Definition files : Type := gmap string string.

(** What [perform_injection] may raise: the input/output error of [open],
    or an exception of the code it calls. *)
Inductive io_exn :=
| IOError
| Raised (e : exn).

(** The rest of the package and the library, as [perform_injection] and
    [validate_config] use them: the three checks of [cfg], the reader
    [sir.read], [json.load], the writer [siw.write] (the text it has written
    when it returns or raises), and whether a path can be opened for
    writing. *)
Class Package := {
  validate_required_sections : config → list string → string → result ();
  validate_file_exists : files → config → string → result ();
  validate_dir_exists : files → config → string → bool → result ();
  sir_read : string → result swmm_input;
  json_load : string → result params.input_parameters;
  siw_write : swmm_input → string * result ();
  creatable : files → string → bool
}.

Section Files.
Context `{DataIndices, Shapely, Runtime, Package}.

(** A computation on the files that may raise. *)
Definition io (A : Type) : Type := files → files * (io_exn + A).

Global Instance io_ret : MRet io := fun _ a fs => (fs, inr a).
Global Instance io_bind : MBind io := fun _ _ f m fs =>
  match m fs with
  | (fs', inl e) => (fs', inl e)
  | (fs', inr a) => f a fs'
  end.

(** A step that leaves the files alone. *)
Definition pure {A : Type} (r : files → result A) : io A := fun fs =>
  match r fs with
  | inl e => (fs, inl (Raised e))
  | inr a => (fs, inr a)
  end.

(** [with open(path) as f]: the text of a file that exists. *)
Definition open_read (path : string) : io string := fun fs =>
  match fs !! path with
  | Some text => (fs, inr text)
  | None => (fs, inl IOError)
  end.

(** [with open(path, 'w') as f: write(f)]: the file is created or emptied,
    and holds what the writer wrote, also when the writer raises. *)
Definition open_write (path : string) (written : string * result ()) : io () :=
  fun fs =>
    if creatable fs path then
      (<[path := written.1]> fs,
       match written.2 with
       | inl e => inl (Raised e)
       | inr _ => inr ()
       end)
    else (fs, inl IOError).

Definition validate_config (config : config) (fs : files) : result () :=
  _ ← validate_required_sections config
        ["input_path"; "input_template_path"; "input_parameters_path"]
        "inject";
  _ ← validate_file_exists fs config "input_template_path";
  _ ← validate_file_exists fs config "input_parameters_path";
  validate_dir_exists fs config "input_path" true.

(** The model read is mutated in place by the injection, and written as the
    injection leaves it, which is the model of the state the run ends in. *)
Definition perform_injection (config : config) (validate : bool) : io () :=
  _ ← (if validate then pure (validate_config config) else mret ());
  input_template_path ←
    pure (fun _ => item "input_template_path" (config !! "input_template_path"));
  input_template_file ← open_read input_template_path;
  template ← pure (fun _ => sir_read input_template_file);
  input_parameters_path ←
    pure (fun _ => item "input_parameters_path"
                     (config !! "input_parameters_path"));
  input_parameters_file ← open_read input_parameters_path;
  input_parameters ← pure (fun _ => json_load input_parameters_file);
  let injected := inject_parameters_into_input input_parameters template in
  _ ← pure (fun _ => injected.2);
  input_path ← pure (fun _ => item "input_path" (config !! "input_path"));
  open_write input_path (siw_write (input_template injected.1)).

End Files.

(** ** A concrete environment for worked examples *)

(** The field positions of SWMM 5 input files. *)
Definition swmm5_indices : DataIndices := {|
  polygon_sc_index := 0;
  polygon_x_index := 1;
  polygon_y_index := 2;
  sc_name_index := 0;
  sc_area_index := 3;
  sc_imperv_index := 4;
  lid_type_name_index := 0;
  lid_type_type_index := 1
|}.

(** Polygons as vertex lists, with the even-odd rule for the interior and
    the boundary excluded. *)
Definition on_segment (a b p : Q * Q) : bool :=
  Qeq_bool ((fst b - fst a) * (snd p - snd a))
           ((snd b - snd a) * (fst p - fst a))
  && Qle_bool (Qmin (fst a) (fst b)) (fst p)
  && Qle_bool (fst p) (Qmax (fst a) (fst b))
  && Qle_bool (Qmin (snd a) (snd b)) (snd p)
  && Qle_bool (snd p) (Qmax (snd a) (snd b)).

Definition above (q : Q * Q) (p : Q * Q) : bool := negb (Qle_bool (snd q) (snd p)).

Definition crosses (a b p : Q * Q) : bool :=
  negb (eqb (above a p) (above b p))
  && negb (Qle_bool (fst a + (snd p - snd a) * (fst b - fst a) / (snd b - snd a))
                    (fst p)).

Fixpoint edges (first prev : Q * Q) (vs : list (Q * Q)) : list ((Q * Q) * (Q * Q)) :=
  match vs with
  | [] => [(prev, first)]
  | v :: vs' => (prev, v) :: edges first v vs'
  end.

Definition ring_contains (vs : list (Q * Q)) (p : Q * Q) : bool :=
  match vs with
  | [] => false
  | v :: vs' =>
      let es := edges v v vs' in
      negb (existsb (fun e => on_segment (fst e) (snd e) p) es)
      && Nat.odd (length (filter (fun e => crosses (fst e) (snd e) p = true) es))
  end.

Definition ring_shapely : Shapely := {|
  polygon := list (Q * Q);
  Polygon := fun coordinates =>
    if decide (length coordinates < 3)
    then raise (ValueError
                  [Text "A LinearRing must have at least 3 coordinate tuples"])
    else mret coordinates;
  contains := ring_contains
|}.

(** Plain decimal numerals: an optional sign, digits, an optional point. *)
Definition digit_of (c : Ascii.ascii) : option Z :=
  let n := Ascii.nat_of_ascii c in
  if (48 <=? n) && (n <=? 57) then Some (Z.of_nat (n - 48)) else None.

Fixpoint digits (s : string) (acc : Z) (scale : positive) (frac seen : bool)
    : option Q :=
  match s with
  | EmptyString => if seen then Some (Qred (acc # scale)) else None
  | String c s' =>
      if bool_decide (c = "."%char) then
        if frac then None else digits s' acc scale true seen
      else
        match digit_of c with
        | Some d =>
            digits s' (10 * acc + d)%Z (if frac then (10 * scale)%positive else scale)
                   frac true
        | None => None
        end
  end.

Definition decimal (s : string) : option Q :=
  match s with
  | String c s' =>
      if bool_decide (c = "-"%char)
      then Qopp <$> digits s' 0 1 false false
      else digits s 0 1 false false
  | EmptyString => None
  end.

(** A validator that asks for non-negative unit counts and areas. *)
Definition nonneg_lid (l : params.lid) : bool :=
  (0 <=? params.number l)%Z && Qle_bool 0 (params.area l).

Definition validate_nonneg (p : params.input_parameters) : result () :=
  if forallb nonneg_lid (default [] (params.lids p)) then mret ()
  else raise (ValidationError "negative unit count or area").

(** An environment in which the model has a given unit system tag and
    dictionaries are iterated in key order. *)
Definition runtime_of (unit_system : string) : Runtime := {|
  float_of_string := decimal;
  iteritems := fun V m => map_to_list m;
  iteritems_perm := fun V m => reflexivity (map_to_list m);
  get_unit_system := fun _ => mret unit_system;
  validate_against_json_schema := validate_nonneg
|}.

(** ** Vocabulary of the statements *)

Section Vocabulary.
Context `{DataIndices, Shapely, Runtime}.

(** A zone of that name is present in the model. *)
Definition zone_present (input_template : swmm_input) (name : string) : Prop :=
  ∃ l, l ∈ sc_lines input_template ∧ values l !! sc_name_index = Some (VStr name).

(** Every zone line with fields has a name field. *)
Definition zones_named (input_template : swmm_input) : Prop :=
  ∀ l, l ∈ sc_lines input_template →
    values l = [] ∨ is_Some (values l !! sc_name_index).

(** The names of the zone lines. *)
Definition line_name (l : line) : option string :=
  match values l !! sc_name_index with
  | Some (VStr n) => Some n
  | _ => None
  end.

Definition with_template (s : state) (t : swmm_input) : state :=
  State t (sc_polygons s) (lid_counter s) (warnings s).

(** The fields of the base zone after a split, and those of its child. *)
Definition base_after (old : list value) (new_area new_imperv : Q) : list value :=
  <[sc_imperv_index := VNum new_imperv]>
    (<[sc_area_index := VNum new_area]> old).

Definition child_of (old : list value) (lid_sc_name : string) (lid_sc_area : Q)
    : list value :=
  <[sc_imperv_index := VNum 0]>
    (<[sc_area_index := VNum lid_sc_area]>
       (<[sc_name_index := VStr lid_sc_name]> old)).

Definition child_comment (lid : params.lid) : option string :=
  Some (pretty (params.number lid) +:+ " LID units. (Added by OSTRICH-SWMM.)").

(** The model after a split of the zone at line [pos]. *)
Definition split_template (t : swmm_input) (pos : nat) (old : list value)
    (lid : params.lid) (lid_sc_name : string)
    (lid_sc_area new_area new_imperv : Q) : swmm_input :=
  append_line "SUBCATCHMENTS"
    (Line (child_of old lid_sc_name lid_sc_area) (child_comment lid))
    (write_sc pos (base_after old new_area new_imperv)
       (write_sc pos (<[sc_area_index := VNum new_area]> old) t)).

(** Everything a successful run of the rain barrel branch has computed. *)
Inductive split_trace (us : string) (lid : params.lid) (lid_id : string)
    (s s' : state) (lid' : params.lid) : Prop :=
| SplitTrace (name : string) (pos : nat) (old : list value)
    (lid_sc_name : string) (lau sau : units.unit) (va vp : value) (A p : Q)
    (lid_sc_area new_area new_imperv_area new_imperv new_percent : units.quantity)
    (Hloc : params.subcatchment (params.location lid) = Some name)
    (Hhost : get_subcatchment_definition (input_template s) name
             = inr (Some (pos, old)))
    (Hname : unique_lid_sc_name (input_template s) name lid_id = inr lid_sc_name)
    (Hunits : area_units us = inr (lau, sau))
    (Hva : old !! sc_area_index = Some va)
    (HA : float va = inr A)
    (Hlsa : units.to (units.times (inject_Z (params.number lid) * params.area lid)
                                  lau) sau = inr lid_sc_area)
    (Hnew : units.sub (units.times A sau) lid_sc_area = inr new_area)
    (Hnonneg : (0 <= units.magnitude new_area)%Q)
    (Hvp : <[sc_area_index := VNum (units.magnitude new_area)]> old
             !! sc_imperv_index = Some vp)
    (Hp : float vp = inr p)
    (Hnia : units.sub (units.mul (units.times p units.percent)
                                 (units.times A sau)) lid_sc_area
            = inr new_imperv_area)
    (Hni : units.div new_imperv_area new_area = inr new_imperv)
    (Hnp : units.to new_imperv units.percent = inr new_percent)
    (Hpnonneg : (0 <= units.magnitude new_percent)%Q)
    (Hs' : s' = with_template s
                  (split_template (input_template s) pos old lid lid_sc_name
                     (units.magnitude lid_sc_area) (units.magnitude new_area)
                     (units.magnitude new_percent)))
    (Hlid' : lid' = set_location_subcatchment lid lid_sc_name).

(** The factor that converts a LID area into the zone area unit. *)
Definition area_factor (lau sau : units.unit) : Q :=
  (units.factor lau / units.factor sau)%Q.

(** The zone line at [pos] gets new fields and keeps its comment. *)
Definition rewrite_line (vs : list value) (l : line) : line :=
  Line vs (comment l).

(** The catalog has lines for the LID type, and the first of them gives the
    structural category [v]. *)
Definition catalog_type (t : swmm_input) (lid_type : string) (v : value)
    : Prop :=
  ∃ lid_controls first rest,
    t !! "LID_CONTROLS" = Some lid_controls
    ∧ lid_type_definition (lines lid_controls) lid_type = inr (first :: rest)
    ∧ values first !! lid_type_type_index = Some v.

(** The location of a LID names a zone or gives map coordinates. *)
Definition placement_given (lid : params.lid) : Prop :=
  is_Some (params.subcatchment (params.location lid))
  ∨ is_Some (params.map (params.location lid)).

(** The id the next LID of a type gets, and the state once it is counted. *)
Definition next_id (s : state) (lid_type : string) : string :=
  lid_type +:+ "_" +:+ pretty (S (default 0 (lid_counter s !! lid_type))).

Definition counted (s : state) (lid_type : string) : state :=
  State (input_template s) (sc_polygons s)
        (<[lid_type := S (default 0 (lid_counter s !! lid_type))]> (lid_counter s))
        (warnings s).

(** The lines of the usage section, none when the section is absent. *)
Definition usage_lines (t : swmm_input) : list line :=
  match t !! "LID_USAGE" with
  | Some s => lines s
  | None => []
  end.

(** The warning logged for a category that is not a rain barrel. *)
Definition unsupported_warning (v : value) : list fragment :=
  [Text ("LID type " +:+ dq); fragment_of v;
   Text (dq +:+ " is not directly supported by this module. "
         +:+ "Manual adjustments to other objects, such as "
         +:+ "subcatchments, may be necessary.")].

(** The message of the error raised when a LID is larger than its zone. *)
Definition below_zero_area (lid_id lid_base_sc_name : string) : exn :=
  ConfigException
    ("LID " +:+ dq +:+ lid_id +:+ dq +:+ " pushes subcatchment "
     +:+ dq +:+ lid_base_sc_name +:+ dq +:+ " below 0 area.").

Definition unknown_unit_system (input_unit_system : string) : exn :=
  ConfigException
    ("Unknown unit system " +:+ dq +:+ input_unit_system +:+ dq +:+ ".").

(** How many LIDs of a list have a given type. *)
Definition occurrences (lid_type : string) (lids : list params.lid) : nat :=
  length (filter (λ lid, params.type lid = lid_type) lids).

(** A field that reads as a number reads as a non-negative one. *)
Definition field_nonneg (vs : list value) (i : nat) : Prop :=
  ∀ v q, vs !! i = Some v → float v = inr q → (0 <= q)%Q.

(** A zone line holds no negative area and no negative impervious
    percentage. *)
Definition zone_nonneg (l : line) : Prop :=
  field_nonneg (values l) sc_area_index
  ∧ field_nonneg (values l) sc_imperv_index.

(** A zone line made by the injection: a non-negative area, and an impervious
    percentage between 0 and 100. *)
Definition zone_created_ok (l : line) : Prop :=
  ∃ a p,
    values l !! sc_area_index = Some (VNum a)
    ∧ values l !! sc_imperv_index = Some (VNum p)
    ∧ (0 <= a ∧ 0 <= p ∧ p <= 100)%Q.

(** The unit count and the area of a LID are not negative. *)
Definition lid_nonneg (lid : params.lid) : Prop :=
  (0 <= params.number lid)%Z ∧ (0 <= params.area lid)%Q.

(** The area the units of a LID take together, the unit count times the
    area of a unit, is not negative. *)
Definition lid_area_nonneg (lid : params.lid) : Prop :=
  (0 <= inject_Z (params.number lid) * params.area lid)%Q.

(** The invariant of the loop: [n0] zone lines were there at the start. *)
Definition zones_ok (n0 : nat) (t : swmm_input) : Prop :=
  n0 ≤ length (sc_lines t)
  ∧ Forall zone_nonneg (sc_lines t)
  ∧ ∀ i l, n0 ≤ i → sc_lines t !! i = Some l → zone_created_ok l.

(** Every run of a computation relates the state it starts in to the state
    it ends in, whatever it returns or raises. *)
Definition keeps (R : state → state → Prop) {A : Type} (m : M A) : Prop :=
  ∀ s s' r, m s = (s', r) → R s s'.

(** The sections other than the zone section and the usage section are the
    same in two models. *)
Definition same_elsewhere (t t' : swmm_input) : Prop :=
  ∀ k, k ≠ "SUBCATCHMENTS" → k ≠ "LID_USAGE" → t' !! k = t !! k.

(** The polygons held by the state, if any, are those of its model. *)
Definition polygons_current (s : state) : Prop :=
  ∀ ps, sc_polygons s = Some ps →
        extract_subcatchment_polygons (input_template s) = inr ps.

(** What a step of the injection may do to the state: it leaves the sections
    other than the two it writes alone, and the polygons it holds stay those
    of the model. *)
Definition framed (s s' : state) : Prop :=
  same_elsewhere (input_template s) (input_template s')
  ∧ (polygons_current s → polygons_current s').

(** The structural category the catalog gives a LID type: the type field of
    the first catalog line of that name. *)
Definition lid_category (t : swmm_input) (lid_type : string) : option value :=
  match t !! "LID_CONTROLS" with
  | Some lid_controls =>
      match lid_type_definition (lines lid_controls) lid_type with
      | inr (first :: _) => values first !! lid_type_type_index
      | _ => None
      end
  | None => None
  end.

(** The LID is of a type the catalog files as a rain barrel. *)
Definition is_rain_barrel (t : swmm_input) (lid : params.lid) : bool :=
  match lid_category t (params.type lid) with
  | Some v => value_eqb v "RB"
  | None => false
  end.

(** The message of the error raised when the impervious land of a zone does
    not hold a LID. *)
Definition short_of_impervious (lid_id lid_base_sc_name : string) : exn :=
  ConfigException
    ("Subcatchment " +:+ dq +:+ lid_base_sc_name +:+ dq
     +:+ " does not have enough impervious land left to hold LID "
     +:+ dq +:+ lid_id +:+ dq +:+ ".").

Definition zone_not_found (lid_base_sc_name : string) : exn :=
  ConfigException
    ("Subcatchment " +:+ dq +:+ lid_base_sc_name +:+ dq +:+ " not found.").

(** A line that is not one of the named object: it has no fields, or its
    name field holds something else. *)
Definition other_name (i : nat) (n : string) (l : line) : Prop :=
  values l = [] ∨ ∃ v, values l !! i = Some v ∧ v ≠ VStr n.

(** The lines of the polygon section, none when the section is absent. *)
Definition polygon_lines (t : swmm_input) : list line :=
  match t !! "POLYGONS" with
  | Some s => lines s
  | None => []
  end.

(** The vertex a polygon line gives a zone: the two coordinates of the line
    when its zone field names the zone. *)
Definition vertex_of (sc : string) (l : line) : option (Q * Q) :=
  match values l !! polygon_sc_index, values l !! polygon_x_index,
        values l !! polygon_y_index with
  | Some (VStr k), Some vx, Some vy =>
      match float vx, float vy with
      | inr px, inr py => if bool_decide (k = sc) then Some (px, py) else None
      | _, _ => None
      end
  | _, _, _ => None
  end.

(** A relation between the state before and the state after that the steps
    of the loop body keep: those that write the zone section, count a LID or
    log a warning.  The resolution of the placements and the addition of the
    usage record are left to each relation. *)
Class StepInvariant (R : state → state → Prop) : Prop := {
  step_refl : ∀ s, R s s;
  step_trans : ∀ s1 s2 s3, R s1 s2 → R s2 s3 → R s1 s3;
  step_zones :
    ∀ f, (∀ t k, k ≠ "SUBCATCHMENTS" → f t !! k = t !! k) →
         keeps R (modify_template f);
  step_count : ∀ lid_type, keeps R (count_lid lid_type);
  step_warn : ∀ v, keeps R (warn_unsupported v)
}.

(** The LID gives map coordinates, for its location or for its drain
    point. *)
Definition uses_map (lid : params.lid) : bool :=
  match params.map (params.location lid) with
  | Some _ => true
  | None =>
      match params.drainTo lid with
      | Some d => bool_decide (is_Some (params.drain_map d))
      | None => false
      end
  end.

(** What a step of the injection may do to the polygons it holds: the polygon
    section stays as it was, polygons that are held stay the ones held, and
    polygons that come to be held are the extraction from the model. *)
Definition polygons_kept (s s' : state) : Prop :=
  input_template s' !! "POLYGONS" = input_template s !! "POLYGONS"
  ∧ (∀ ps, sc_polygons s = Some ps → sc_polygons s' = Some ps)
  ∧ (sc_polygons s = None →
     ∀ ps, sc_polygons s' = Some ps →
           extract_subcatchment_polygons (input_template s) = inr ps).

(** The step leaves the polygons held, or their absence, as it was. *)
Definition polygons_untouched (s s' : state) : Prop :=
  sc_polygons s' = sc_polygons s.

(** The usage section is the same in the two states. *)
Definition usage_kept (s s' : state) : Prop :=
  input_template s' !! "LID_USAGE" = input_template s !! "LID_USAGE".

(** Every run of a computation that raises relates the state it starts in to
    the state it ends in. *)
Definition keeps_when_raising (R : state → state → Prop) {A : Type} (m : M A)
    : Prop :=
  ∀ s s' e, m s = (s', inl e) → R s s'.

End Vocabulary.

(** ** Worked examples *)

(** A line as the reader leaves it: text in every field, no comment. *)
Definition text_line (vs : list string) : line := Line (VStr <$> vs) None.

(** A model with the zone S1 of area 2.0 and 80 percent impervious, and a
    catalog with a rain barrel and a bio-retention cell. *)
Definition example_template : swmm_input :=
  <["SUBCATCHMENTS" :=
      Section_ [text_line ["S1"; "RG1"; "J1"; "2.0"; "80"; "100"; "0.5"; "0"]]
               None]>
    (<["LID_CONTROLS" :=
         Section_ [text_line ["RB"; "RB"];
                   text_line ["RB"; "STORAGE"; "48"; "0.75"; "0.5"; "0"];
                   text_line ["BC"; "BC"]]
                  None]> ∅).

(** A LID of a type with a number of units of an area each, located in S1. *)
Definition lid_in_S1 (lid_type : string) (number : Z) (area : Q) : params.lid :=
  params.Lid lid_type (params.Placement (Some "S1") None) None number area
             0 0 0 0 None.

Definition rain_barrel : params.lid := lid_in_S1 "RB" 1 50.
Definition oversized_rain_barrel : params.lid := lid_in_S1 "RB" 1000 50.
Definition bio_cell : params.lid := lid_in_S1 "BC" 1 50.

Definition one_lid (lid : params.lid) : params.input_parameters :=
  params.InputParameters (Some [lid]).

(** The state a run over the example model starts in. *)
Definition example_start : @state ring_shapely :=
  @State ring_shapely example_template None ∅ [].

Definition square (x y side : Q) : list (Q * Q) :=
  [(x, y); (x + side, y); (x + side, y + side); (x, y + side)]%Q.

(** Two zones side by side, and two zones that overlap. *)
Definition disjoint_polygons : gmap string (@polygon ring_shapely) :=
  <["S1" := square 0 0 2]> (<["S2" := square 3 0 2]> ∅).

Definition overlapping_polygons : gmap string (@polygon ring_shapely) :=
  <["S1" := square 0 0 2]> (<["S2" := square 1 1 2]> ∅).

(** The fields of the zone S1 in the example model. *)
Definition s1_fields : list value :=
  VStr <$> ["S1"; "RG1"; "J1"; "2.0"; "80"; "100"; "0.5"; "0"].

(** The example model read in SI units, with decimal numerals. *)
Definition si_runtime : Runtime := runtime_of "SI".

(** The rain barrel once it is moved to its child zone, and the state the
    split of S1 for it ends in. *)
Definition rain_barrel_in_child : params.lid :=
  set_location_subcatchment rain_barrel "S1##RB_1".

Definition after_split : @state ring_shapely :=
  (@split_subcatchment swmm5_indices ring_shapely si_runtime
     "SI" rain_barrel "RB_1" example_start).1.

(** The state a run over the example model ends in. *)
Definition after_run (unit_system : string) (lids : list params.lid)
    : @state ring_shapely :=
  (@inject_parameters_into_input swmm5_indices ring_shapely
     (runtime_of unit_system) (params.InputParameters (Some lids))
     example_template).1.

(** The example model with the outline of S1, a square of side 2, in its
    polygon section. *)
Definition mapped_template : swmm_input :=
  <["POLYGONS" :=
      Section_ [text_line ["S1"; "0"; "0"]; text_line ["S1"; "2"; "0"];
                text_line ["S1"; "2"; "2"]; text_line ["S1"; "0"; "2"]]
               None]> example_template.

(** A bio-retention cell placed by the coordinates of a point of S1, beside
    which the name of a zone the model does not have is given. *)
Definition mapped_bio_cell : params.lid :=
  params.Lid "BC" (params.Placement (Some "S9") (Some (params.Coords 1 1)))
             None 1 50 0 0 0 0 None.

Definition mapped_start : @state ring_shapely :=
  @State ring_shapely mapped_template None ∅ [].

Definition after_mapped_run : @state ring_shapely :=
  (@inject_parameters_into_input swmm5_indices ring_shapely si_runtime
     (one_lid mapped_bio_cell) mapped_template).1.

(** A rain barrel that takes more than the impervious land of S1; a rain
    barrel in a zone the model does not have; a LID of a type the catalog
    does not have. *)
Definition wide_rain_barrel : params.lid := lid_in_S1 "RB" 360 50.

Definition stray_rain_barrel : params.lid :=
  params.Lid "RB" (params.Placement (Some "S9") None) None 1 50 0 0 0 0 None.

Definition unknown_lid : params.lid := lid_in_S1 "ZZ" 1 50.

(** A package whose checks pass, whose reader knows one model text and one
    parameter text, and whose writer writes the number of zone lines. *)
Definition example_package : Package := {|
  validate_required_sections := fun _ _ _ => mret ();
  validate_file_exists := fun _ _ _ => mret ();
  validate_dir_exists := fun _ _ _ _ => mret ();
  sir_read := fun text =>
    if bool_decide (text = "model") then mret example_template
    else raise (ValueError [Text "unreadable model"]);
  json_load := fun text =>
    if bool_decide (text = "parameters") then mret (one_lid rain_barrel)
    else raise (ValueError [Text "No JSON object could be decoded"]);
  siw_write := fun t => (pretty (length (sc_lines t)) +:+ " zones", mret ());
  creatable := fun _ _ => true
|}.

Definition example_config : config :=
  <["input_path" := "out.inp"]>
    (<["input_template_path" := "template.inp"]>
       (<["input_parameters_path" := "parameters.json"]> ∅)).

Definition example_files : files :=
  <["template.inp" := "model"]> (<["parameters.json" := "parameters"]> ∅).

(** The example model with a second zone that has the name a child zone of
    S1 for the LID RB_1 would get first. *)
Definition crowded_template : swmm_input :=
  <["SUBCATCHMENTS" :=
      Section_ [Line s1_fields None;
                text_line ["S1##RB_1"; "RG1"; "J1"; "0.5"; "0"; "100"; "0.5"; "0"]]
               None]> example_template.

(** The state a run over that model starts in, and the state the split of S1
    for a rain barrel ends in there. *)
Definition crowded_start : @state ring_shapely :=
  @State ring_shapely crowded_template None ∅ [].

Definition after_crowded_split : @state ring_shapely :=
  (@split_subcatchment swmm5_indices ring_shapely si_runtime
     "SI" rain_barrel "RB_1" crowded_start).1.

(** An environment like [runtime_of] whose schema accepts every document. *)
Definition unchecked_runtime (unit_system : string) : Runtime := {|
  float_of_string := decimal;
  iteritems := fun V m => map_to_list m;
  iteritems_perm := fun V m => reflexivity (map_to_list m);
  get_unit_system := fun _ => mret unit_system;
  validate_against_json_schema := fun _ => mret ()
|}.

(** A rain barrel with a negative unit count. *)
Definition negative_rain_barrel : params.lid := lid_in_S1 "RB" (-1) 50.

Definition after_negative_run : @state ring_shapely :=
  (@inject_parameters_into_input swmm5_indices ring_shapely
     (unchecked_runtime "SI") (one_lid negative_rain_barrel)
     example_template).1.

(** Bio-retention cells placed by the coordinates of a point outside every
    zone, and with no placement at all. *)
Definition far_bio_cell : params.lid :=
  params.Lid "BC" (params.Placement None (Some (params.Coords 10 10)))
             None 1 50 0 0 0 0 None.

Definition unplaced_bio_cell : params.lid :=
  params.Lid "BC" (params.Placement None None) None 1 50 0 0 0 0 None.

(** The state in which a run over the example model is rejected at its
    second LID, a rain barrel that does not fit in S1. *)
Definition after_rejected_run : @state ring_shapely :=
  (@inject_lids swmm5_indices ring_shapely si_runtime
     "SI" [bio_cell; oversized_rain_barrel] example_start).1.

(** * Properties *)

#[global] Arguments child_name : simpl never.

(** ** Monadic steps *)

Lemma result_bind_inr {A B : Type} (m : result A) (f : A → result B) (b : B) :
  m ≫= f = inr b → ∃ a, m = inr a ∧ f a = inr b.
Proof. destruct m as [e|a]; simpl; [discriminate | eauto]. Qed.

Lemma getitem_inr {A : Type} (l : list A) (i : nat) (a : A) :
  getitem l i = inr a ↔ l !! i = Some a.
Proof.
  unfold getitem. destruct (l !! i); split; intros E; inversion E; done.
Qed.

Lemma setitem_inr {A : Type} (l l' : list A) (i : nat) (v : A) :
  setitem l i v = inr l' ↔ i < length l ∧ l' = <[i := v]> l.
Proof.
  unfold setitem. destruct (decide (i < length l)); split.
  - intros E; inversion E; done.
  - intros [_ ->]; done.
  - discriminate.
  - intros [? _]; lia.
Qed.

Lemma value_eqb_true (v : value) (s : string) :
  value_eqb v s = true ↔ v = VStr s.
Proof.
  destruct v as [s'|q]; simpl.
  - rewrite bool_decide_eq_true. split; [intros ->; done | intros E; inversion E; done].
  - split; discriminate.
Qed.

Lemma string_length_app (s1 s2 : string) :
  String.length (s1 +:+ s2) = String.length s1 + String.length s2.
Proof. induction s1 as [|c s1 IH]; simpl; [done | by rewrite IH]. Qed.

(** The names tried for a child zone are pairwise different. *)
Lemma string_app_longer (s t : string) : s = s +:+ t → t = EmptyString.
Proof.
  intros E. apply (f_equal String.length) in E.
  rewrite string_length_app in E. destruct t; [done | simpl in E; lia].
Qed.

Lemma child_name_inj (base id : string) : Inj (=) (=) (child_name base id).
Proof.
  intros [|j] [|k] E; unfold child_name in E; try done.
  - apply (inj (String.append _)) in E. simpl in E. simplify_eq.
    by apply string_app_longer in E.
  - apply (inj (String.append _)) in E. simpl in E. simplify_eq.
    symmetry in E. by apply string_app_longer in E.
  - apply (inj (String.append _)) in E. simpl in E.
    injection E as E. do 3 apply (inj (String.append _)) in E.
    by apply (inj pretty) in E.
Qed.

Section Zones.
Context `{DataIndices, Shapely, Runtime}.

Lemma find_definition_exn (ls : list line) (pos : nat) (n : string) (e : exn) :
  find_definition ls pos n = inl e → e = IndexError.
Proof.
  revert pos. induction ls as [|l ls IH]; intros pos; simpl; [done|].
  destruct (values l) as [|v vs] eqn:E; [apply IH|].
  unfold getitem. destruct ((v :: vs) !! sc_name_index) as [w|]; simpl.
  - destruct (value_eqb w n); [done | apply IH].
  - intros [= <-]; done.
Qed.

Lemma find_definition_Some (ls : list line) (pos : nat) (n : string)
    (p : nat) (vs : list value) :
  find_definition ls pos n = inr (Some (p, vs)) →
  ∃ l, pos ≤ p ∧ ls !! (p - pos) = Some l ∧ values l = vs
       ∧ vs !! sc_name_index = Some (VStr n).
Proof.
  revert pos. induction ls as [|l ls IH]; intros pos; simpl; [done|].
  destruct (values l) as [|v ws] eqn:E.
  - intros F. destruct (IH _ F) as (l' & Hle & Hl & Hv & Hn).
    exists l'. split; [lia|]. split; [|done].
    replace (p - pos) with (S (p - S pos)) by lia. done.
  - unfold getitem. destruct ((v :: ws) !! sc_name_index) as [w|] eqn:Ew; simpl; [|done].
    destruct (value_eqb w n) eqn:Eq.
    + intros [= <- <-]. exists l. rewrite Nat.sub_diag.
      apply value_eqb_true in Eq as ->. done.
    + intros F. destruct (IH _ F) as (l' & Hle & Hl & Hv & Hn).
      exists l'. split; [lia|]. split; [|done].
      replace (p - pos) with (S (p - S pos)) by lia. done.
Qed.

Lemma find_definition_None (ls : list line) (pos : nat) (n : string) :
  find_definition ls pos n = inr None →
  ∀ l, l ∈ ls → values l !! sc_name_index ≠ Some (VStr n).
Proof.
  revert pos. induction ls as [|l ls IH]; intros pos; simpl.
  - intros _ l Hl. by apply elem_of_nil in Hl.
  - destruct (values l) as [|v ws] eqn:E.
    + intros F l' [->|Hl']%elem_of_cons; [by rewrite E | by eapply IH].
    + unfold getitem.
      destruct ((v :: ws) !! sc_name_index) as [w|] eqn:Ew; simpl; [|done].
      destruct (value_eqb w n) eqn:Eq; [done|].
      intros F l' [->|Hl']%elem_of_cons; [|by eapply IH].
      rewrite E, Ew. intros [= ->]. simpl in Eq.
      by rewrite bool_decide_eq_false in Eq.
Qed.

Lemma find_definition_named (ls : list line) (pos : nat) (n : string) :
  (∀ l, l ∈ ls → values l = [] ∨ is_Some (values l !! sc_name_index)) →
  ∃ r, find_definition ls pos n = inr r.
Proof.
  revert pos. induction ls as [|l ls IH]; intros pos Hwf; simpl; [by eexists|].
  assert (Hrest : ∀ l', l' ∈ ls →
            values l' = [] ∨ is_Some (values l' !! sc_name_index)).
  { intros l' Hl'. apply Hwf. by right. }
  destruct (Hwf l) as [E|[w Ew]]; [by left | |].
  - rewrite E. by apply IH.
  - destruct (values l) as [|v ws] eqn:E; [by apply IH|].
    unfold getitem. rewrite Ew. simpl.
    destruct (value_eqb w n); [by eexists | by apply IH].
Qed.

Lemma get_subcatchment_definition_exn (t : swmm_input) (n : string) (e : exn) :
  get_subcatchment_definition t n = inl e → e = IndexError.
Proof.
  unfold get_subcatchment_definition.
  destruct (t !! "SUBCATCHMENTS"); [apply find_definition_exn | done].
Qed.

Lemma get_subcatchment_definition_Some (t : swmm_input) (n : string)
    (p : nat) (vs : list value) :
  get_subcatchment_definition t n = inr (Some (p, vs)) →
  ∃ l, sc_lines t !! p = Some l ∧ values l = vs
       ∧ vs !! sc_name_index = Some (VStr n).
Proof.
  unfold get_subcatchment_definition, sc_lines.
  destruct (t !! "SUBCATCHMENTS") as [s|]; [|done].
  intros (l & _ & Hl & ? & ?)%find_definition_Some.
  rewrite Nat.sub_0_r in Hl. eauto.
Qed.

Lemma get_subcatchment_definition_present (t : swmm_input) (n : string)
    (r : nat * list value) :
  get_subcatchment_definition t n = inr (Some r) → zone_present t n.
Proof.
  destruct r as [p vs].
  intros (l & Hl & <- & Hn)%get_subcatchment_definition_Some.
  exists l. split; [|done]. apply list_elem_of_lookup. eauto.
Qed.

Lemma get_subcatchment_definition_None (t : swmm_input) (n : string) :
  get_subcatchment_definition t n = inr None → ¬ zone_present t n.
Proof.
  unfold get_subcatchment_definition, zone_present, sc_lines.
  destruct (t !! "SUBCATCHMENTS") as [s|].
  - intros F (l & Hl & Hn). by eapply find_definition_None.
  - intros _ (l & Hl & _). by apply elem_of_nil in Hl.
Qed.

Lemma get_subcatchment_definition_named (t : swmm_input) (n : string) :
  zones_named t → ∃ r, get_subcatchment_definition t n = inr r.
Proof.
  unfold zones_named, get_subcatchment_definition, sc_lines.
  destruct (t !! "SUBCATCHMENTS") as [s|]; [|by eexists].
  apply find_definition_named.
Qed.

End Zones.

Section Names.
Context `{DataIndices, Shapely, Runtime}.

Lemma zone_present_names (t : swmm_input) (n : string) :
  zone_present t n → n ∈ omap line_name (sc_lines t).
Proof.
  intros (l & Hl & Hn). apply list_elem_of_omap. exists l. split; [done|].
  unfold line_name. by rewrite Hn.
Qed.

Lemma length_omap_le {A B : Type} (f : A → option B) (l : list A) :
  length (omap f l) ≤ length l.
Proof.
  induction l as [|a l IH]; csimpl; [done|]. destruct (f a); csimpl; lia.
Qed.

(** More names than there are zone lines cannot all be present. *)
Lemma child_names_not_all_present (t : swmm_input) (base id : string) :
  ¬ ∀ j, j ≤ length (sc_lines t) → zone_present t (child_name base id j).
Proof.
  intros Hall.
  set (n := length (sc_lines t)) in *.
  assert (Hsub : child_name base id <$> seq 0 (S n) ⊆+ omap line_name (sc_lines t)).
  { apply NoDup_submseteq.
    - apply (@NoDup_fmap_2 _ _ (child_name base id) (child_name_inj base id)).
      apply NoDup_seq.
    - intros x (j & -> & Hj)%list_elem_of_fmap.
      apply zone_present_names, Hall. apply elem_of_seq in Hj. lia. }
  apply submseteq_length in Hsub.
  rewrite length_fmap, length_seq in Hsub.
  pose proof (length_omap_le line_name (sc_lines t)). lia.
Qed.

Lemma while_existing_LoopBound (fuel : nat) (t : swmm_input)
    (base id : string) (k : nat) (ex : option (nat * list value)) :
  get_subcatchment_definition t (child_name base id k) = inr ex →
  while_existing fuel t base id k (child_name base id k) ex = inl LoopBound →
  ∀ j, k ≤ j ≤ k + fuel → zone_present t (child_name base id j).
Proof.
  revert k ex. induction fuel as [|fuel IH]; intros k ex Hex W j Hj.
  - destruct ex as [r|]; [|done].
    replace j with k by lia. by eapply get_subcatchment_definition_present.
  - destruct ex as [r|]; [|done]. simpl in W.
    destruct (decide (j = k)) as [->|Hne].
    { by eapply get_subcatchment_definition_present. }
    destruct (get_subcatchment_definition t (child_name base id (S k)))
      as [e|ex'] eqn:E; simpl in W.
    + apply get_subcatchment_definition_exn in E. congruence.
    + apply (IH (S k) ex' E W). lia.
Qed.

(** The bound of the loop is never met. *)
Lemma unique_lid_sc_name_terminates (t : swmm_input) (base id : string) :
  unique_lid_sc_name t base id ≠ inl LoopBound.
Proof.
  unfold unique_lid_sc_name. intros W.
  destruct (get_subcatchment_definition t (child_name base id 0))
    as [e|ex] eqn:E; simpl in W.
  - apply get_subcatchment_definition_exn in E. congruence.
  - apply (child_names_not_all_present t base id). intros j Hj.
    apply (while_existing_LoopBound _ _ _ _ _ _ E W). lia.
Qed.

Lemma while_existing_inr (fuel : nat) (t : swmm_input)
    (base id : string) (k : nat) (ex : option (nat * list value))
    (name : string) :
  get_subcatchment_definition t (child_name base id k) = inr ex →
  (∀ j, j < k → zone_present t (child_name base id j)) →
  while_existing fuel t base id k (child_name base id k) ex = inr name →
  ∃ k', name = child_name base id k'
        ∧ (∀ j, j < k' → zone_present t (child_name base id j))
        ∧ get_subcatchment_definition t name = inr None.
Proof.
  revert k ex. induction fuel as [|fuel IH]; intros k ex Hex Hlt W.
  - destruct ex as [r|]; simpl in W; [done|]. injection W as <-. eauto.
  - destruct ex as [r|]; simpl in W.
    + destruct (get_subcatchment_definition t (child_name base id (S k)))
        as [e|ex'] eqn:E; simpl in W; [done|].
      apply (IH (S k) ex' E); [|done].
      intros j Hj. destruct (decide (j = k)) as [->|Hne].
      * by eapply get_subcatchment_definition_present.
      * apply Hlt. lia.
    + injection W as <-. eauto.
Qed.

(** What the name returned for a child zone is. *)
Lemma unique_lid_sc_name_inr (t : swmm_input) (base id name : string) :
  unique_lid_sc_name t base id = inr name →
  ∃ k, name = child_name base id k
       ∧ (∀ j, j < k → zone_present t (child_name base id j))
       ∧ get_subcatchment_definition t name = inr None.
Proof.
  unfold unique_lid_sc_name. intros W.
  destruct (get_subcatchment_definition t (child_name base id 0))
    as [e|ex] eqn:E; simpl in W; [done|].
  apply (while_existing_inr (length (sc_lines t)) t base id 0 ex name E); [|done].
  intros j Hj. lia.
Qed.

Lemma while_existing_named (fuel : nat) (t : swmm_input)
    (base id : string) (k : nat) (name : string)
    (ex : option (nat * list value)) (e : exn) :
  zones_named t →
  while_existing fuel t base id k name ex = inl e → e = LoopBound.
Proof.
  intros Hwf. revert k name ex.
  induction fuel as [|fuel IH]; intros k name ex W.
  - destruct ex; simpl in W; [by injection W | done].
  - destruct ex as [r|]; simpl in W; [|done].
    destruct (get_subcatchment_definition_named t
                (child_name base id (S k)) Hwf) as [ex' E].
    rewrite E in W. simpl in W. by eapply IH.
Qed.

(** With named zone lines a child name is always found. *)
Lemma unique_lid_sc_name_named (t : swmm_input) (base id : string) :
  zones_named t → ∃ name, unique_lid_sc_name t base id = inr name.
Proof.
  intros Hwf.
  destruct (unique_lid_sc_name t base id) as [e|name] eqn:W; [|by eexists].
  exfalso. apply (unique_lid_sc_name_terminates t base id).
  rewrite W. f_equal. unfold unique_lid_sc_name in W.
  destruct (get_subcatchment_definition_named t (child_name base id 0) Hwf)
    as [ex E].
  rewrite E in W. simpl in W. by eapply while_existing_named.
Qed.

End Names.

Section Steps.
Context `{DataIndices, Shapely, Runtime}.

Lemma M_bind_inr {A B : Type} (m : M A) (f : A → M B) (s s' : state) (b : B) :
  (m ≫= f) s = (s', inr b) → ∃ s1 a, m s = (s1, inr a) ∧ f a s1 = (s', inr b).
Proof.
  unfold mbind, M_bind. destruct (m s) as [s1 [e|a]]; [done | eauto].
Qed.

Lemma M_bind_eq {A B : Type} (m : M A) (f : A → M B) (s s1 : state) (a : A) :
  m s = (s1, inr a) → (m ≫= f) s = f a s1.
Proof. intros E. unfold mbind, M_bind. by rewrite E. Qed.

Lemma M_bind_lift_inr {A B : Type} (r : result A) (f : A → M B)
    (s s' : state) (b : B) :
  (lift r ≫= f) s = (s', inr b) → ∃ a, r = inr a ∧ f a s = (s', inr b).
Proof.
  unfold mbind, M_bind, lift. destruct r as [e|a]; [done | eauto].
Qed.

Lemma M_bind_lift_inl {A B : Type} (r : result A) (f : A → M B)
    (s : state) (e : exn) :
  r = inl e → (lift r ≫= f) s = (s, inl e).
Proof. intros ->. done. Qed.

Lemma M_bind_lift_eq {A B : Type} (r : result A) (f : A → M B)
    (s : state) (a : A) :
  r = inr a → (lift r ≫= f) s = f a s.
Proof. intros ->. done. Qed.

Lemma M_bind_modify_inr {B : Type} (g : swmm_input → swmm_input)
    (f : () → M B) (s : state) :
  (modify_template g ≫= f) s = f () (with_template s (g (input_template s))).
Proof. done. Qed.

Lemma M_bind_get_template {B : Type} (f : swmm_input → M B) (s : state) :
  (get_template ≫= f) s = f (input_template s) s.
Proof. done. Qed.

Lemma set_base_eq {B : Type} (pos : nat) (l : list value) (i : nat) (v : value)
    (f : list value → M B) (s : state) :
  i < length l →
  (set_base pos l i v ≫= f) s
  = f (<[i := v]> l)
      (with_template s (write_sc pos (<[i := v]> l) (input_template s))).
Proof.
  intros Hi. unfold set_base, mbind, M_bind, lift, setitem.
  destruct (decide (i < length l)); [done | lia].
Qed.

Lemma set_base_inl {B : Type} (pos : nat) (l : list value) (i : nat) (v : value)
    (f : list value → M B) (s : state) :
  ¬ i < length l → (set_base pos l i v ≫= f) s = (s, inl IndexError).
Proof.
  intros Hi. unfold set_base, mbind, M_bind, lift, setitem.
  destruct (decide (i < length l)); [lia | done].
Qed.

Lemma item_inr {A : Type} (key : string) (o : option A) (a : A) :
  item key o = inr a ↔ o = Some a.
Proof. destruct o; split; intros E; inversion E; done. Qed.

Lemma units_to_inr (q q' : units.quantity) (u : units.unit) :
  units.to q u = inr q' →
  units.dimension (units.unit_of q) = units.dimension u
  ∧ q' = units.Quantity
           (units.magnitude q * units.factor (units.unit_of q) / units.factor u) u.
Proof.
  unfold units.to.
  destruct (Z.eqb_spec (units.dimension (units.unit_of q)) (units.dimension u));
    intros E; inversion E; done.
Qed.

Lemma units_sub_inr (a b q : units.quantity) :
  units.sub a b = inr q →
  q = units.Quantity
        (units.magnitude a
         - units.magnitude b * units.factor (units.unit_of b)
           / units.factor (units.unit_of a))
        (units.unit_of a).
Proof.
  unfold units.sub. intros (b' & [_ ->]%units_to_inr & E)%result_bind_inr.
  by inversion E.
Qed.

Lemma units_div_inr (a b q : units.quantity) :
  units.div a b = inr q →
  ¬ (units.magnitude b == 0)%Q
  ∧ q = units.Quantity (units.magnitude a / units.magnitude b)
          (units.Unit
             (units.factor (units.unit_of a) / units.factor (units.unit_of b))
             (units.dimension (units.unit_of a) - units.dimension (units.unit_of b))).
Proof.
  unfold units.div. destruct (Qeq_bool (units.magnitude b) 0) eqn:E; [done|].
  intros [= <-]. split; [|done]. by apply Qeq_bool_neq.
Qed.

Lemma area_units_inr (us : string) (lau sau : units.unit) :
  area_units us = inr (lau, sau) →
  (us = "US" ∧ lau = units.ft2 ∧ sau = units.acre)
  ∨ (us = "SI" ∧ lau = units.m2 ∧ sau = units.hectare).
Proof.
  unfold area_units. repeat case_bool_decide; intros E; inversion E; subst; auto.
Qed.

End Steps.

Section Split.
Context `{DataIndices, Shapely, Runtime}.

Lemma lookup_lt_length {A : Type} (l : list A) (i : nat) (a : A) :
  l !! i = Some a → i < length l.
Proof. intros E. apply lookup_lt_is_Some. eauto. Qed.

Lemma split_subcatchment_inr (us : string) (lid : params.lid) (lid_id : string)
    (s s' : state) (lid' : params.lid) :
  split_subcatchment us lid lid_id s = (s', inr lid') →
  split_trace us lid lid_id s s' lid'.
Proof.
  unfold split_subcatchment. intros W.
  apply M_bind_lift_inr in W as (name & Hloc%item_inr & W).
  rewrite M_bind_get_template in W.
  apply M_bind_lift_inr in W as ([[pos old]|] & Hhost & W); [|done].
  apply M_bind_lift_inr in W as (lid_sc_name & Hname & W).
  apply M_bind_lift_inr in W as (lid_sc0 & [Hlen ->]%setitem_inr & W).
  apply M_bind_lift_inr in W as ([lau sau] & Hunits & W).
  apply M_bind_lift_inr in W as (va & Hva%getitem_inr & W).
  apply M_bind_lift_inr in W as (A & HA & W).
  apply M_bind_lift_inr in W as (lid_sc_area & Hlsa & W).
  apply M_bind_lift_inr in W as (new_area & Hnew & W).
  apply M_bind_lift_inr in W as (lid_sc1 & [Hlen1 ->]%setitem_inr & W).
  pose proof (lookup_lt_length _ _ _ Hva) as Hla.
  rewrite set_base_eq in W by done.
  destruct (Qlt_le_dec (units.magnitude new_area) 0) as [Hneg|Hnonneg]; [done|].
  apply M_bind_lift_inr in W as (vp & Hvp%getitem_inr & W).
  apply M_bind_lift_inr in W as (p & Hp & W).
  apply M_bind_lift_inr in W as (new_imperv_area & Hnia & W).
  apply M_bind_lift_inr in W as (new_imperv & Hni & W).
  apply M_bind_lift_inr in W as (lid_sc2 & [Hlen2 ->]%setitem_inr & W).
  apply M_bind_lift_inr in W as (new_percent & Hnp & W).
  pose proof (lookup_lt_length _ _ _ Hvp) as Hlp.
  rewrite set_base_eq in W by done.
  destruct (Qlt_le_dec (units.magnitude new_percent) 0) as [Hneg|Hpnonneg];
    [done|].
  rewrite M_bind_modify_inr in W. injection W as <- <-.
  econstructor; eauto.
Qed.

End Split.

Section Numbers.
Context `{DataIndices, Shapely, Runtime}.

Lemma area_factor_pos (us : string) (lau sau : units.unit) :
  area_units us = inr (lau, sau) → (0 < area_factor lau sau)%Q.
Proof.
  intros [(_ & -> & ->)|(_ & -> & ->)]%area_units_inr; reflexivity.
Qed.

Lemma Qeq_0_scaled (l r c : Q) : (l == r / c → r == 0 → l == 0)%Q.
Proof. intros -> ->. unfold Qdiv. ring. Qed.

(** The magnitudes the split computes, as rational expressions. *)
Lemma split_magnitudes (us : string) (lau sau : units.unit) (x A p : Q)
    (lid_sc_area new_area new_imperv_area new_imperv new_percent
       : units.quantity) :
  area_units us = inr (lau, sau) →
  units.to (units.times x lau) sau = inr lid_sc_area →
  units.sub (units.times A sau) lid_sc_area = inr new_area →
  units.sub (units.mul (units.times p units.percent) (units.times A sau))
            lid_sc_area = inr new_imperv_area →
  units.div new_imperv_area new_area = inr new_imperv →
  units.to new_imperv units.percent = inr new_percent →
  (units.magnitude lid_sc_area == x * area_factor lau sau
   ∧ units.magnitude new_area == A - units.magnitude lid_sc_area
   ∧ ¬ units.magnitude new_area == 0
   ∧ units.magnitude new_percent
     == (p * A - 100 * units.magnitude lid_sc_area) / units.magnitude new_area)%Q.
Proof.
  intros Hu [_ ->]%units_to_inr ->%units_sub_inr ->%units_sub_inr
    [Hnz ->]%units_div_inr [_ ->]%units_to_inr.
  unfold area_factor.
  apply area_units_inr in Hu as [(_ & -> & ->)|(_ & -> & ->)];
    simpl in *; (split; [|split; [|split]]); try done. all: try (field; done).
  - field. intros Hc. apply Hnz.
    refine (Qeq_0_scaled _ _ (units.factor units.acre) _ Hc). simpl. field.
  - field. intros Hc. apply Hnz.
    refine (Qeq_0_scaled _ _ (units.factor units.hectare) _ Hc). simpl. field.
Qed.

End Numbers.

Section Templates.
Context `{DataIndices, Shapely, Runtime}.

Lemma sc_lines_write_sc (t : swmm_input) (pos : nat) (vs : list value) :
  sc_lines (write_sc pos vs t) = alter (rewrite_line vs) pos (sc_lines t).
Proof.
  unfold sc_lines, write_sc. rewrite lookup_alter_eq.
  destruct (t !! "SUBCATCHMENTS"); simpl; done.
Qed.

Lemma sc_lines_append_sc (t : swmm_input) (l : line) :
  is_Some (t !! "SUBCATCHMENTS") →
  sc_lines (append_line "SUBCATCHMENTS" l t) = sc_lines t ++ [l].
Proof.
  intros [s Hs]. unfold sc_lines, append_line.
  rewrite lookup_alter_eq, Hs. done.
Qed.

Lemma lookup_write_sc_ne (t : swmm_input) (pos : nat) (vs : list value)
    (k : string) :
  k ≠ "SUBCATCHMENTS" → write_sc pos vs t !! k = t !! k.
Proof. intros Hk. unfold write_sc. by rewrite lookup_alter_ne. Qed.

Lemma lookup_append_line_ne (t : swmm_input) (name : string) (l : line)
    (k : string) :
  k ≠ name → append_line name l t !! k = t !! k.
Proof. intros Hk. unfold append_line. by rewrite lookup_alter_ne. Qed.

Lemma write_sc_is_Some (t : swmm_input) (pos : nat) (vs : list value) :
  is_Some (t !! "SUBCATCHMENTS") →
  is_Some (write_sc pos vs t !! "SUBCATCHMENTS").
Proof.
  intros [s Hs]. unfold write_sc. rewrite lookup_alter_eq, Hs. by eexists.
Qed.

Lemma get_subcatchment_definition_is_Some (t : swmm_input) (n : string)
    (r : nat * list value) :
  get_subcatchment_definition t n = inr (Some r) →
  is_Some (t !! "SUBCATCHMENTS").
Proof.
  unfold get_subcatchment_definition.
  destruct (t !! "SUBCATCHMENTS"); [by eexists | done].
Qed.

(** The zone lines after a split: the base zone rewritten in place, and the
    child zone appended. *)
Lemma sc_lines_split_template (t : swmm_input) (n : string) (pos : nat)
    (old : list value) (lid : params.lid) (lid_sc_name : string)
    (lid_sc_area new_area new_imperv : Q) :
  get_subcatchment_definition t n = inr (Some (pos, old)) →
  sc_lines (split_template t pos old lid lid_sc_name lid_sc_area
              new_area new_imperv)
  = alter (rewrite_line (base_after old new_area new_imperv)) pos (sc_lines t)
    ++ [Line (child_of old lid_sc_name lid_sc_area) (child_comment lid)].
Proof.
  intros Hhost%get_subcatchment_definition_is_Some.
  unfold split_template.
  rewrite sc_lines_append_sc by by do 2 apply write_sc_is_Some.
  rewrite !sc_lines_write_sc, list_alter_alter_eq. done.
Qed.

Lemma split_template_other (t : swmm_input) (pos : nat)
    (old : list value) (lid : params.lid) (lid_sc_name : string)
    (lid_sc_area new_area new_imperv : Q) (k : string) :
  k ≠ "SUBCATCHMENTS" →
  split_template t pos old lid lid_sc_name lid_sc_area new_area new_imperv !! k
  = t !! k.
Proof.
  intros Hk. unfold split_template.
  by rewrite lookup_append_line_ne, !lookup_write_sc_ne.
Qed.

End Templates.

Section Conservation.
Context `{DataIndices, Shapely, Runtime}.

(** C1: a successful split of a rain barrel conserves the impervious area of
    its base zone.  With [A] and [p] the area and the impervious percentage
    read from the base zone, [L] the area of the LID units converted to the
    unit of zone areas, and [A'], [p'] the area and percentage written back
    to the base zone: [A' = A - L], the old impervious area [p% * A] is the
    new one [p'% * A'] plus [L], and [p'%] is [(p% * A - L) / (A - L)]. *)
Theorem split_conserves_impervious_area (us : string) (lid : params.lid)
    (lid_id : string) (s s' : state) (lid' : params.lid) :
  sc_area_index ≠ sc_imperv_index →
  split_subcatchment us lid lid_id s = (s', inr lid') →
  ∃ (name : string) (pos : nat) (old : list value) (lau sau : units.unit)
    (va vp : value) (A p L A' p' : Q) (new : line),
    params.subcatchment (params.location lid) = Some name
    ∧ get_subcatchment_definition (input_template s) name
      = inr (Some (pos, old))
    ∧ old !! sc_area_index = Some va ∧ float va = inr A
    ∧ old !! sc_imperv_index = Some vp ∧ float vp = inr p
    ∧ area_units us = inr (lau, sau)
    ∧ sc_lines (input_template s') !! pos = Some new
    ∧ values new !! sc_area_index = Some (VNum A')
    ∧ values new !! sc_imperv_index = Some (VNum p')
    ∧ (L == inject_Z (params.number lid) * params.area lid
            * area_factor lau sau
       ∧ A' == A - L
       ∧ p / 100 * A == p' / 100 * A' + L
       ∧ p' / 100 == (p / 100 * A - L) / (A - L))%Q.
Proof.
  intros Hne W. destruct (split_subcatchment_inr _ _ _ _ _ _ W).
  destruct (split_magnitudes _ _ _ _ _ _ _ _ _ _ _ Hunits Hlsa Hnew Hnia Hni Hnp)
    as (HL & HA' & Hnz & Hp').
  destruct (get_subcatchment_definition_Some _ _ _ _ Hhost)
    as (l & Hl & Hvl & _).
  rewrite list_lookup_insert_ne in Hvp by done.
  pose proof (lookup_lt_length _ _ _ Hva) as Hla.
  pose proof (lookup_lt_length _ _ _ Hvp) as Hlp.
  exists name, pos, old, lau, sau, va, vp, A, p,
    (units.magnitude lid_sc_area), (units.magnitude new_area),
    (units.magnitude new_percent),
    (rewrite_line (base_after old (units.magnitude new_area)
                     (units.magnitude new_percent)) l).
  repeat split; try done.
  - subst s'. simpl. erewrite sc_lines_split_template by done.
    apply lookup_app_l_Some. by rewrite list_lookup_alter_eq, Hl.
  - simpl. unfold base_after.
    rewrite list_lookup_insert_ne by done.
    by rewrite list_lookup_insert_eq.
  - simpl. unfold base_after.
    rewrite list_lookup_insert_eq; [done|]. by rewrite length_insert.
  - rewrite Hp'. field. done.
  - rewrite Hp'. rewrite <- HA'. field. done.
Qed.

(** C9: the child zone appended by a successful split is a copy of the
    fields of its base zone as they were before the split, in which only the
    name, the area and the impervious percentage are replaced. *)
Theorem split_child_copies_base (us : string) (lid : params.lid)
    (lid_id : string) (s s' : state) (lid' : params.lid) :
  split_subcatchment us lid lid_id s = (s', inr lid') →
  ∃ (name : string) (pos : nat) (old : list value) (child : line),
    params.subcatchment (params.location lid) = Some name
    ∧ get_subcatchment_definition (input_template s) name
      = inr (Some (pos, old))
    ∧ length (sc_lines (input_template s'))
      = S (length (sc_lines (input_template s)))
    ∧ last (sc_lines (input_template s')) = Some child
    ∧ length (values child) = length old
    ∧ ∀ i, i ≠ sc_name_index → i ≠ sc_area_index → i ≠ sc_imperv_index →
        values child !! i = old !! i.
Proof.
  intros W. destruct (split_subcatchment_inr _ _ _ _ _ _ W).
  exists name, pos, old,
    (Line (child_of old lid_sc_name (units.magnitude lid_sc_area))
          (child_comment lid)).
  subst s'. simpl. erewrite sc_lines_split_template by done.
  repeat split; try done.
  - rewrite length_app, length_alter. simpl. lia.
  - by rewrite last_snoc.
  - simpl. unfold child_of. by rewrite !length_insert.
  - intros i Hn Ha Hi. simpl. unfold child_of.
    by rewrite !list_lookup_insert_ne.
Qed.

End Conservation.

Section Placement.
Context `{DataIndices, Shapely, Runtime}.

Lemma elem_of_iteritems {V : Type} (m : gmap string V) (k : string) (v : V) :
  (k, v) ∈ iteritems m ↔ m !! k = Some v.
Proof. rewrite (iteritems_perm V m). apply elem_of_map_to_list. Qed.

(** The loop stops at the first zone whose polygon contains the point. *)
Lemma first_containing_Some (items : list (string * polygon)) (point : Q * Q)
    (sc : string) :
  first_containing items point = Some sc ↔
  ∃ before p after,
    items = before ++ (sc, p) :: after
    ∧ Forall (λ item, contains item.2 point = false) before
    ∧ contains p point = true.
Proof.
  induction items as [|[k q] items IH]; simpl.
  - split; [done|]. intros ([|? ?] & ? & ? & ? & _); done.
  - destruct (contains q point) eqn:E.
    + split.
      * intros [= <-]. exists [], q, items. by repeat split.
      * intros ([|[k' q'] before] & p & after & Heq & Hb & Hp).
        -- by injection Heq as -> _ _.
        -- injection Heq as <- <- _. apply Forall_cons_1 in Hb as [Hb _].
           simpl in Hb. congruence.
    + rewrite IH. split.
      * intros (before & p & after & -> & Hb & Hp).
        exists ((k, q) :: before), p, after. repeat split; [|done].
        by apply Forall_cons.
      * intros ([|[k' q'] before] & p & after & Heq & Hb & Hp).
        -- injection Heq as <- <- _. congruence.
        -- injection Heq as <- <- ->. apply Forall_cons_1 in Hb as [_ Hb].
           by exists before, p, after.
Qed.

Lemma first_containing_None (items : list (string * polygon)) (point : Q * Q) :
  first_containing items point = None ↔
  Forall (λ item, contains item.2 point = false) items.
Proof.
  induction items as [|[k q] items IH]; simpl; [done|].
  destruct (contains q point) eqn:E.
  - split; [done|]. intros [Hq _]%Forall_cons_1. simpl in Hq. congruence.
  - rewrite IH. split; [intros Hf; by apply Forall_cons | by intros [_ ?]%Forall_cons_1].
Qed.

(** C4: a point inside the polygon of exactly one zone resolves to that
    zone, and a point inside no polygon raises an error whose message holds
    the two coordinates. *)
Theorem coords_resolve_by_containment (subcatchments : gmap string polygon)
    (coordinates : params.coords) :
  let point := (params.x coordinates, params.y coordinates) in
  (∀ sc p,
     subcatchments !! sc = Some p →
     contains p point = true →
     (∀ sc' p', subcatchments !! sc' = Some p' → sc' ≠ sc →
                contains p' point = false) →
     get_subcatchment_from_map_coords coordinates subcatchments = inr sc)
  ∧ ((∀ sc p, subcatchments !! sc = Some p → contains p point = false) →
     get_subcatchment_from_map_coords coordinates subcatchments
     = inl (ValueError [Text "Coordinates ("; Float (params.x coordinates);
                        Text ", "; Float (params.y coordinates);
                        Text ") not found in subcatchments."])).
Proof.
  intros point. unfold get_subcatchment_from_map_coords. fold point. split.
  - intros sc p Hsc Hp Hothers.
    destruct (first_containing (iteritems subcatchments) point) as [sc'|] eqn:E.
    + apply first_containing_Some in E as (before & p' & after & Heq & _ & Hp').
      assert (Hin : (sc', p') ∈ iteritems subcatchments).
      { rewrite Heq. apply elem_of_app. right. by left. }
      apply elem_of_iteritems in Hin.
      destruct (decide (sc' = sc)) as [->|Hne]; [done|].
      rewrite (Hothers sc' p' Hin Hne) in Hp'. done.
    + rewrite first_containing_None, Forall_forall in E.
      apply elem_of_iteritems in Hsc. apply E in Hsc. simpl in Hsc. congruence.
  - intros Hnone.
    destruct (first_containing (iteritems subcatchments) point) as [sc'|] eqn:E;
      [|done].
    apply first_containing_Some in E as (before & p' & after & Heq & _ & Hp').
    assert (Hin : (sc', p') ∈ iteritems subcatchments).
    { rewrite Heq. apply elem_of_app. right. by left. }
    apply elem_of_iteritems in Hin.
    rewrite (Hnone sc' p' Hin) in Hp'. done.
Qed.

(** C10: when the polygons of several zones contain the point, no error is
    raised: the zone returned is the first one, in the iteration order of the
    dictionary of polygons, whose polygon contains the point. *)
Theorem coords_resolve_to_first_containing
    (subcatchments : gmap string polygon) (coordinates : params.coords)
    (sc1 sc2 : string) (p1 p2 : polygon) :
  let point := (params.x coordinates, params.y coordinates) in
  sc1 ≠ sc2 →
  subcatchments !! sc1 = Some p1 → contains p1 point = true →
  subcatchments !! sc2 = Some p2 → contains p2 point = true →
  ∃ before sc p after,
    iteritems subcatchments = before ++ (sc, p) :: after
    ∧ Forall (λ item, contains item.2 point = false) before
    ∧ contains p point = true
    ∧ get_subcatchment_from_map_coords coordinates subcatchments = inr sc.
Proof.
  intros point _ Hsc1 Hp1 _ _.
  unfold get_subcatchment_from_map_coords. fold point.
  destruct (first_containing (iteritems subcatchments) point) as [sc|] eqn:E.
  - apply first_containing_Some in E as (before & p & after & Heq & Hb & Hp).
    by exists before, sc, p, after.
  - rewrite first_containing_None, Forall_forall in E.
    apply elem_of_iteritems in Hsc1. apply E in Hsc1. simpl in Hsc1. congruence.
Qed.

End Placement.

Section Loop.
Context `{DataIndices, Shapely, Runtime}.

Lemma subcatchment_polygons_frame (s s1 : state)
    (r : result (gmap string polygon)) :
  subcatchment_polygons s = (s1, r) →
  input_template s1 = input_template s ∧ lid_counter s1 = lid_counter s
  ∧ warnings s1 = warnings s.
Proof.
  unfold subcatchment_polygons. destruct (sc_polygons s).
  - by intros [= <- <-].
  - destruct (extract_subcatchment_polygons (input_template s));
      by intros [= <- <-].
Qed.

Lemma resolve_location_frame (lid : params.lid) (s s1 : state)
    (r : result params.lid) :
  resolve_location lid s = (s1, r) →
  input_template s1 = input_template s ∧ lid_counter s1 = lid_counter s
  ∧ warnings s1 = warnings s.
Proof.
  unfold resolve_location. destruct (params.map (params.location lid)).
  - unfold mbind, M_bind.
    destruct (subcatchment_polygons s) as [s2 [e|ps]] eqn:E;
      apply subcatchment_polygons_frame in E.
    + by intros [= <- <-].
    + unfold lift. destruct (get_subcatchment_from_map_coords c ps);
        by intros [= <- <-].
  - by intros [= <- <-].
Qed.

Lemma resolve_drainTo_frame (lid : params.lid) (s s1 : state)
    (r : result params.lid) :
  resolve_drainTo lid s = (s1, r) →
  input_template s1 = input_template s ∧ lid_counter s1 = lid_counter s
  ∧ warnings s1 = warnings s.
Proof.
  unfold resolve_drainTo. destruct (params.drainTo lid) as [d|];
    [destruct (params.drain_map d)|].
  - unfold mbind, M_bind.
    destruct (subcatchment_polygons s) as [s2 [e|ps]] eqn:E;
      apply subcatchment_polygons_frame in E.
    + by intros [= <- <-].
    + unfold lift. destruct (get_subcatchment_from_map_coords c ps);
        by intros [= <- <-].
  - by intros [= <- <-].
  - by intros [= <- <-].
Qed.

(** Resolving the placements only fills the polygons in. *)
Lemma resolve_placements_frame (lid : params.lid) (s s1 : state)
    (r : result params.lid) :
  resolve_placements lid s = (s1, r) →
  input_template s1 = input_template s ∧ lid_counter s1 = lid_counter s
  ∧ warnings s1 = warnings s.
Proof.
  unfold resolve_placements, mbind, M_bind.
  destruct (resolve_location lid s) as [s2 [e|lid2]] eqn:E;
    apply resolve_location_frame in E as (E1 & E2 & E3).
  - by intros [= <- <-].
  - intros (F1 & F2 & F3)%resolve_drainTo_frame. repeat split; congruence.
Qed.

Lemma resolve_location_inr (lid lid1 : params.lid) (s s1 : state) :
  resolve_location lid s = (s1, inr lid1) →
  params.type lid1 = params.type lid
  ∧ params.number lid1 = params.number lid
  ∧ params.area lid1 = params.area lid
  ∧ params.drainTo lid1 = params.drainTo lid
  ∧ (placement_given lid →
     is_Some (params.subcatchment (params.location lid1)))
  ∧ (params.map (params.location lid) = None → lid1 = lid).
Proof.
  unfold resolve_location, placement_given.
  destruct (params.map (params.location lid)) as [c|] eqn:Em.
  - intros (s2 & ps & _ & (sc & _ & [= <- <-])%M_bind_lift_inr)%M_bind_inr.
    simpl. repeat split; eauto. done.
  - intros [= <- <-]. repeat split; try done.
    intros [?|[? ?]]; done.
Qed.

Lemma resolve_drainTo_inr (lid lid1 : params.lid) (s s1 : state) :
  resolve_drainTo lid s = (s1, inr lid1) →
  params.type lid1 = params.type lid
  ∧ params.number lid1 = params.number lid
  ∧ params.area lid1 = params.area lid
  ∧ params.location lid1 = params.location lid.
Proof.
  unfold resolve_drainTo. destruct (params.drainTo lid) as [d|];
    [destruct (params.drain_map d)|].
  - intros (s2 & ps & _ & (sc & _ & [= <- <-])%M_bind_lift_inr)%M_bind_inr.
    done.
  - by intros [= <- <-].
  - by intros [= <- <-].
Qed.

Lemma resolve_placements_inr (lid lid1 : params.lid) (s s1 : state) :
  resolve_placements lid s = (s1, inr lid1) →
  params.type lid1 = params.type lid
  ∧ params.number lid1 = params.number lid
  ∧ params.area lid1 = params.area lid
  ∧ (placement_given lid →
     is_Some (params.subcatchment (params.location lid1))).
Proof.
  unfold resolve_placements.
  intros (s2 & lid2 & (E1 & E2 & E3 & _ & E4 & _)%resolve_location_inr
          & (F1 & F2 & F3 & F4)%resolve_drainTo_inr)%M_bind_inr.
  rewrite F4. split; [congruence | split; [congruence | split; [congruence | exact E4]]].
Qed.

(** Once the placements are resolved and the type is found in the catalog,
    the LID is counted and then adjusted and added. *)
Lemma inject_lid_resolved (us : string) (lid lid1 : params.lid)
    (s s1 : state) (v : value) :
  resolve_placements lid s = (s1, inr lid1) →
  catalog_type (input_template s) (params.type lid) v →
  inject_lid us lid s
  = (lid2 ← (if value_eqb v "RB"
             then split_subcatchment us lid1 (next_id s (params.type lid))
             else (_ ← warn_unsupported v; mret lid1));
     _ ← add_lid_usage lid2;
     mret (next_id s (params.type lid)))
      (counted s1 (params.type lid)).
Proof.
  intros Hres (ctl & first & rest & Hctl & Hdef & Hv).
  pose proof (resolve_placements_frame _ _ _ _ Hres) as (Ht & Hc & Hw).
  pose proof (resolve_placements_inr _ _ _ _ Hres) as (Hty & _).
  unfold inject_lid. unfold mbind at 1. unfold M_bind at 1. rewrite Hres.
  rewrite M_bind_get_template, Ht, Hctl, Hty.
  rewrite (M_bind_lift_eq _ _ _ _ Hdef).
  unfold mbind at 1. unfold M_bind at 1.
  unfold count_lid at 1. rewrite Hc, Ht.
  apply getitem_inr in Hv.
  rewrite (M_bind_lift_eq _ _ _ _ Hv).
  unfold counted, next_id. rewrite Ht, Hc. reflexivity.
Qed.

Lemma add_lid_usage_eq (lid : params.lid) (s : state) (vs : list value) :
  lid_values lid = inr vs →
  ∃ s', add_lid_usage lid s = (s', inr ())
        ∧ (∀ k, k ≠ "LID_USAGE" → input_template s' !! k = input_template s !! k)
        ∧ usage_lines (input_template s')
          = usage_lines (input_template s) ++ [Line vs None]
        ∧ is_Some (input_template s' !! "LID_USAGE")
        ∧ sc_polygons s' = sc_polygons s
        ∧ lid_counter s' = lid_counter s
        ∧ warnings s' = warnings s.
Proof.
  intros Hvs. unfold add_lid_usage. rewrite (M_bind_lift_eq _ _ _ _ Hvs).
  unfold modify_template. eexists. split; [done|]. simpl.
  unfold usage_lines, append_line.
  destruct (input_template s !! "LID_USAGE") as [u|] eqn:Eu.
  - repeat split; try done.
    + intros k Hk. by rewrite lookup_alter_ne.
    + by rewrite lookup_alter_eq, Eu.
    + rewrite lookup_alter_eq, Eu. by eexists.
  - repeat split; try done.
    + intros k Hk. by rewrite lookup_alter_ne, lookup_insert_ne.
    + by rewrite lookup_alter_eq, lookup_insert_eq.
    + rewrite lookup_alter_eq, lookup_insert_eq. by eexists.
Qed.

Lemma lid_values_inr (lid : params.lid) (sc : string) :
  params.subcatchment (params.location lid) = Some sc →
  ∃ vs, lid_values lid = inr vs.
Proof. intros E. unfold lid_values. rewrite E. by eexists. Qed.

(** C6, amended: a LID whose category in the catalog is not the rain barrel
    one, whose location gives a zone name or map coordinates, and whose map
    coordinates, of the location and of the drain point, resolve to zones,
    is injected without an error: the zone section is left as it was, a
    warning is logged, and a record for the LID is appended to the usage
    section. *)
Theorem unsupported_type_passes_through (us : string) (lid lid1 : params.lid)
    (s s1 : state) (v : value) :
  resolve_placements lid s = (s1, inr lid1) →
  placement_given lid →
  catalog_type (input_template s) (params.type lid) v →
  v ≠ VStr "RB" →
  ∃ s' vs,
    inject_lid us lid s = (s', inr (next_id s (params.type lid)))
    ∧ lid_values lid1 = inr vs
    ∧ input_template s' !! "SUBCATCHMENTS" = input_template s !! "SUBCATCHMENTS"
    ∧ warnings s' = warnings s ++ [unsupported_warning v]
    ∧ usage_lines (input_template s')
      = usage_lines (input_template s) ++ [Line vs None].
Proof.
  intros Hres Hgiven Hcat Hv.
  pose proof (resolve_placements_frame _ _ _ _ Hres) as (Ht & Hc & Hw).
  pose proof (resolve_placements_inr _ _ _ _ Hres) as (_ & _ & _ & Hloc).
  destruct (Hloc Hgiven) as [sc Hsc].
  destruct (lid_values_inr _ _ Hsc) as [vs Hvs].
  rewrite (inject_lid_resolved us lid lid1 s s1 v Hres Hcat).
  assert (value_eqb v "RB" = false) as ->.
  { destruct (value_eqb v "RB") eqn:E; [|done].
    by apply value_eqb_true in E. }
  unfold mbind, M_bind, warn_unsupported, mret, M_ret, counted. simpl.
  fold (unsupported_warning v).
  match goal with
  | |- context [add_lid_usage lid1 ?s2] =>
      destruct (add_lid_usage_eq lid1 s2 vs Hvs)
        as (s' & Hadd & Hother & Husage & _ & _ & _ & Hw')
  end.
  exists s', vs. rewrite Hadd. simpl in *.
  repeat split; try done.
  - rewrite Hother by done. by rewrite Ht.
  - rewrite Hw'. by rewrite Hw.
  - rewrite Husage. by rewrite Ht.
Qed.

End Loop.

Section Errors.
Context `{DataIndices, Shapely, Runtime}.

Lemma M_bind_inl {A B : Type} (m : M A) (f : A → M B) (s s' : state) (e : exn) :
  m s = (s', inl e) → (m ≫= f) s = (s', inl e).
Proof. intros E. unfold mbind, M_bind. by rewrite E. Qed.

Lemma area_units_unknown (us : string) :
  us ≠ "US" → us ≠ "SI" → area_units us = inl (unknown_unit_system us).
Proof.
  intros H1' H2'. unfold area_units.
  rewrite !bool_decide_eq_false_2 by done. done.
Qed.

(** The rain barrel branch up to the choice of the units. *)
Lemma split_subcatchment_unknown_units (us : string) (lid : params.lid)
    (lid_id name : string) (s : state) (pos : nat) (old : list value) :
  params.subcatchment (params.location lid) = Some name →
  zones_named (input_template s) →
  get_subcatchment_definition (input_template s) name = inr (Some (pos, old)) →
  us ≠ "US" → us ≠ "SI" →
  split_subcatchment us lid lid_id s = (s, inl (unknown_unit_system us)).
Proof.
  intros Hloc Hnamed Hhost Hus Hsi. unfold split_subcatchment.
  apply item_inr with (key := "subcatchment") in Hloc.
  rewrite (M_bind_lift_eq _ _ _ _ Hloc), M_bind_get_template.
  rewrite (M_bind_lift_eq _ _ _ _ Hhost).
  destruct (unique_lid_sc_name_named _ name lid_id Hnamed) as [nm Hnm].
  rewrite (M_bind_lift_eq _ _ _ _ Hnm).
  destruct (get_subcatchment_definition_Some _ _ _ _ Hhost)
    as (l & _ & _ & Hn%lookup_lt_length).
  assert (Hset : setitem old sc_name_index (VStr nm)
                 = inr (<[sc_name_index := VStr nm]> old))
    by by apply setitem_inr.
  rewrite (M_bind_lift_eq _ _ _ _ Hset).
  apply M_bind_lift_inl. by apply area_units_unknown.
Qed.

Lemma split_subcatchment_below_zero (us : string) (lid : params.lid)
    (lid_id name : string) (s : state) (pos : nat) (old : list value)
    (lau sau : units.unit) (va : value) (A : Q) :
  params.subcatchment (params.location lid) = Some name →
  zones_named (input_template s) →
  get_subcatchment_definition (input_template s) name = inr (Some (pos, old)) →
  area_units us = inr (lau, sau) →
  old !! sc_area_index = Some va →
  float va = inr A →
  (A < inject_Z (params.number lid) * params.area lid * area_factor lau sau)%Q →
  ∃ new_area,
    split_subcatchment us lid lid_id s
    = (with_template s
         (write_sc pos (<[sc_area_index := VNum new_area]> old)
            (input_template s)),
       inl (below_zero_area lid_id name)).
Proof.
  intros Hloc Hnamed Hhost Hunits Hva HA Hlt. unfold split_subcatchment.
  apply item_inr with (key := "subcatchment") in Hloc.
  rewrite (M_bind_lift_eq _ _ _ _ Hloc), M_bind_get_template.
  rewrite (M_bind_lift_eq _ _ _ _ Hhost).
  destruct (unique_lid_sc_name_named _ name lid_id Hnamed) as [nm Hnm].
  rewrite (M_bind_lift_eq _ _ _ _ Hnm).
  destruct (get_subcatchment_definition_Some _ _ _ _ Hhost)
    as (l & _ & _ & Hn%lookup_lt_length).
  assert (Hset : setitem old sc_name_index (VStr nm)
                 = inr (<[sc_name_index := VStr nm]> old))
    by by apply setitem_inr.
  rewrite (M_bind_lift_eq _ _ _ _ Hset).
  rewrite (M_bind_lift_eq _ _ _ _ Hunits).
  pose proof (lookup_lt_length _ _ _ Hva) as Hla.
  apply getitem_inr in Hva.
  rewrite (M_bind_lift_eq _ _ _ _ Hva), (M_bind_lift_eq _ _ _ _ HA).
  set (x := (inject_Z (params.number lid) * params.area lid)%Q) in *.
  assert (∃ q, units.to (units.times x lau) sau = inr q
               ∧ (units.magnitude q == x * area_factor lau sau)%Q
               ∧ units.unit_of q = sau) as (lsa & Hlsa & Hmag & Hu).
  { apply area_units_inr in Hunits as [(_ & -> & ->)|(_ & -> & ->)];
      eexists; (split; [reflexivity|]); split; try done;
      unfold area_factor; simpl; field. }
  rewrite (M_bind_lift_eq _ _ _ _ Hlsa).
  assert (∃ q, units.sub (units.times A sau) lsa = inr q
               ∧ (units.magnitude q == A - units.magnitude lsa)%Q)
    as (na & Hna & Hnmag).
  { unfold units.sub, units.to. rewrite Hu. simpl. rewrite Z.eqb_refl. simpl.
    eexists. split; [reflexivity|]. simpl.
    apply area_units_inr in Hunits as [(_ & _ & ->)|(_ & _ & ->)];
      simpl; field. }
  rewrite (M_bind_lift_eq _ _ _ _ Hna).
  assert (Hset2 : ∀ (vs : list value) (v : value), length vs = length old →
            setitem vs sc_area_index v = inr (<[sc_area_index := v]> vs)).
  { intros vs v Hlen. apply setitem_inr. split; [lia | done]. }
  rewrite (M_bind_lift_eq _ _ _ _
             (Hset2 (<[sc_name_index := VStr nm]> old) _
                (length_insert old sc_name_index (VStr nm)))).
  rewrite set_base_eq by done.
  exists (units.magnitude na).
  destruct (Qlt_le_dec (units.magnitude na) 0) as [Hneg|Hnonneg]; [done|].
  exfalso. rewrite Hnmag, Hmag in Hnonneg.
  apply (Qlt_not_le _ _ Hlt). apply Qle_minus_iff. exact Hnonneg.
Qed.

(** C2: a rain barrel whose units, converted to the unit of zone areas,
    cover more than the area of the base zone is rejected with the error
    that names the LID and the zone, and no record is appended to the usage
    section (nor a child zone to the zone section). *)
Theorem oversized_rain_barrel_rejected (us : string) (lid lid1 : params.lid)
    (s s1 : state) (name : string) (pos : nat) (old : list value)
    (lau sau : units.unit) (va : value) (A : Q) :
  resolve_placements lid s = (s1, inr lid1) →
  catalog_type (input_template s) (params.type lid) (VStr "RB") →
  params.subcatchment (params.location lid1) = Some name →
  zones_named (input_template s) →
  get_subcatchment_definition (input_template s) name = inr (Some (pos, old)) →
  area_units us = inr (lau, sau) →
  old !! sc_area_index = Some va →
  float va = inr A →
  (A < inject_Z (params.number lid) * params.area lid * area_factor lau sau)%Q →
  ∃ s',
    inject_lid us lid s
    = (s', inl (below_zero_area (next_id s (params.type lid)) name))
    ∧ input_template s' !! "LID_USAGE" = input_template s !! "LID_USAGE"
    ∧ length (sc_lines (input_template s'))
      = length (sc_lines (input_template s)).
Proof.
  intros Hres Hcat Hloc Hnamed Hhost Hunits Hva HA Hlt.
  pose proof (resolve_placements_frame _ _ _ _ Hres) as (Ht & Hc & Hw).
  pose proof (resolve_placements_inr _ _ _ _ Hres) as (_ & Hn & Ha & _).
  rewrite (inject_lid_resolved us lid lid1 s s1 _ Hres Hcat). simpl.
  destruct (split_subcatchment_below_zero us lid1
              (next_id s (params.type lid)) name
              (counted s1 (params.type lid)) pos old lau sau va A)
    as [new_area Hsplit]; simpl; rewrite ?Ht, ?Hn, ?Ha; try done.
  eexists. split; [by apply M_bind_inl|]. simpl. rewrite Ht. split.
  - by apply lookup_write_sc_ne.
  - by rewrite sc_lines_write_sc, length_alter.
Qed.

(** C7, amended: the unit system is looked at only when a rain barrel is
    split.  For a rain barrel whose base zone is found, a unit system tag
    other than US and SI raises the configuration error naming the tag, and
    the model is left as it was.  For a LID that the catalog does not file as
    a rain barrel, the loop body ends in the same state and with the same
    result or error whatever the tag is. *)
Theorem unknown_unit_system_rejected :
  (∀ (us : string) (lid lid1 : params.lid) (s s1 : state) (name : string)
     (pos : nat) (old : list value),
     resolve_placements lid s = (s1, inr lid1) →
     catalog_type (input_template s) (params.type lid) (VStr "RB") →
     params.subcatchment (params.location lid1) = Some name →
     zones_named (input_template s) →
     get_subcatchment_definition (input_template s) name
     = inr (Some (pos, old)) →
     us ≠ "US" → us ≠ "SI" →
     ∃ s',
       inject_lid us lid s = (s', inl (unknown_unit_system us))
       ∧ input_template s' = input_template s)
  ∧ (∀ (us us' : string) (lid : params.lid) (s : state),
       is_rain_barrel (input_template s) lid = false →
       inject_lid us lid s = inject_lid us' lid s).
Proof.
  split.
  - intros us lid lid1 s s1 name pos old Hres Hcat Hloc Hnamed Hhost Hus Hsi.
    pose proof (resolve_placements_frame _ _ _ _ Hres) as (Ht & Hc & Hw).
    rewrite (inject_lid_resolved us lid lid1 s s1 _ Hres Hcat). simpl.
    eexists. split.
    + apply M_bind_inl.
      apply (split_subcatchment_unknown_units us lid1 _ name _ pos old);
        simpl; rewrite ?Ht; done.
    + done.
  - intros us us' lid s Hrb. unfold inject_lid, mbind, M_bind.
    destruct (resolve_placements lid s) as [s1 [e|lid1]] eqn:Hres; [done|].
    pose proof (resolve_placements_frame _ _ _ _ Hres) as (Ht & Hc & Hw).
    pose proof (resolve_placements_inr _ _ _ _ Hres) as (Hty & _).
    unfold is_rain_barrel, lid_category in Hrb. rewrite <- Ht, <- Hty in Hrb.
    unfold get_template, lift. cbv zeta.
    destruct (input_template s1 !! "LID_CONTROLS") as [ctl|]; [|done].
    destruct (lid_type_definition (lines ctl) (params.type lid1))
      as [e|[|first rest]]; [done..|].
    destruct (count_lid (params.type lid1) s1) as [s2 [e|lid_id]]; [done|].
    unfold getitem.
    destruct (values first !! lid_type_type_index) as [v|]; [|done].
    change (mret v : result value) with (inr v : result value). cbv beta iota.
    by rewrite Hrb.
Qed.

End Errors.

Section Run.
Context `{DataIndices, Shapely, Runtime}.

(** What the body of the loop has done when it returns. *)
Lemma inject_lid_inr (us : string) (lid : params.lid) (s s' : state)
    (lid_id : string) :
  inject_lid us lid s = (s', inr lid_id) →
  ∃ s1 lid1 v s3 lid2,
    resolve_placements lid s = (s1, inr lid1)
    ∧ catalog_type (input_template s) (params.type lid) v
    ∧ lid_id = next_id s (params.type lid)
    ∧ (if value_eqb v "RB"
       then split_subcatchment us lid1 lid_id
       else (_ ← warn_unsupported v; mret lid1))
        (counted s1 (params.type lid)) = (s3, inr lid2)
    ∧ add_lid_usage lid2 s3 = (s', inr ()).
Proof.
  unfold inject_lid. intros W.
  apply M_bind_inr in W as (s1 & lid1 & Hres & W).
  pose proof (resolve_placements_frame _ _ _ _ Hres) as (Ht & Hc & Hw).
  pose proof (resolve_placements_inr _ _ _ _ Hres) as (Hty & _).
  cbv zeta in W. rewrite Hty, M_bind_get_template in W.
  destruct (input_template s1 !! "LID_CONTROLS") as [ctl|] eqn:Hctl; [|done].
  apply M_bind_lift_inr in W as ([|first rest] & Hdef & W); [done|].
  apply M_bind_inr in W as (s2 & id & Hcount & W).
  unfold count_lid in Hcount. injection Hcount as <- <-.
  apply M_bind_lift_inr in W as (v & Hv%getitem_inr & W).
  apply M_bind_inr in W as (s3 & lid2 & Hadj & W).
  apply M_bind_inr in W as (s4 & [] & Hadd & W).
  injection W as <- <-.
  exists s1, lid1, v, s3, lid2.
  assert (next_id s (params.type lid) = next_id s1 (params.type lid)) as ->
    by (unfold next_id; by rewrite Hc).
  repeat split; try done.
  exists ctl, first, rest. rewrite <- Ht. done.
Qed.

Lemma add_lid_usage_inr (lid : params.lid) (s s' : state) :
  add_lid_usage lid s = (s', inr ()) →
  (∀ k, k ≠ "LID_USAGE" → input_template s' !! k = input_template s !! k)
  ∧ lid_counter s' = lid_counter s
  ∧ warnings s' = warnings s.
Proof.
  intros W. pose proof W as W'. unfold add_lid_usage in W'.
  apply M_bind_lift_inr in W' as (vs & Hvs & _).
  destruct (add_lid_usage_eq lid s vs Hvs) as (s'' & E & ? & _ & _ & _ & ? & ?).
  rewrite E in W. by injection W as <-.
Qed.

Lemma sc_lines_add_lid_usage (lid : params.lid) (s s' : state) :
  add_lid_usage lid s = (s', inr ()) →
  sc_lines (input_template s') = sc_lines (input_template s).
Proof.
  intros (Hk & _)%add_lid_usage_inr. unfold sc_lines. by rewrite Hk.
Qed.

(** Only the count of its own type moves when a LID is injected. *)
Lemma inject_lid_counter (us : string) (lid : params.lid) (s s' : state)
    (lid_id : string) :
  inject_lid us lid s = (s', inr lid_id) →
  lid_id = next_id s (params.type lid)
  ∧ lid_counter s'
    = <[params.type lid := S (default 0 (lid_counter s !! params.type lid))]>
        (lid_counter s).
Proof.
  intros (s1 & lid1 & v & s3 & lid2 & Hres & _ & -> & Hadj & Hadd)%inject_lid_inr.
  split; [done|].
  pose proof (resolve_placements_frame _ _ _ _ Hres) as (_ & Hc & _).
  apply add_lid_usage_inr in Hadd as (_ & -> & _).
  destruct (value_eqb v "RB").
  - destruct (split_subcatchment_inr _ _ _ _ _ _ Hadj).
    subst s3. simpl. by rewrite Hc.
  - unfold mbind, M_bind, warn_unsupported, mret, M_ret in Hadj.
    injection Hadj as <- _. simpl. by rewrite Hc.
Qed.

Lemma occurrences_cons (lid_type : string) (lid : params.lid)
    (lids : list params.lid) :
  occurrences lid_type (lid :: lids)
  = (if decide (params.type lid = lid_type) then 1 else 0)
    + occurrences lid_type lids.
Proof.
  unfold occurrences. rewrite filter_cons.
  destruct (decide (params.type lid = lid_type)); done.
Qed.

(** The ids handed out by the loop, from any state of the counter. *)
Lemma inject_lids_ids (us : string) (lids : list params.lid) (s s' : state)
    (lid_ids : list string) :
  inject_lids us lids s = (s', inr lid_ids) →
  length lid_ids = length lids
  ∧ ∀ i lid, lids !! i = Some lid →
      lid_ids !! i
      = Some (params.type lid +:+ "_"
              +:+ pretty (default 0 (lid_counter s !! params.type lid)
                          + occurrences (params.type lid) (take (S i) lids))).
Proof.
  revert s lid_ids. induction lids as [|lid0 lids IH]; intros s lid_ids W.
  - injection W as <- <-. split; [done|]. intros i lid Hi. done.
  - simpl in W.
    apply M_bind_inr in W as (s1 & id0 & Hid & W).
    apply M_bind_inr in W as (s2 & ids & Hids & W).
    injection W as <- <-.
    apply inject_lid_counter in Hid as [-> Hc].
    destruct (IH _ _ Hids) as [Hlen Hnth].
    split; [simpl; by rewrite Hlen|].
    intros [|i] lid Hi; simpl in Hi.
    + injection Hi as <-. simpl. unfold next_id. rewrite occurrences_cons.
      rewrite decide_True by done.
      change (occurrences (params.type lid0) []) with 0.
      by rewrite Nat.add_0_r, Nat.add_1_r.
    + simpl. rewrite (Hnth i lid Hi). rewrite Hc.
      rewrite occurrences_cons.
      destruct (decide (params.type lid0 = params.type lid)) as [E|E].
      * rewrite E, lookup_insert_eq. cbn [default from_option].
        unfold id. by rewrite Nat.add_succ_l, <- Nat.add_succ_r.
      * by rewrite lookup_insert_ne.
Qed.

Lemma occurrences_take_lt (lids : list params.lid) (i j : nat)
    (lj : params.lid) :
  i < j → lids !! j = Some lj →
  occurrences (params.type lj) (take (S i) lids)
  < occurrences (params.type lj) (take (S j) lids).
Proof.
  intros Hij Hj.
  rewrite (take_S_r lids j lj Hj).
  unfold occurrences. rewrite filter_app, length_app, filter_cons.
  rewrite decide_True by done. simpl.
  assert (Hsplit : take j lids = take (S i) lids ++ drop (S i) (take j lids)).
  { rewrite <- (take_drop (S i) (take j lids)) at 1. rewrite take_take.
    by replace (S i `min` j) with (S i) by lia. }
  rewrite Hsplit at 1. rewrite filter_app, length_app. lia.
Qed.

End Run.

Section Identifiers.
Context `{DataIndices, Shapely, Runtime}.

Lemma inject_parameters_into_input_inr (input_parameters : params.input_parameters)
    (input_template : swmm_input) (s' : state) (lid_ids : list string) :
  inject_parameters_into_input input_parameters input_template
  = (s', inr lid_ids) →
  ∃ us,
    get_unit_system input_template = inr us
    ∧ validate_against_json_schema input_parameters = inr ()
    ∧ inject_lids us (default [] (params.lids input_parameters))
        (State input_template None ∅ []) = (s', inr lid_ids).
Proof.
  unfold inject_parameters_into_input.
  destruct (validate_against_json_schema input_parameters) as [e|[]]; [done|].
  destruct (get_unit_system input_template) as [e|us]; [done|].
  intros W. by exists us.
Qed.

Lemma id_inj (lid_type : string) (n m : nat) :
  lid_type +:+ "_" +:+ pretty n = lid_type +:+ "_" +:+ pretty m → n = m.
Proof.
  intros E. do 2 apply (inj (String.append _)) in E.
  by apply (inj pretty) in E.
Qed.

(** C5: the i-th LID of a type, in the order of the document, gets the id
    made of the type and of i (counting from 1), so that two LIDs of one type
    get different ids.  The name of the child zone of a rain barrel is looked
    for among the candidates base##id, base##id###1, base##id###2, ...: in a
    model whose zone lines all have a name, the search returns the first
    candidate that is the name of no zone of the model, every candidate
    before it being the name of one; a split that completes has chosen its
    name this way, has moved the LID to it, and the zone line it appends
    carries it. *)
Theorem ids_and_child_names_are_fresh :
  (∀ (input_parameters : params.input_parameters) (input_template : swmm_input)
     (s' : state) (lid_ids : list string),
     inject_parameters_into_input input_parameters input_template
     = (s', inr lid_ids) →
     let lids := default [] (params.lids input_parameters) in
     length lid_ids = length lids
     ∧ (∀ i lid, lids !! i = Some lid →
          lid_ids !! i
          = Some (params.type lid +:+ "_"
                  +:+ pretty (occurrences (params.type lid) (take (S i) lids))))
     ∧ (∀ i j li lj,
          i ≠ j → lids !! i = Some li → lids !! j = Some lj →
          params.type li = params.type lj →
          lid_ids !! i ≠ lid_ids !! j))
  ∧ let candidate (base lid_id : string) (k : nat) : string :=
      match k with
      | 0 => base +:+ "##" +:+ lid_id
      | S _ => base +:+ "##" +:+ lid_id +:+ "###" +:+ pretty k
      end in
    (∀ (input_template : swmm_input) (base lid_id : string),
       zones_named input_template →
       ∃ k,
         k ≤ length (sc_lines input_template)
         ∧ unique_lid_sc_name input_template base lid_id
           = inr (candidate base lid_id k)
         ∧ (∀ j, j < k → zone_present input_template (candidate base lid_id j))
         ∧ ¬ zone_present input_template (candidate base lid_id k))
    ∧ (∀ (us : string) (lid : params.lid) (lid_id : string) (s s' : state)
         (lid' : params.lid),
         split_subcatchment us lid lid_id s = (s', inr lid') →
         ∃ base k,
           params.subcatchment (params.location lid) = Some base
           ∧ unique_lid_sc_name (input_template s) base lid_id
             = inr (candidate base lid_id k)
           ∧ params.subcatchment (params.location lid')
             = Some (candidate base lid_id k)
           ∧ (∀ j, j < k →
                zone_present (input_template s) (candidate base lid_id j))
           ∧ ¬ zone_present (input_template s) (candidate base lid_id k)
           ∧ (sc_name_index ≠ sc_area_index →
              sc_name_index ≠ sc_imperv_index →
              ∃ child,
                last (sc_lines (input_template s')) = Some child
                ∧ values child !! sc_name_index
                  = Some (VStr (candidate base lid_id k)))).
Proof.
  split; [|intros candidate; split].
  - intros input_parameters input_template s' lid_ids
      (us & _ & _ & W)%inject_parameters_into_input_inr lids.
    fold lids in W. destruct (inject_lids_ids _ _ _ _ _ W) as [Hlen Hnth].
    assert (Hids : ∀ i lid, lids !! i = Some lid →
              lid_ids !! i
              = Some (params.type lid +:+ "_"
                      +:+ pretty (occurrences (params.type lid)
                                    (take (S i) lids)))).
    { intros i lid Hi. rewrite (Hnth i lid Hi). simpl.
      by rewrite lookup_empty. }
    split; [done|]. split; [done|].
    assert (Hlt : ∀ i j li lj, i < j → lids !! i = Some li →
              lids !! j = Some lj → params.type li = params.type lj →
              lid_ids !! i ≠ lid_ids !! j).
    { intros i j li lj Hij Hi Hj Hty.
      rewrite (Hids i li Hi), (Hids j lj Hj), Hty. intros [= E%id_inj].
      pose proof (occurrences_take_lt lids i j lj Hij Hj). lia. }
    intros i j li lj Hne Hi Hj Hty.
    destruct (decide (i < j)) as [Hij|Hij]; [by eapply Hlt|].
    intros E. symmetry in E. revert E. eapply Hlt; [|done..]. lia.
  - intros input_template base lid_id Hnamed.
    change candidate with child_name.
    destruct (unique_lid_sc_name_named _ base lid_id Hnamed) as [name Hname].
    destruct (unique_lid_sc_name_inr _ _ _ _ Hname)
      as (k & -> & Hbefore & Hnone).
    exists k. split; [|split; [done|split; [done|]]].
    + destruct (decide (k ≤ length (sc_lines input_template))) as [|Hgt];
        [done|].
      destruct (child_names_not_all_present input_template base lid_id).
      intros j Hj. apply Hbefore. lia.
    + by apply get_subcatchment_definition_None.
  - intros us lid lid_id s s' lid' W. change candidate with child_name.
    destruct (split_subcatchment_inr _ _ _ _ _ _ W).
    destruct (unique_lid_sc_name_inr _ _ _ _ Hname) as (k & Ek & Hbefore & Hnone).
    subst lid_sc_name.
    exists name, k. split; [done|]. split; [done|]. split; [by subst lid'|].
    split; [done|]. split; [by apply get_subcatchment_definition_None|].
    intros Hdiff1 Hdiff2. eexists. subst s'. simpl.
    erewrite sc_lines_split_template by done.
    rewrite last_snoc. split; [done|]. simpl. unfold child_of.
    rewrite !list_lookup_insert_ne by done.
    apply list_lookup_insert_eq.
    destruct (get_subcatchment_definition_Some _ _ _ _ Hhost)
      as (l & _ & _ & Hn). by eapply lookup_lt_length.
Qed.

End Identifiers.

Section Invariant.
Context `{DataIndices, Shapely, Runtime}.

Lemma new_percent_le_100 (p A L A' p' : Q) :
  (0 <= L → p <= 100 → 0 <= A' → ¬ A' == 0 → A' == A - L →
   p' == (p * A - 100 * L) / A' → p' <= 100)%Q.
Proof.
  intros HL Hp HA' Hnz HA Hp'. rewrite Hp'.
  assert (0 < A')%Q as Hpos.
  { apply Qlt_leneq. split; [exact HA'|]. intros E. apply Hnz.
    exact (Qeq_sym _ _ E). }
  apply Qle_shift_div_r; [done|].
  assert (p * A <= 100 * A)%Q.
  { apply Qmult_le_compat_r; [done|]. lra. }
  lra.
Qed.

Lemma field_nonneg_VNum (vs : list value) (i : nat) (q : Q) :
  vs !! i = Some (VNum q) → (0 <= q)%Q → field_nonneg vs i.
Proof.
  intros E Hq v q' Hv Hf. rewrite E in Hv. injection Hv as <-.
  cbv in Hf. by injection Hf as <-.
Qed.

(** A split keeps the invariant. *)
Lemma split_keeps_zones_ok (n0 : nat) (us : string) (lid : params.lid)
    (lid_id : string) (s s' : state) (lid' : params.lid) :
  sc_area_index ≠ sc_imperv_index →
  lid_area_nonneg lid →
  zones_ok n0 (input_template s) →
  split_subcatchment us lid lid_id s = (s', inr lid') →
  zones_ok n0 (input_template s').
Proof.
  intros Hne Harea (Hn0 & Hall & Hnew) W.
  destruct (split_subcatchment_inr _ _ _ _ _ _ W).
  destruct (split_magnitudes _ _ _ _ _ _ _ _ _ _ _ Hunits Hlsa Hnew0 Hnia Hni Hnp)
    as (HL & HA' & Hnz & Hp').
  destruct (get_subcatchment_definition_Some _ _ _ _ Hhost)
    as (l0 & Hl0 & Hvl0 & _).
  pose proof (lookup_lt_length _ _ _ Hva) as Hla.
  rewrite list_lookup_insert_ne in Hvp by done.
  pose proof (lookup_lt_length _ _ _ Hvp) as Hlp.
  assert (0 <= units.magnitude lid_sc_area)%Q as HLpos.
  { rewrite HL. apply Qmult_le_0_compat; [exact Harea|].
    apply Qlt_le_weak. by eapply area_factor_pos. }
  assert (Hbase_a : base_after old (units.magnitude new_area)
                      (units.magnitude new_percent) !! sc_area_index
                    = Some (VNum (units.magnitude new_area))).
  { unfold base_after. rewrite list_lookup_insert_ne by done.
    by rewrite list_lookup_insert_eq. }
  assert (Hbase_p : base_after old (units.magnitude new_area)
                      (units.magnitude new_percent) !! sc_imperv_index
                    = Some (VNum (units.magnitude new_percent))).
  { unfold base_after. rewrite list_lookup_insert_eq; [done|].
    by rewrite length_insert. }
  assert (Hchild_a : child_of old lid_sc_name (units.magnitude lid_sc_area)
                       !! sc_area_index
                     = Some (VNum (units.magnitude lid_sc_area))).
  { unfold child_of. rewrite list_lookup_insert_ne by done.
    rewrite list_lookup_insert_eq; [done|]. by rewrite length_insert. }
  assert (Hchild_p : child_of old lid_sc_name (units.magnitude lid_sc_area)
                       !! sc_imperv_index = Some (VNum 0)).
  { unfold child_of. rewrite list_lookup_insert_eq; [done|].
    by rewrite !length_insert. }
  subst s'. simpl. unfold zones_ok.
  erewrite sc_lines_split_template by done.
  split; [|split].
  - rewrite length_app, length_alter. lia.
  - apply Forall_app. split.
    + apply Forall_alter; [done|]. intros x _ _. split; simpl.
      * by eapply field_nonneg_VNum.
      * by eapply field_nonneg_VNum.
    + apply Forall_singleton. split; simpl.
      * by eapply field_nonneg_VNum.
      * by eapply field_nonneg_VNum.
  - intros i l Hi Hl.
    apply lookup_app_Some in Hl as [Hl|[Hlen Hl]].
    + destruct (decide (i = pos)) as [->|Hip].
      * rewrite list_lookup_alter_eq, Hl0 in Hl. injection Hl as <-.
        destruct (Hnew pos l0 Hi Hl0) as (a & p0 & Ea & Ep & Ha & Hp0 & Hp100).
        rewrite Hvl0 in Ea, Ep. rewrite Ea in Hva. rewrite Ep in Hvp.
        injection Hva as <-. injection Hvp as <-.
        injection HA as <-. injection Hp as <-.
        exists (units.magnitude new_area), (units.magnitude new_percent).
        simpl. split; [exact Hbase_a|]. split; [exact Hbase_p|].
        split; [exact Hnonneg|]. split; [exact Hpnonneg|].
        exact (new_percent_le_100 p0 a _ _ _ HLpos Hp100 Hnonneg Hnz HA' Hp').
      * rewrite list_lookup_alter_ne in Hl by done. by eapply Hnew.
    + rewrite length_alter in Hl.
      destruct (i - length (sc_lines (input_template s))) as [|k]; [|done].
      injection Hl as <-.
      exists (units.magnitude lid_sc_area), 0%Q. simpl.
      repeat split; done.
Qed.

(** The body of the loop keeps the invariant. *)
Lemma inject_lid_keeps_zones_ok (n0 : nat) (us : string) (lid : params.lid)
    (s s' : state) (lid_id : string) :
  sc_area_index ≠ sc_imperv_index →
  lid_area_nonneg lid →
  zones_ok n0 (input_template s) →
  inject_lid us lid s = (s', inr lid_id) →
  zones_ok n0 (input_template s').
Proof.
  intros Hne Hlid Hok
    (s1 & lid1 & v & s3 & lid2 & Hres & _ & _ & Hadj & Hadd)%inject_lid_inr.
  pose proof (resolve_placements_frame _ _ _ _ Hres) as (Ht & _ & _).
  pose proof (resolve_placements_inr _ _ _ _ Hres) as (_ & Hn & Ha & _).
  unfold zones_ok. rewrite (sc_lines_add_lid_usage _ _ _ Hadd).
  destruct (value_eqb v "RB").
  - apply (split_keeps_zones_ok n0 us lid1 lid_id
             (counted s1 (params.type lid)) s3 lid2); try done.
    + unfold lid_area_nonneg. by rewrite Hn, Ha.
    + simpl. by rewrite Ht.
  - unfold mbind, M_bind, warn_unsupported, mret, M_ret in Hadj.
    injection Hadj as <- _. simpl. by rewrite Ht.
Qed.

Lemma inject_lids_keep_zones_ok (n0 : nat) (us : string)
    (lids : list params.lid) (s s' : state) (lid_ids : list string) :
  sc_area_index ≠ sc_imperv_index →
  Forall lid_area_nonneg lids →
  zones_ok n0 (input_template s) →
  inject_lids us lids s = (s', inr lid_ids) →
  zones_ok n0 (input_template s').
Proof.
  intros Hne Hlids. revert s lid_ids.
  induction Hlids as [|lid lids Hlid Hlids IH]; intros s lid_ids Hok W.
  - by injection W as <- _.
  - simpl in W.
    apply M_bind_inr in W as (s1 & id0 & Hid & W).
    apply M_bind_inr in W as (s2 & ids & Hids & W).
    injection W as <- _.
    eapply IH; [|done]. by eapply inject_lid_keeps_zones_ok.
Qed.

(** C3, amended: for a document in which the units of every LID take
    together an area that is not negative (the unit count times the area of
    a unit), when the injection completes, no zone line holds a negative
    area or a negative impervious percentage, provided none did before, and
    every zone line the injection has made holds a non-negative area and an
    impervious percentage between 0 and 100. *)
Theorem injection_keeps_zones_nonneg (input_parameters : params.input_parameters)
    (template : swmm_input) (s' : state) (lid_ids : list string) :
  sc_area_index ≠ sc_imperv_index →
  Forall lid_area_nonneg (default [] (params.lids input_parameters)) →
  Forall zone_nonneg (sc_lines template) →
  inject_parameters_into_input input_parameters template
  = (s', inr lid_ids) →
  Forall zone_nonneg (sc_lines (input_template s'))
  ∧ length (sc_lines template)
    ≤ length (sc_lines (input_template s'))
  ∧ ∀ i l,
      length (sc_lines template) ≤ i →
      sc_lines (input_template s') !! i = Some l →
      zone_created_ok l.
Proof.
  intros Hne Hlids Hzones (us & _ & _ & W)%inject_parameters_into_input_inr.
  apply (inject_lids_keep_zones_ok (length (sc_lines template))
           us _ _ _ _ Hne Hlids) in W as (Hlen & Hall & Hnew); [done|].
  unfold zones_ok. simpl. split; [done|]. split; [done|].
  intros i l Hi Hl. apply lookup_lt_length in Hl. lia.
Qed.

End Invariant.

Section Forward.
Context `{DataIndices, Shapely, Runtime}.

(** The converse of [split_subcatchment_inr]: what has to hold for the rain
    barrel branch to return. *)
Lemma split_subcatchment_returns (us : string) (lid : params.lid)
    (lid_id : string) (s s' : state) (lid' : params.lid) :
  split_trace us lid lid_id s s' lid' →
  split_subcatchment us lid lid_id s = (s', inr lid').
Proof.
  intros []. unfold split_subcatchment.
  apply item_inr with (key := "subcatchment") in Hloc.
  rewrite (M_bind_lift_eq _ _ _ _ Hloc), M_bind_get_template.
  rewrite (M_bind_lift_eq _ _ _ _ Hhost), (M_bind_lift_eq _ _ _ _ Hname).
  destruct (get_subcatchment_definition_Some _ _ _ _ Hhost)
    as (l & _ & _ & Hn%lookup_lt_length).
  pose proof (lookup_lt_length _ _ _ Hva) as Hla.
  pose proof (lookup_lt_length _ _ _ Hvp) as Hlp.
  rewrite length_insert in Hlp.
  assert (Hset : ∀ (vs : list value) (i : nat) (v : value),
            i < length vs → setitem vs i v = inr (<[i := v]> vs)).
  { intros vs i v Hi. by apply setitem_inr. }
  rewrite (M_bind_lift_eq _ _ _ _ (Hset old sc_name_index _ Hn)).
  rewrite (M_bind_lift_eq _ _ _ _ Hunits).
  apply getitem_inr in Hva.
  rewrite (M_bind_lift_eq _ _ _ _ Hva), (M_bind_lift_eq _ _ _ _ HA).
  rewrite (M_bind_lift_eq _ _ _ _ Hlsa), (M_bind_lift_eq _ _ _ _ Hnew).
  assert (Hl1 : sc_area_index
                < length (<[sc_name_index := VStr lid_sc_name]> old))
    by by rewrite length_insert.
  rewrite (M_bind_lift_eq _ _ _ _ (Hset _ sc_area_index _ Hl1)).
  rewrite set_base_eq by done.
  destruct (Qlt_le_dec (units.magnitude new_area) 0) as [Hneg|_].
  { by apply Qlt_not_le in Hneg. }
  apply getitem_inr in Hvp.
  rewrite (M_bind_lift_eq _ _ _ _ Hvp), (M_bind_lift_eq _ _ _ _ Hp).
  rewrite (M_bind_lift_eq _ _ _ _ Hnia), (M_bind_lift_eq _ _ _ _ Hni).
  assert (Hl2 : sc_imperv_index
                < length (<[sc_area_index := VNum (units.magnitude lid_sc_area)]>
                            (<[sc_name_index := VStr lid_sc_name]> old)))
    by by rewrite !length_insert.
  rewrite (M_bind_lift_eq _ _ _ _ (Hset _ sc_imperv_index _ Hl2)).
  rewrite (M_bind_lift_eq _ _ _ _ Hnp).
  rewrite set_base_eq by by rewrite length_insert.
  destruct (Qlt_le_dec (units.magnitude new_percent) 0) as [Hneg|_].
  { by apply Qlt_not_le in Hneg. }
  rewrite M_bind_modify_inr. subst. reflexivity.
Qed.

End Forward.

Section Scenario.
Context `{Shapely, Runtime}.

(** C8: in an SI model with the zone S1 of area 2.0 ha and 80 percent
    impervious, one rain barrel of 50 square metres located in S1 gives the
    new zone S1##RB_1 of area 0.005 ha and 0 percent impervious, and leaves S1
    with the area 1.995 ha and an impervious percentage below 80 (it is
    31900/399, about 79.95); no area is negative.  The columns are those of
    SWMM 5, and the numerals 2.0 and 80 read as the numbers 2 and 80. *)
Theorem scenario_one_rain_barrel :
  get_unit_system example_template = inr "SI" →
  validate_against_json_schema (one_lid rain_barrel) = inr () →
  float_of_string "2.0" = Some 2%Q →
  float_of_string "80" = Some 80%Q →
  ∃ s' host_area host_imperv child_area,
    @inject_parameters_into_input swmm5_indices _ _
      (one_lid rain_barrel) example_template = (s', inr ["RB_1"])
    ∧ sc_lines (input_template s')
      = [Line [VStr "S1"; VStr "RG1"; VStr "J1"; VNum host_area;
               VNum host_imperv; VStr "100"; VStr "0.5"; VStr "0"] None;
         Line [VStr "S1##RB_1"; VStr "RG1"; VStr "J1"; VNum child_area;
               VNum 0; VStr "100"; VStr "0.5"; VStr "0"]
              (Some "1 LID units. (Added by OSTRICH-SWMM.)")]
    ∧ (child_area == 0.005 ∧ host_area == 1.995
       ∧ host_imperv == 31900 # 399
       ∧ 0 <= host_imperv ∧ host_imperv < 80)%Q.
Proof.
  intros Hu Hv H2 H80.
  unfold inject_parameters_into_input. rewrite Hv, Hu.
  change (default [] (params.lids (one_lid rain_barrel))) with [rain_barrel].
  set (start := State example_template None ∅ []).
  assert (Hres : @resolve_placements swmm5_indices _ _ rain_barrel start
                 = (start, inr rain_barrel)) by reflexivity.
  assert (Hcat : @catalog_type swmm5_indices (input_template start) "RB" (VStr "RB")).
  { eexists _, _, _. split; [vm_compute; reflexivity|].
    split; vm_compute; reflexivity. }
  eassert (Hsplit : @split_subcatchment swmm5_indices _ _ "SI" rain_barrel
                      (next_id start "RB") (counted start "RB") = (_, inr _)).
  { apply split_subcatchment_returns.
    eapply SplitTrace with (name := "S1") (pos := 0%nat) (A := 2%Q) (p := 80%Q).
    - reflexivity.
    - vm_compute. reflexivity.
    - vm_compute. reflexivity.
    - reflexivity.
    - vm_compute. reflexivity.
    - unfold float. rewrite H2. reflexivity.
    - vm_compute. reflexivity.
    - vm_compute. reflexivity.
    - vm_compute. discriminate.
    - vm_compute. reflexivity.
    - unfold float. rewrite H80. reflexivity.
    - vm_compute. reflexivity.
    - vm_compute. reflexivity.
    - vm_compute. reflexivity.
    - vm_compute. discriminate.
    - reflexivity.
    - reflexivity. }
  assert (Hid : next_id start "RB" = "RB_1") by (vm_compute; reflexivity).
  rewrite Hid in Hsplit.
  match type of Hsplit with _ = (?st, _) => set (s3 := st) in * end.
  destruct (lid_values_inr (set_location_subcatchment rain_barrel "S1##RB_1")
              "S1##RB_1" eq_refl) as [vs Hvs].
  destruct (add_lid_usage_eq _ s3 vs Hvs) as (s' & Hadd & Hother & _).
  assert (Hinj : @inject_lid swmm5_indices _ _ "SI" rain_barrel start
                 = (s', inr "RB_1")).
  { rewrite (inject_lid_resolved "SI" rain_barrel rain_barrel start start
               (VStr "RB") Hres Hcat).
    change (params.type rain_barrel) with "RB".
    change (value_eqb (VStr "RB") "RB") with true. cbv iota. rewrite Hid.
    rewrite (M_bind_eq _ _ _ _ _ Hsplit), (M_bind_eq _ _ _ _ _ Hadd).
    reflexivity. }
  exists s'. do 3 eexists. split; [|split].
  - cbn [inject_lids]. rewrite (M_bind_eq _ _ _ _ _ Hinj). reflexivity.
  - unfold sc_lines. rewrite Hother by done.
    match goal with
    | |- ?l = _ => let l' := eval vm_compute in l in change l with l'
    end.
    reflexivity.
  - repeat split; vm_compute; done.
Qed.

End Scenario.

Section Frame.
Context `{DataIndices, Shapely, Runtime}.

Lemma framed_refl (s : state) : framed s s.
Proof. split; [by intros k _ _ | done]. Qed.

Lemma framed_trans (s1 s2 s3 : state) :
  framed s1 s2 → framed s2 s3 → framed s1 s3.
Proof.
  intros [E1 P1] [E2 P2]. split; [|tauto].
  intros k Hk1 Hk2. by rewrite E2, E1.
Qed.

Lemma keeps_bind {A B : Type} (m : M A) (f : A → M B) :
  keeps framed m → (∀ a, keeps framed (f a)) → keeps framed (m ≫= f).
Proof.
  intros Hm Hf s s' r. unfold mbind, M_bind.
  destruct (m s) as [s1 [e|a]] eqn:E.
  - intros [= <- <-]. by eapply Hm.
  - intros W. eapply framed_trans; [by eapply Hm | by eapply Hf].
Qed.

Lemma keeps_lift {A : Type} (r : result A) : keeps framed (lift r).
Proof. intros s s' r' [= <- _]. apply framed_refl. Qed.

Lemma keeps_throw {A : Type} (e : exn) : keeps framed (@throw _ A e).
Proof. apply keeps_lift. Qed.

Lemma keeps_ret {A : Type} (a : A) : keeps framed (mret a).
Proof. intros s s' r' [= <- _]. apply framed_refl. Qed.

Lemma keeps_get_template : keeps framed get_template.
Proof. intros s s' r' [= <- _]. apply framed_refl. Qed.

(** The polygons are read off the polygon section only. *)
Lemma extract_subcatchment_polygons_ext (t t' : swmm_input) :
  t' !! "POLYGONS" = t !! "POLYGONS" →
  extract_subcatchment_polygons t' = extract_subcatchment_polygons t.
Proof. intros E. unfold extract_subcatchment_polygons. by rewrite E. Qed.

Lemma keeps_modify_template (f : swmm_input → swmm_input) :
  (∀ t, same_elsewhere t (f t)) → keeps framed (modify_template f).
Proof.
  intros Hf s s' r [= <- _]. split; [apply Hf|]. simpl.
  intros Hp ps Hps. simpl in *.
  rewrite (extract_subcatchment_polygons_ext (input_template s)); [by apply Hp|].
  by apply Hf.
Qed.

Lemma same_elsewhere_write_sc (pos : nat) (vs : list value) (t : swmm_input) :
  same_elsewhere t (write_sc pos vs t).
Proof. intros k Hk _. by apply lookup_write_sc_ne. Qed.

Lemma same_elsewhere_append_line (name : string) (l : line) (t : swmm_input) :
  name = "SUBCATCHMENTS" ∨ name = "LID_USAGE" →
  same_elsewhere t (append_line name l t).
Proof.
  intros Hn k Hk1 Hk2. apply lookup_append_line_ne.
  destruct Hn; congruence.
Qed.

Lemma keeps_set_base (pos : nat) (l : list value) (i : nat) (v : value) :
  keeps framed (set_base pos l i v).
Proof.
  unfold set_base. apply keeps_bind; [apply keeps_lift|]. intros vs.
  apply keeps_bind; [|intros; apply keeps_ret].
  apply keeps_modify_template. apply same_elsewhere_write_sc.
Qed.

Lemma keeps_subcatchment_polygons : keeps framed subcatchment_polygons.
Proof.
  intros s s' r. unfold subcatchment_polygons.
  destruct (sc_polygons s) as [ps|] eqn:Eps.
  - intros [= <- _]. apply framed_refl.
  - destruct (extract_subcatchment_polygons (input_template s)) as [e|ps] eqn:E.
    + intros [= <- _]. apply framed_refl.
    + intros [= <- _]. split; [by intros k _ _|].
      intros _ ps' [= <-]. done.
Qed.

Lemma keeps_resolve_placements (lid : params.lid) :
  keeps framed (resolve_placements lid).
Proof.
  unfold resolve_placements. apply keeps_bind.
  - unfold resolve_location. destruct (params.map (params.location lid)).
    + apply keeps_bind; [apply keeps_subcatchment_polygons|]. intros ps.
      apply keeps_bind; [apply keeps_lift|]. intros; apply keeps_ret.
    + apply keeps_ret.
  - intros lid1. unfold resolve_drainTo.
    destruct (params.drainTo lid1) as [d|]; [|apply keeps_ret].
    destruct (params.drain_map d); [|apply keeps_ret].
    apply keeps_bind; [apply keeps_subcatchment_polygons|]. intros ps.
    apply keeps_bind; [apply keeps_lift|]. intros; apply keeps_ret.
Qed.

Lemma keeps_split_subcatchment (us : string) (lid : params.lid)
    (lid_id : string) :
  keeps framed (split_subcatchment us lid lid_id).
Proof.
  unfold split_subcatchment.
  apply keeps_bind; [apply keeps_lift|]. intros name.
  apply keeps_bind; [apply keeps_get_template|]. intros t.
  apply keeps_bind; [apply keeps_lift|]. intros [[pos old]|];
    [|apply keeps_throw].
  apply keeps_bind; [apply keeps_lift|]. intros lid_sc_name.
  apply keeps_bind; [apply keeps_lift|]. intros lid_sc.
  apply keeps_bind; [apply keeps_lift|]. intros [lau sau].
  apply keeps_bind; [apply keeps_lift|]. intros va.
  apply keeps_bind; [apply keeps_lift|]. intros A.
  apply keeps_bind; [apply keeps_lift|]. intros lsa.
  apply keeps_bind; [apply keeps_lift|]. intros na.
  apply keeps_bind; [apply keeps_lift|]. intros lid_sc1.
  apply keeps_bind; [apply keeps_set_base|]. intros base1.
  destruct (Qlt_le_dec (units.magnitude na) 0); [apply keeps_throw|].
  apply keeps_bind; [apply keeps_lift|]. intros vp.
  apply keeps_bind; [apply keeps_lift|]. intros p.
  apply keeps_bind; [apply keeps_lift|]. intros nia.
  apply keeps_bind; [apply keeps_lift|]. intros ni.
  apply keeps_bind; [apply keeps_lift|]. intros lid_sc2.
  apply keeps_bind; [apply keeps_lift|]. intros np.
  apply keeps_bind; [apply keeps_set_base|]. intros base2.
  destruct (Qlt_le_dec (units.magnitude np) 0); [apply keeps_throw|].
  apply keeps_bind; [|intros; apply keeps_ret].
  apply keeps_modify_template. intros t'.
  apply same_elsewhere_append_line. by left.
Qed.

Lemma keeps_add_lid_usage (lid : params.lid) : keeps framed (add_lid_usage lid).
Proof.
  unfold add_lid_usage. apply keeps_bind; [apply keeps_lift|]. intros vs.
  apply keeps_modify_template. intros t k Hk1 Hk2.
  rewrite lookup_append_line_ne by done.
  destruct (t !! "LID_USAGE"); [done|]. by rewrite lookup_insert_ne.
Qed.

Lemma keeps_inject_lid (us : string) (lid : params.lid) :
  keeps framed (inject_lid us lid).
Proof.
  unfold inject_lid.
  apply keeps_bind; [apply keeps_resolve_placements|]. intros lid1.
  cbv zeta. apply keeps_bind; [apply keeps_get_template|]. intros t.
  destruct (t !! "LID_CONTROLS") as [ctl|]; [|apply keeps_throw].
  apply keeps_bind; [apply keeps_lift|]. intros [|first rest];
    [apply keeps_throw|].
  apply keeps_bind.
  { intros s s' r [= <- _]. split; [by intros k _ _ | done]. }
  intros lid_id.
  apply keeps_bind; [apply keeps_lift|]. intros v.
  apply keeps_bind.
  { destruct (value_eqb v "RB"); [apply keeps_split_subcatchment|].
    apply keeps_bind; [|intros; apply keeps_ret].
    intros s s' r [= <- _]. split; [by intros k _ _ | done]. }
  intros lid2.
  apply keeps_bind; [apply keeps_add_lid_usage|]. intros; apply keeps_ret.
Qed.

Lemma keeps_inject_lids (us : string) (lids : list params.lid) :
  keeps framed (inject_lids us lids).
Proof.
  induction lids as [|lid lids IH]; simpl; [apply keeps_ret|].
  apply keeps_bind; [apply keeps_inject_lid|]. intros lid_id.
  apply keeps_bind; [apply IH|]. intros; apply keeps_ret.
Qed.

(** X1: whatever a run of the injection returns or raises, it leaves every
    section of the model other than the zone section and the usage section
    as it was. *)
Theorem injection_writes_two_sections
    (input_parameters : params.input_parameters) (template : swmm_input)
    (s' : state) (r : result (list string)) (k : string) :
  inject_parameters_into_input input_parameters template = (s', r) →
  k ≠ "SUBCATCHMENTS" → k ≠ "LID_USAGE" →
  input_template s' !! k = template !! k.
Proof.
  unfold inject_parameters_into_input.
  destruct (validate_against_json_schema input_parameters);
    [by intros [= <- _]|].
  destruct (get_unit_system template); [by intros [= <- _]|].
  intros W%keeps_inject_lids. destruct W as [W _]. apply W.
Qed.

End Frame.

Section Records.
Context `{DataIndices, Shapely, Runtime}.

Lemma catalog_type_category (t : swmm_input) (lid_type : string) (v : value) :
  catalog_type t lid_type v ↔ lid_category t lid_type = Some v.
Proof.
  unfold catalog_type, lid_category. split.
  - intros (ctl & first & rest & -> & -> & Hv). done.
  - destruct (t !! "LID_CONTROLS") as [ctl|]; [|done].
    destruct (lid_type_definition (lines ctl) lid_type) as [e|[|first rest]] eqn:E;
      try done.
    intros Hv. by exists ctl, first, rest.
Qed.

Lemma lid_category_ext (t t' : swmm_input) (lid_type : string) :
  t' !! "LID_CONTROLS" = t !! "LID_CONTROLS" →
  lid_category t' lid_type = lid_category t lid_type.
Proof. intros E. unfold lid_category. by rewrite E. Qed.

(** What a completed pass of the loop body has done to the zone lines, the
    usage lines and the warnings. *)
Lemma inject_lid_effect (us : string) (lid : params.lid) (s s' : state)
    (lid_id : string) :
  inject_lid us lid s = (s', inr lid_id) →
  ∃ lid2 vs,
    lid_values lid2 = inr vs
    ∧ params.type lid2 = params.type lid
    ∧ params.number lid2 = params.number lid
    ∧ params.area lid2 = params.area lid
    ∧ usage_lines (input_template s')
      = usage_lines (input_template s) ++ [Line vs None]
    ∧ length (sc_lines (input_template s'))
      = length (sc_lines (input_template s))
        + (if is_rain_barrel (input_template s) lid then 1 else 0)
    ∧ length (warnings s')
      = length (warnings s)
        + (if is_rain_barrel (input_template s) lid then 0 else 1).
Proof.
  intros (s1 & lid1 & v & s3 & lid2 & Hres & Hcat & _ & Hadj & Hadd)%inject_lid_inr.
  pose proof (resolve_placements_frame _ _ _ _ Hres) as (Ht & Hc & Hw).
  pose proof (resolve_placements_inr _ _ _ _ Hres) as (Hty & Hn & Ha & _).
  pose proof Hadd as Hadd'. unfold add_lid_usage in Hadd'.
  apply M_bind_lift_inr in Hadd' as (vs & Hvs & _).
  destruct (add_lid_usage_eq lid2 s3 vs Hvs)
    as (s'' & E & Hother & Husage & _ & _ & _ & Hw').
  rewrite E in Hadd. injection Hadd as ->.
  exists lid2, vs. split; [done|].
  unfold is_rain_barrel. apply catalog_type_category in Hcat. rewrite Hcat.
  unfold sc_lines at 1. rewrite Hother by done. fold (sc_lines (input_template s3)).
  rewrite Husage, Hw'.
  destruct (value_eqb v "RB").
  - destruct (split_subcatchment_inr _ _ _ _ _ _ Hadj).
    subst s3 lid2. simpl in *. rewrite Ht in *.
    erewrite sc_lines_split_template by done.
    unfold usage_lines. rewrite split_template_other by done.
    rewrite length_app, length_alter. simpl.
    repeat split; try done; by rewrite ?Hw, ?Nat.add_0_r.
  - unfold mbind, M_bind, warn_unsupported, mret, M_ret in Hadj.
    injection Hadj as <- <-. simpl. rewrite Ht, Hw, length_app. simpl.
    repeat split; try done; by rewrite ?Nat.add_0_r.
Qed.

Lemma inject_lid_same_elsewhere (us : string) (lid : params.lid)
    (s s' : state) (r : result string) :
  inject_lid us lid s = (s', r) →
  input_template s' !! "LID_CONTROLS" = input_template s !! "LID_CONTROLS".
Proof. intros [W _]%keeps_inject_lid. by apply W. Qed.

(** The effect of the loop, from any state. *)
Lemma inject_lids_effect (us : string) (lids : list params.lid) (s s' : state)
    (lid_ids : list string) :
  inject_lids us lids s = (s', inr lid_ids) →
  (∃ records,
     usage_lines (input_template s')
     = usage_lines (input_template s) ++ records
     ∧ length records = length lids
     ∧ ∀ i lid, lids !! i = Some lid →
         ∃ vs, records !! i = Some (Line vs None)
               ∧ length vs = 10
               ∧ vs !! 1 = Some (VStr (params.type lid))
               ∧ vs !! 2 = Some (VNum (inject_Z (params.number lid)))
               ∧ vs !! 3 = Some (VNum (params.area lid)))
  ∧ length (sc_lines (input_template s'))
    = length (sc_lines (input_template s))
      + length (filter (λ lid, is_rain_barrel (input_template s) lid = true) lids)
  ∧ length (warnings s')
    = length (warnings s)
      + length (filter (λ lid, is_rain_barrel (input_template s) lid = false) lids).
Proof.
  revert s lid_ids. induction lids as [|lid lids IH]; intros s lid_ids W.
  - injection W as <- _. split; [|by rewrite !Nat.add_0_r].
    exists []. by rewrite app_nil_r.
  - simpl in W.
    apply M_bind_inr in W as (s1 & id0 & Hid & W).
    apply M_bind_inr in W as (s2 & ids & Hids & W).
    injection W as <- _.
    pose proof (inject_lid_same_elsewhere _ _ _ _ _ Hid) as Hctl.
    apply inject_lid_effect in Hid
      as (lid2 & vs & Hvs & Hty & Hn & Ha & Husage & Hzones & Hwarn).
    destruct (IH _ _ Hids) as ((records & Hrec & Hlen & Hnth) & Hz & Hw).
    assert (Hrb : ∀ l, is_rain_barrel (input_template s1) l
                       = is_rain_barrel (input_template s) l).
    { intros l. unfold is_rain_barrel. by rewrite (lid_category_ext _ _ _ Hctl). }
    split; [|split].
    + exists (Line vs None :: records). split; [|split].
      * rewrite Hrec, Husage, <- app_assoc. done.
      * simpl. by rewrite Hlen.
      * intros [|i] l Hl; simpl in Hl.
        -- injection Hl as <-. exists vs. split; [done|].
           unfold lid_values in Hvs.
           destruct (params.subcatchment (params.location lid2)); [|done].
           injection Hvs as <-. rewrite Hty, Hn, Ha. done.
        -- simpl. by apply Hnth.
    + rewrite Hz, Hzones, filter_cons.
      rewrite (list_filter_iff _ (λ l, is_rain_barrel (input_template s) l = true))
        by (intros l; by rewrite Hrb).
      destruct (is_rain_barrel (input_template s) lid) eqn:E.
      * rewrite decide_True by done. simpl. lia.
      * rewrite decide_False by done. lia.
    + rewrite Hw, Hwarn, filter_cons.
      rewrite (list_filter_iff _ (λ l, is_rain_barrel (input_template s) l = false))
        by (intros l; by rewrite Hrb).
      destruct (is_rain_barrel (input_template s) lid) eqn:E.
      * rewrite decide_False by done. lia.
      * rewrite decide_True by done. simpl. lia.
Qed.

(** X3: a completed run appends one record per LID of the document to the
    usage section, in the order of the document, after the records that were
    there; a record has ten fields and no comment, and its second, third and
    fourth fields are the type, the unit count and the area of its LID. *)
Theorem usage_records_follow_document
    (input_parameters : params.input_parameters) (template : swmm_input)
    (s' : state) (lid_ids : list string) :
  inject_parameters_into_input input_parameters template = (s', inr lid_ids) →
  let lids := default [] (params.lids input_parameters) in
  ∃ records,
    usage_lines (input_template s') = usage_lines template ++ records
    ∧ length records = length lids
    ∧ ∀ i lid, lids !! i = Some lid →
        ∃ vs, records !! i = Some (Line vs None)
              ∧ length vs = 10
              ∧ vs !! 1 = Some (VStr (params.type lid))
              ∧ vs !! 2 = Some (VNum (inject_Z (params.number lid)))
              ∧ vs !! 3 = Some (VNum (params.area lid)).
Proof.
  intros (us & _ & _ & W)%inject_parameters_into_input_inr lids.
  by destruct (inject_lids_effect _ _ _ _ _ W) as [? _].
Qed.

(** X4: a completed run adds one zone line for each LID whose type the
    catalog files as a rain barrel, and none for the others; it logs one
    warning for each of the others, and none for a rain barrel. *)
Theorem one_zone_per_rain_barrel
    (input_parameters : params.input_parameters) (template : swmm_input)
    (s' : state) (lid_ids : list string) :
  inject_parameters_into_input input_parameters template = (s', inr lid_ids) →
  let lids := default [] (params.lids input_parameters) in
  length (sc_lines (input_template s'))
  = length (sc_lines template)
    + length (filter (λ lid, is_rain_barrel template lid = true) lids)
  ∧ length (warnings s')
    = length (filter (λ lid, is_rain_barrel template lid = false) lids).
Proof.
  intros (us & _ & _ & W)%inject_parameters_into_input_inr lids.
  by destruct (inject_lids_effect _ _ _ _ _ W) as (_ & ? & ?).
Qed.

End Records.

Section Areas.
Context `{DataIndices, Shapely, Runtime}.

(** The quantities of the split, computed forward. *)
Lemma lid_area_converted (us : string) (lau sau : units.unit) (x : Q) :
  area_units us = inr (lau, sau) →
  ∃ q, units.to (units.times x lau) sau = inr q
       ∧ (units.magnitude q == x * area_factor lau sau)%Q
       ∧ units.unit_of q = sau.
Proof.
  intros [(_ & -> & ->)|(_ & -> & ->)]%area_units_inr;
    eexists; (split; [reflexivity|]); split; try done;
    unfold area_factor; simpl; field.
Qed.

Lemma area_subtracted (us : string) (lau sau : units.unit) (A : Q)
    (lsa : units.quantity) :
  area_units us = inr (lau, sau) → units.unit_of lsa = sau →
  ∃ q, units.sub (units.times A sau) lsa = inr q
       ∧ (units.magnitude q == A - units.magnitude lsa)%Q.
Proof.
  intros Hunits Hu. unfold units.sub, units.to. rewrite Hu. simpl.
  rewrite Z.eqb_refl. simpl. eexists. split; [reflexivity|]. simpl.
  apply area_units_inr in Hunits as [(_ & _ & ->)|(_ & _ & ->)]; simpl; field.
Qed.

Lemma impervious_area_subtracted (us : string) (lau sau : units.unit) (p A : Q)
    (lsa : units.quantity) :
  area_units us = inr (lau, sau) → units.unit_of lsa = sau →
  ∃ q, units.sub (units.mul (units.times p units.percent) (units.times A sau))
                 lsa = inr q
       ∧ (units.magnitude q == p * A - 100 * units.magnitude lsa)%Q
       ∧ units.unit_of q
         = units.Unit (units.factor units.percent * units.factor sau) 2.
Proof.
  intros Hunits Hu. unfold units.sub, units.to. rewrite Hu.
  apply area_units_inr in Hunits as [(_ & _ & ->)|(_ & _ & ->)]; simpl;
    (eexists; split; [reflexivity|]); simpl; (split; [field | done]).
Qed.

Lemma percent_of_quotient (us : string) (lau sau : units.unit)
    (nia na : units.quantity) :
  area_units us = inr (lau, sau) →
  units.unit_of nia
  = units.Unit (units.factor units.percent * units.factor sau) 2 →
  units.unit_of na = sau →
  ¬ (units.magnitude na == 0)%Q →
  ∃ ni np,
    units.div nia na = inr ni
    ∧ units.to ni units.percent = inr np
    ∧ (units.magnitude np == units.magnitude nia / units.magnitude na)%Q.
Proof.
  intros Hunits Hnia Hna Hnz. unfold units.div.
  destruct (Qeq_bool (units.magnitude na) 0) eqn:E.
  { by apply Qeq_bool_iff in E. }
  apply area_units_inr in Hunits as [(_ & _ & ->)|(_ & _ & ->)];
    (eexists _, _; split; [reflexivity|]); unfold units.to;
    rewrite Hnia, Hna; simpl; (split; [reflexivity|]); simpl; field; done.
Qed.

Lemma units_sub_unit_of (a b q : units.quantity) :
  units.sub a b = inr q → units.unit_of q = units.unit_of a.
Proof. by intros ->%units_sub_inr. Qed.

(** X5: a successful split conserves the area: the area written to the child
    zone and the area written back to the base zone add up to the area the
    base zone had, neither is negative when the LID is not, and the child
    zone is fully pervious. *)
Theorem split_conserves_total_area (us : string) (lid : params.lid)
    (lid_id : string) (s s' : state) (lid' : params.lid) :
  sc_area_index ≠ sc_imperv_index →
  split_subcatchment us lid lid_id s = (s', inr lid') →
  ∃ (name : string) (pos : nat) (old : list value) (va : value)
    (host child : line) (A A' L : Q),
    params.subcatchment (params.location lid) = Some name
    ∧ get_subcatchment_definition (input_template s) name
      = inr (Some (pos, old))
    ∧ old !! sc_area_index = Some va ∧ float va = inr A
    ∧ sc_lines (input_template s') !! pos = Some host
    ∧ values host !! sc_area_index = Some (VNum A')
    ∧ last (sc_lines (input_template s')) = Some child
    ∧ values child !! sc_area_index = Some (VNum L)
    ∧ values child !! sc_imperv_index = Some (VNum 0)
    ∧ (A' + L == A ∧ 0 <= A' ∧ (lid_nonneg lid → 0 <= L))%Q.
Proof.
  intros Hne W. destruct (split_subcatchment_inr _ _ _ _ _ _ W).
  destruct (split_magnitudes _ _ _ _ _ _ _ _ _ _ _ Hunits Hlsa Hnew Hnia Hni Hnp)
    as (HL & HA' & Hnz & Hp').
  destruct (get_subcatchment_definition_Some _ _ _ _ Hhost)
    as (l & Hl & Hvl & Hn).
  rewrite list_lookup_insert_ne in Hvp by done.
  pose proof (lookup_lt_length _ _ _ Hva) as Hla.
  pose proof (lookup_lt_length _ _ _ Hvp) as Hlp.
  exists name, pos, old, va,
    (rewrite_line (base_after old (units.magnitude new_area)
                     (units.magnitude new_percent)) l),
    (Line (child_of old lid_sc_name (units.magnitude lid_sc_area))
          (child_comment lid)),
    A, (units.magnitude new_area), (units.magnitude lid_sc_area).
  subst s'. simpl. erewrite sc_lines_split_template by done.
  split; [done|]. split; [done|]. split; [done|]. split; [done|].
  split; [apply lookup_app_l_Some; by rewrite list_lookup_alter_eq, Hl|].
  split.
  { simpl. unfold base_after. rewrite list_lookup_insert_ne by done.
    by rewrite list_lookup_insert_eq. }
  split; [by rewrite last_snoc|].
  split.
  { simpl. unfold child_of. rewrite list_lookup_insert_ne by done.
    rewrite list_lookup_insert_eq; [done|]. by rewrite length_insert. }
  split.
  { simpl. unfold child_of. rewrite list_lookup_insert_eq; [done|].
    by rewrite !length_insert. }
  split; [rewrite HA'; ring|]. split; [done|].
  intros [Hnum Harea]. rewrite HL. apply Qmult_le_0_compat.
  - apply Qmult_le_0_compat; [|done].
    change 0%Q with (inject_Z 0). by rewrite <- Zle_Qle.
  - apply Qlt_le_weak. by eapply area_factor_pos.
Qed.

Lemma percent_of_area_lt (p A L : Q) :
  (p / 100 * A < L → p * A - 100 * L < 0)%Q.
Proof.
  intros Hlt.
  assert (Hscaled : (p * A < L * 100)%Q).
  { apply (Qmult_lt_r _ _ (/ 100)); [reflexivity|].
    setoid_replace (p * A * / 100)%Q with (p / 100 * A)%Q
      using relation Qeq by field.
    setoid_replace (L * 100 * / 100)%Q with L using relation Qeq by field.
    exact Hlt. }
  lra.
Qed.

Lemma split_subcatchment_area_written (us : string) (lid : params.lid)
    (lid_id name : string) (s : state) (pos : nat) (old : list value)
    (lau sau : units.unit) (va : value) (A : Q) :
  params.subcatchment (params.location lid) = Some name →
  zones_named (input_template s) →
  get_subcatchment_definition (input_template s) name = inr (Some (pos, old)) →
  area_units us = inr (lau, sau) →
  old !! sc_area_index = Some va →
  float va = inr A →
  ∃ lid_sc_name lsa na,
    (units.magnitude lsa
     == inject_Z (params.number lid) * params.area lid * area_factor lau sau)%Q
    ∧ units.unit_of lsa = sau
    ∧ (units.magnitude na == A - units.magnitude lsa)%Q
    ∧ units.unit_of na = sau
    ∧ split_subcatchment us lid lid_id s
      = (let lid_sc :=
           <[sc_area_index := VNum (units.magnitude lsa)]>
             (<[sc_name_index := VStr lid_sc_name]> old) in
         let lid_base_sc := <[sc_area_index := VNum (units.magnitude na)]> old in
         if Qlt_le_dec (units.magnitude na) 0 then
           throw (below_zero_area lid_id name)
         else
           p ← lift (getitem lid_base_sc sc_imperv_index);
           p ← lift (float p);
           new_lid_base_sc_imperv_area ←
             lift (units.sub (units.mul (units.times p units.percent)
                                        (units.times A sau)) lsa);
           new_lid_base_sc_imperv ←
             lift (units.div new_lid_base_sc_imperv_area na);
           lid_sc ← lift (setitem lid_sc sc_imperv_index (VNum 0));
           new_percent ← lift (units.to new_lid_base_sc_imperv units.percent);
           lid_base_sc ←
             set_base pos lid_base_sc sc_imperv_index
               (VNum (units.magnitude new_percent));
           if Qlt_le_dec (units.magnitude new_percent) 0 then
             throw (short_of_impervious lid_id name)
           else
             _ ← modify_template
                   (append_line "SUBCATCHMENTS"
                      (Line lid_sc (child_comment lid)));
             mret (set_location_subcatchment lid lid_sc_name))
          (with_template s
             (write_sc pos (<[sc_area_index := VNum (units.magnitude na)]> old)
                (input_template s))).
Proof.
  intros Hloc Hnamed Hhost Hunits Hva HA. unfold split_subcatchment.
  apply item_inr with (key := "subcatchment") in Hloc.
  rewrite (M_bind_lift_eq _ _ _ _ Hloc), M_bind_get_template.
  rewrite (M_bind_lift_eq _ _ _ _ Hhost).
  destruct (unique_lid_sc_name_named _ name lid_id Hnamed) as [nm Hnm].
  rewrite (M_bind_lift_eq _ _ _ _ Hnm).
  destruct (get_subcatchment_definition_Some _ _ _ _ Hhost)
    as (l & _ & _ & Hn%lookup_lt_length).
  assert (Hset : setitem old sc_name_index (VStr nm)
                 = inr (<[sc_name_index := VStr nm]> old))
    by by apply setitem_inr.
  rewrite (M_bind_lift_eq _ _ _ _ Hset).
  rewrite (M_bind_lift_eq _ _ _ _ Hunits).
  pose proof (lookup_lt_length _ _ _ Hva) as Hla.
  apply getitem_inr in Hva.
  rewrite (M_bind_lift_eq _ _ _ _ Hva), (M_bind_lift_eq _ _ _ _ HA).
  destruct (lid_area_converted us lau sau
              (inject_Z (params.number lid) * params.area lid) Hunits)
    as (lsa & Hlsa & Hmag & Hu).
  rewrite (M_bind_lift_eq _ _ _ _ Hlsa).
  destruct (area_subtracted us lau sau A lsa Hunits Hu) as (na & Hna & Hnmag).
  rewrite (M_bind_lift_eq _ _ _ _ Hna).
  assert (Hset2 : setitem (<[sc_name_index := VStr nm]> old) sc_area_index
                    (VNum (units.magnitude lsa))
                  = inr (<[sc_area_index := VNum (units.magnitude lsa)]>
                           (<[sc_name_index := VStr nm]> old))).
  { apply setitem_inr. by rewrite length_insert. }
  rewrite (M_bind_lift_eq _ _ _ _ Hset2).
  rewrite set_base_eq by done.
  exists nm, lsa, na. split; [done|]. split; [done|]. split; [done|].
  split; [by rewrite (units_sub_unit_of _ _ _ Hna)|]. reflexivity.
Qed.

(** X7: a rain barrel that takes more than the impervious land of its base
    zone, but not more than its area, is rejected with the error that names
    the zone and the LID.  The base zone has then been rewritten: its area is
    the reduced one and its impervious percentage the negative one that was
    computed; no child zone is appended. *)
Theorem impervious_land_exceeded (us : string) (lid : params.lid)
    (lid_id name : string) (s : state) (pos : nat) (old : list value)
    (lau sau : units.unit) (va vp : value) (A p : Q) :
  sc_area_index ≠ sc_imperv_index →
  params.subcatchment (params.location lid) = Some name →
  zones_named (input_template s) →
  get_subcatchment_definition (input_template s) name = inr (Some (pos, old)) →
  area_units us = inr (lau, sau) →
  old !! sc_area_index = Some va → float va = inr A →
  old !! sc_imperv_index = Some vp → float vp = inr p →
  let L := (inject_Z (params.number lid) * params.area lid
            * area_factor lau sau)%Q in
  (L < A)%Q → (p / 100 * A < L)%Q →
  ∃ (s' : state) (A' p' : Q),
    split_subcatchment us lid lid_id s
    = (s', inl (short_of_impervious lid_id name))
    ∧ sc_lines (input_template s')
      = alter (rewrite_line (base_after old A' p')) pos
          (sc_lines (input_template s))
    ∧ (A' == A - L ∧ p' < 0)%Q.
Proof.
  intros Hne Hloc Hnamed Hhost Hunits Hva HA Hvp Hp L HLA HpL.
  destruct (split_subcatchment_area_written us lid lid_id name s pos old
              lau sau va A Hloc Hnamed Hhost Hunits Hva HA)
    as (nm & lsa & na & Hmag & Hu & Hnmag & Hnu & ->).
  fold L in Hmag. clearbody L. cbv zeta.
  pose proof (lookup_lt_length _ _ _ Hva) as Hla.
  pose proof (lookup_lt_length _ _ _ Hvp) as Hlp.
  destruct (get_subcatchment_definition_Some _ _ _ _ Hhost)
    as (l & _ & _ & Hn%lookup_lt_length).
  destruct (Qlt_le_dec (units.magnitude na) 0) as [Hneg|Hnonneg].
  { exfalso. rewrite Hnmag, Hmag in Hneg. lra. }
  assert (Hvp' : getitem (<[sc_area_index := VNum (units.magnitude na)]> old)
                   sc_imperv_index = inr vp).
  { apply getitem_inr. by rewrite list_lookup_insert_ne. }
  rewrite (M_bind_lift_eq _ _ _ _ Hvp'), (M_bind_lift_eq _ _ _ _ Hp).
  destruct (impervious_area_subtracted us lau sau p A lsa Hunits Hu)
    as (nia & Hnia & Hniamag & Hniau).
  rewrite (M_bind_lift_eq _ _ _ _ Hnia).
  assert (Hnz : ¬ (units.magnitude na == 0)%Q).
  { rewrite Hnmag, Hmag. lra. }
  destruct (percent_of_quotient us lau sau nia na Hunits Hniau Hnu Hnz)
    as (ni & np & Hni & Hnp & Hnpmag).
  rewrite (M_bind_lift_eq _ _ _ _ Hni).
  assert (Hset : setitem (<[sc_area_index := VNum (units.magnitude lsa)]>
                            (<[sc_name_index := VStr nm]> old))
                   sc_imperv_index (VNum 0)
                 = inr (<[sc_imperv_index := VNum 0]>
                          (<[sc_area_index := VNum (units.magnitude lsa)]>
                             (<[sc_name_index := VStr nm]> old)))).
  { apply setitem_inr. by rewrite !length_insert. }
  rewrite (M_bind_lift_eq _ _ _ _ Hset), (M_bind_lift_eq _ _ _ _ Hnp).
  rewrite set_base_eq by by rewrite length_insert.
  assert (Hnegp : (units.magnitude np < 0)%Q).
  { rewrite Hnpmag. apply Qlt_shift_div_r.
    - rewrite Hnmag, Hmag. lra.
    - rewrite Hniamag, Hmag, Qmult_0_l. by apply percent_of_area_lt. }
  destruct (Qlt_le_dec (units.magnitude np) 0) as [_|Hge].
  2: { exfalso. lra. }
  eexists _, (units.magnitude na), (units.magnitude np).
  split; [reflexivity|]. simpl.
  rewrite !sc_lines_write_sc, list_alter_alter_eq.
  split; [done|]. split; [by rewrite Hnmag, Hmag | done].
Qed.

(** X9: a rain barrel located in a zone the model does not have is rejected
    with the error that names the zone; the LID has been counted, and the
    model is as it was. *)
Theorem rain_barrel_zone_not_found (us : string) (lid lid1 : params.lid)
    (s s1 : state) (name : string) :
  resolve_placements lid s = (s1, inr lid1) →
  catalog_type (input_template s) (params.type lid) (VStr "RB") →
  params.subcatchment (params.location lid1) = Some name →
  zones_named (input_template s) →
  ¬ zone_present (input_template s) name →
  inject_lid us lid s
  = (counted s1 (params.type lid), inl (zone_not_found name))
  ∧ input_template (counted s1 (params.type lid)) = input_template s.
Proof.
  intros Hres Hcat Hloc Hnamed Habsent.
  pose proof (resolve_placements_frame _ _ _ _ Hres) as (Ht & Hc & Hw).
  rewrite (inject_lid_resolved us lid lid1 s s1 _ Hres Hcat). simpl.
  split; [|done]. apply M_bind_inl. unfold split_subcatchment.
  apply item_inr with (key := "subcatchment") in Hloc.
  rewrite (M_bind_lift_eq _ _ _ _ Hloc), M_bind_get_template. simpl.
  rewrite Ht.
  destruct (get_subcatchment_definition_named _ name Hnamed) as [[r|] Hr].
  { destruct Habsent. by eapply get_subcatchment_definition_present. }
  rewrite (M_bind_lift_eq _ _ _ _ Hr). done.
Qed.

End Areas.

Section Catalog.
Context `{DataIndices, Shapely, Runtime}.

Lemma value_eqb_false (v : value) (s : string) :
  value_eqb v s = false ↔ v ≠ VStr s.
Proof.
  rewrite <- value_eqb_true. destruct (value_eqb v s); split; done.
Qed.

Lemma lid_type_definition_nil (ls : list line) (lid_type : string) :
  Forall (other_name lid_type_name_index lid_type) ls →
  lid_type_definition ls lid_type = inr [].
Proof.
  induction 1 as [|l ls Hl _ IH]; simpl; [done|]. rewrite IH.
  destruct Hl as [->|(v & Hv & Hne)]; [done|].
  destruct (values l) as [|w ws] eqn:E; [done|].
  apply getitem_inr in Hv. rewrite Hv. simpl.
  apply value_eqb_false in Hne. by rewrite Hne.
Qed.

(** X10: a LID is rejected with a configuration error when the model has no
    catalog of LID types, and when no line of the catalog carries the name of
    its type.  The LID is then not counted, and the model is as it was. *)
Theorem type_missing_from_catalog (us : string) (lid lid1 : params.lid)
    (s s1 : state) :
  resolve_placements lid s = (s1, inr lid1) →
  input_template s1 = input_template s
  ∧ lid_counter s1 = lid_counter s
  ∧ (input_template s !! "LID_CONTROLS" = None →
     inject_lid us lid s
     = (s1, inl (ConfigException
                   "There are no LID controls defined in the SWMM input file.")))
  ∧ (∀ lid_controls,
       input_template s !! "LID_CONTROLS" = Some lid_controls →
       Forall (other_name lid_type_name_index (params.type lid))
              (lines lid_controls) →
       inject_lid us lid s
       = (s1, inl (ConfigException
                     ("LID type " +:+ dq +:+ params.type lid +:+ dq
                      +:+ " not found in SWMM input file.")))).
Proof.
  intros Hres.
  pose proof (resolve_placements_frame _ _ _ _ Hres) as (Ht & Hc & Hw).
  pose proof (resolve_placements_inr _ _ _ _ Hres) as (Hty & _).
  split; [done|]. split; [done|]. split.
  - intros Hnone. unfold inject_lid. rewrite (M_bind_eq _ _ _ _ _ Hres).
    cbv zeta. rewrite M_bind_get_template, Ht, Hnone. done.
  - intros ctl Hctl Hall. unfold inject_lid. rewrite (M_bind_eq _ _ _ _ _ Hres).
    cbv zeta. rewrite M_bind_get_template, Ht, Hctl, Hty.
    rewrite (M_bind_lift_eq _ _ _ _ (lid_type_definition_nil _ _ Hall)). done.
Qed.

Lemma find_definition_first (ls : list line) (pos : nat) (n : string)
    (p : nat) (vs : list value) :
  find_definition ls pos n = inr (Some (p, vs)) →
  ∃ l, pos ≤ p ∧ ls !! (p - pos) = Some l ∧ values l = vs ∧ vs ≠ []
       ∧ vs !! sc_name_index = Some (VStr n)
       ∧ Forall (other_name sc_name_index n) (take (p - pos) ls).
Proof.
  revert pos. induction ls as [|l ls IH]; intros pos; simpl; [done|].
  destruct (values l) as [|v ws] eqn:E.
  - intros (l' & Hle & Hl' & Hv & Hne & Hn & Hbefore)%IH.
    exists l'. replace (p - pos) with (S (p - S pos)) by lia. simpl.
    split; [lia|]. repeat split; try done.
    apply Forall_cons. split; [by left | done].
  - destruct (getitem (v :: ws) sc_name_index) as [e|w] eqn:Hw; [done|]. simpl.
    destruct (value_eqb w n) eqn:Heq.
    + intros [= <- <-]. exists l. rewrite Nat.sub_diag. simpl.
      apply getitem_inr in Hw. apply value_eqb_true in Heq. subst w.
      repeat split; try done.
    + intros (l' & Hle & Hl' & Hv & Hne & Hn & Hbefore)%IH.
      exists l'. replace (p - pos) with (S (p - S pos)) by lia. simpl.
      split; [lia|]. repeat split; try done.
      apply Forall_cons. split; [|done]. right. exists w.
      rewrite E. apply getitem_inr in Hw. split; [done|].
      by apply value_eqb_false.
Qed.

(** X11: the definition found for a zone name is the first zone line of
    that name: the line at the position returned has the fields returned,
    which are not empty and carry the name, and every line before it has no
    fields or another name.  When none is found, no zone line carries the
    name; and the only error raised is the index error of a line too short
    to have a name field. *)
Theorem definition_is_first_match (swmm_input : swmm_input) (sc_name : string) :
  (∀ pos vs,
     get_subcatchment_definition swmm_input sc_name = inr (Some (pos, vs)) →
     ∃ l, sc_lines swmm_input !! pos = Some l ∧ values l = vs ∧ vs ≠ []
          ∧ vs !! sc_name_index = Some (VStr sc_name)
          ∧ Forall (other_name sc_name_index sc_name)
                   (take pos (sc_lines swmm_input)))
  ∧ (get_subcatchment_definition swmm_input sc_name = inr None →
     ¬ zone_present swmm_input sc_name)
  ∧ (∀ e, get_subcatchment_definition swmm_input sc_name = inl e →
          e = IndexError ∧ ¬ zones_named swmm_input).
Proof.
  split; [|split].
  - intros pos vs. unfold get_subcatchment_definition, sc_lines.
    destruct (swmm_input !! "SUBCATCHMENTS") as [s|]; [|done].
    intros (l & _ & Hl & Hv & Hne & Hn & Hb)%find_definition_first.
    rewrite Nat.sub_0_r in *. by exists l.
  - apply get_subcatchment_definition_None.
  - intros e He. split; [by eapply get_subcatchment_definition_exn|].
    intros Hnamed.
    destruct (get_subcatchment_definition_named _ sc_name Hnamed) as [r Hr].
    congruence.
Qed.

End Catalog.

Section Polygons.
Context `{DataIndices, Shapely, Runtime}.

Lemma snoc_then_app {A : Type} (d : list A) (x : A) (rest : list A) :
  match rest with
  | [] => Some (d ++ [x])
  | y :: l => Some ((d ++ [x]) ++ y :: l)
  end = Some (d ++ x :: rest).
Proof. destruct rest; [done|]. by rewrite <- app_assoc. Qed.

Lemma polygon_coordinates_inr (ls : list line)
    (acc m : gmap string (list (Q * Q))) (sc : string) :
  polygon_coordinates ls acc = inr m →
  m !! sc = match omap (vertex_of sc) ls with
            | [] => acc !! sc
            | vs => Some (default [] (acc !! sc) ++ vs)
            end.
Proof.
  revert acc. induction ls as [|l ls IH]; intros acc; simpl.
  { by intros [= <-]. }
  destruct (values l) as [|v vs] eqn:E.
  { intros W%IH. assert (vertex_of sc l = None) as ->; [|done].
    unfold vertex_of. by rewrite E. }
  intros (k & Hk%getitem_inr & W)%result_bind_inr.
  apply result_bind_inr in W as (n & Hn & W).
  destruct k as [k|q]; [|done]. injection Hn as <-.
  apply result_bind_inr in W as (vx & Hvx%getitem_inr & W).
  apply result_bind_inr in W as (px & Hpx & W).
  apply result_bind_inr in W as (vy & Hvy%getitem_inr & W).
  apply result_bind_inr in W as (py & Hpy & W).
  apply IH in W. rewrite W. csimpl.
  unfold vertex_of at 2. rewrite E, Hk, Hvx, Hvy, Hpx, Hpy.
  case_bool_decide as Hsc.
  - subst k. rewrite lookup_insert_eq. simpl. apply snoc_then_app.
  - by rewrite lookup_insert_ne.
Qed.

Lemma build_polygons_inr (items : list (string * list (Q * Q)))
    (ps : list (string * polygon)) :
  build_polygons items = inr ps →
  ps.*1 = items.*1
  ∧ ∀ k c, (k, c) ∈ items → ∃ p, Polygon c = inr p ∧ (k, p) ∈ ps.
Proof.
  revert ps. induction items as [|[k c] items IH]; intros ps; simpl.
  { intros [= <-]. split; [done|]. intros k c Hin. by apply elem_of_nil in Hin. }
  intros (p & Hp & W)%result_bind_inr.
  apply result_bind_inr in W as (ps' & Hps' & [= <-]).
  destruct (IH _ Hps') as [Hfst Hall]. split; [csimpl; by rewrite Hfst|].
  intros k' c' [[= -> ->]|Hin]%elem_of_cons.
  - exists p. split; [done|]. by left.
  - destruct (Hall _ _ Hin) as (p' & Hp' & Hin'). exists p'. split; [done|].
    by right.
Qed.

(** X12: when the polygons are extracted, a zone has a polygon exactly when
    some polygon line names it, and the polygon is the one built from the
    vertices of the lines that name it, in the order of the lines.  A model
    without a polygon section gives no polygon. *)
Theorem polygons_follow_lines (swmm_input : swmm_input)
    (ps : gmap string polygon) (sc : string) :
  extract_subcatchment_polygons swmm_input = inr ps →
  match omap (vertex_of sc) (polygon_lines swmm_input) with
  | [] => ps !! sc = None
  | coordinates => ∃ p, ps !! sc = Some p ∧ Polygon coordinates = inr p
  end.
Proof.
  unfold extract_subcatchment_polygons. fold (polygon_lines swmm_input).
  intros (m & Hm & W)%result_bind_inr.
  apply result_bind_inr in W as (items & Hitems & [= <-]).
  apply (polygon_coordinates_inr _ _ _ sc) in Hm. rewrite lookup_empty in Hm.
  destruct (build_polygons_inr _ _ Hitems) as [Hfst Hall].
  assert (Hnodup : NoDup items.*1).
  { rewrite Hfst, (iteritems_perm _ m). apply NoDup_fst_map_to_list. }
  destruct (omap (vertex_of sc) (polygon_lines swmm_input)) as [|v vs].
  - apply not_elem_of_list_to_map. rewrite Hfst.
    intros ([k c] & -> & Hin%elem_of_iteritems)%list_elem_of_fmap.
    simpl in *. congruence.
  - simpl in Hm. apply elem_of_iteritems in Hm.
    destruct (Hall _ _ Hm) as (p & Hp & Hin). exists p. split; [|done].
    by apply elem_of_list_to_map.
Qed.

End Polygons.

Section Attachment.
Context `{DataIndices, Shapely, Runtime}.

(** X13: the usage record of a rain barrel names the child zone made for it,
    not the zone it was located in: after the rain barrel is injected, the
    last zone line is the child zone, the last usage record is the one of the
    LID, and the first field of the record is the name of the child zone, a
    name no zone had before. *)
Theorem rain_barrel_attached_to_child (us : string) (lid : params.lid)
    (s s' : state) (lid_id : string) :
  sc_name_index ≠ sc_area_index →
  sc_name_index ≠ sc_imperv_index →
  is_rain_barrel (input_template s) lid = true →
  inject_lid us lid s = (s', inr lid_id) →
  ∃ (child record : line) (lid_sc_name : string),
    last (sc_lines (input_template s')) = Some child
    ∧ values child !! sc_name_index = Some (VStr lid_sc_name)
    ∧ last (usage_lines (input_template s')) = Some record
    ∧ values record !! 0 = Some (VStr lid_sc_name)
    ∧ ¬ zone_present (input_template s) lid_sc_name.
Proof.
  intros Hna Hni Hrb
    (s1 & lid1 & v & s3 & lid2 & Hres & Hcat & _ & Hadj & Hadd)%inject_lid_inr.
  pose proof (resolve_placements_frame _ _ _ _ Hres) as (Ht & Hc & Hw).
  apply catalog_type_category in Hcat.
  unfold is_rain_barrel in Hrb. rewrite Hcat in Hrb. rewrite Hrb in Hadj.
  destruct (split_subcatchment_inr _ _ _ _ _ _ Hadj).
  simpl in Hhost, Hname, Hs'. rewrite Ht in Hhost, Hname, Hs'.
  destruct (unique_lid_sc_name_inr _ _ _ _ Hname) as (k & -> & _ & Hnone).
  destruct (get_subcatchment_definition_Some _ _ _ _ Hhost)
    as (l & _ & _ & Hn%lookup_lt_length).
  assert (Hvs : lid_values lid2
                = inr [VStr (child_name name lid_id k);
                       VStr (params.type lid2);
                       VNum (inject_Z (params.number lid2));
                       VNum (params.area lid2); VNum (params.width lid2);
                       VNum (params.initSat lid2); VNum (params.fromImp lid2);
                       VNum (params.toPerv lid2);
                       VStr (default EmptyString (params.rptFile lid2));
                       VStr (lid_drain_to lid2)]).
  { subst lid2. reflexivity. }
  destruct (add_lid_usage_eq lid2 s3 _ Hvs)
    as (s'' & E & Hother & Husage & _).
  rewrite E in Hadd. injection Hadd as ->.
  eexists _, _, (child_name name lid_id k).
  unfold sc_lines at 1. rewrite Hother by done.
  fold (sc_lines (input_template s3)). rewrite Husage, last_snoc.
  subst s3. simpl. erewrite sc_lines_split_template by done.
  rewrite last_snoc. split; [done|]. split.
  { simpl. unfold child_of. rewrite !list_lookup_insert_ne by done.
    by apply list_lookup_insert_eq. }
  split; [done|]. split; [done|].
  by apply get_subcatchment_definition_None.
Qed.

(** X14: a successful split rewrites one zone line, the one of the base
    zone, and there only the area and the impervious percentage: the other
    zone lines, the other fields of the base zone and its comment are as they
    were. *)
Theorem split_rewrites_base_only (us : string) (lid : params.lid)
    (lid_id : string) (s s' : state) (lid' : params.lid) :
  split_subcatchment us lid lid_id s = (s', inr lid') →
  ∃ (name : string) (pos : nat) (old : list value) (before host : line),
    params.subcatchment (params.location lid) = Some name
    ∧ get_subcatchment_definition (input_template s) name
      = inr (Some (pos, old))
    ∧ sc_lines (input_template s) !! pos = Some before
    ∧ sc_lines (input_template s') !! pos = Some host
    ∧ comment host = comment before
    ∧ length (values host) = length old
    ∧ (∀ i, i ≠ sc_area_index → i ≠ sc_imperv_index →
            values host !! i = old !! i)
    ∧ (∀ i, i ≠ pos → i < length (sc_lines (input_template s)) →
            sc_lines (input_template s') !! i
            = sc_lines (input_template s) !! i).
Proof.
  intros W. destruct (split_subcatchment_inr _ _ _ _ _ _ W).
  destruct (get_subcatchment_definition_Some _ _ _ _ Hhost)
    as (l & Hl & Hvl & Hn).
  exists name, pos, old, l,
    (rewrite_line (base_after old (units.magnitude new_area)
                     (units.magnitude new_percent)) l).
  subst s'. simpl. erewrite sc_lines_split_template by done.
  split; [done|]. split; [done|]. split; [done|].
  split; [apply lookup_app_l_Some; by rewrite list_lookup_alter_eq, Hl|].
  split; [done|]. split.
  { simpl. unfold base_after. by rewrite !length_insert. }
  split.
  { intros i Ha Hi. simpl. unfold base_after.
    by rewrite !list_lookup_insert_ne. }
  intros i Hi Hlt. rewrite lookup_app_l by by rewrite length_alter.
  by rewrite list_lookup_alter_ne.
Qed.

End Attachment.

Section Performing.
Context `{DataIndices, Shapely, Runtime, Package}.

Lemma io_bind_inv {A B : Type} (m : io A) (f : A → io B) (fs fs' : files)
    (r : io_exn + B) :
  (m ≫= f) fs = (fs', r) →
  (∃ e, m fs = (fs', inl e) ∧ r = inl e)
  ∨ (∃ fs1 a, m fs = (fs1, inr a) ∧ f a fs1 = (fs', r)).
Proof.
  unfold mbind, io_bind. destruct (m fs) as [fs1 [e|a]].
  - intros [= <- <-]. left. by exists e.
  - intros W. right. by exists fs1, a.
Qed.

Lemma pure_inv {A : Type} (g : files → result A) (fs fs' : files)
    (r : io_exn + A) :
  pure g fs = (fs', r) →
  fs' = fs ∧ ((∃ a, g fs = inr a ∧ r = inr a) ∨ ∃ e, r = inl e).
Proof.
  unfold pure. destruct (g fs) as [e|a]; intros [= <- <-]; split; eauto.
Qed.

Lemma open_read_inv (path : string) (fs fs' : files) (r : io_exn + string) :
  open_read path fs = (fs', r) →
  fs' = fs ∧ ((∃ text, fs !! path = Some text ∧ r = inr text) ∨ ∃ e, r = inl e).
Proof.
  unfold open_read. destruct (fs !! path) as [text|]; intros [= <- <-];
    split; eauto.
Qed.

(** X15: [perform_injection] touches the files only at its last step: when
    it ends, by returning or by raising, with files other than the ones it
    started with, the configuration has been validated if that was asked
    for, the model and the parameters have been read from the files the
    configuration names, the injection has completed, and the only file
    that differs is the output file, which holds what the writer wrote of the
    model as the injection left it. *)
Theorem output_written_after_injection (config : config) (validate : bool)
    (fs fs' : files) (r : io_exn + ()) :
  perform_injection config validate fs = (fs', r) →
  fs' ≠ fs →
  ∃ (input_template_path input_parameters_path input_path : string)
    (input_template_file input_parameters_file : string)
    (template : swmm_input) (input_parameters : params.input_parameters)
    (s : state) (lid_ids : list string),
    (validate = true → validate_config config fs = inr ())
    ∧ config !! "input_template_path" = Some input_template_path
    ∧ config !! "input_parameters_path" = Some input_parameters_path
    ∧ config !! "input_path" = Some input_path
    ∧ fs !! input_template_path = Some input_template_file
    ∧ sir_read input_template_file = inr template
    ∧ fs !! input_parameters_path = Some input_parameters_file
    ∧ json_load input_parameters_file = inr input_parameters
    ∧ inject_parameters_into_input input_parameters template
      = (s, inr lid_ids)
    ∧ fs' = <[input_path := (siw_write (input_template s)).1]> fs.
Proof.
  unfold perform_injection. intros W Hfs.
  apply io_bind_inv in W as [(e & W & ->)|(fs1 & [] & Hval & W)].
  { destruct validate; [apply pure_inv in W as [-> _] | injection W as <-];
      done. }
  assert (fs1 = fs ∧ (validate = true → validate_config config fs = inr ()))
    as [-> Hvalid].
  { destruct validate.
    - apply pure_inv in Hval as [-> [(a & Ha & _)|[e [=]]]]. by destruct a.
    - injection Hval as <-. done. }
  apply io_bind_inv in W as [(e & W & ->)|(fs1 & tpath & Htp & W)].
  { by apply pure_inv in W as [-> _]. }
  apply pure_inv in Htp as [-> [(a & Htp%item_inr & [= <-])|[e [=]]]].
  apply io_bind_inv in W as [(e & W & ->)|(fs1 & ttext & Htt & W)].
  { by apply open_read_inv in W as [-> _]. }
  apply open_read_inv in Htt as [-> [(a & Htt & [= <-])|[e [=]]]].
  apply io_bind_inv in W as [(e & W & ->)|(fs1 & template & Ht & W)].
  { by apply pure_inv in W as [-> _]. }
  apply pure_inv in Ht as [-> [(a & Ht & [= <-])|[e [=]]]].
  apply io_bind_inv in W as [(e & W & ->)|(fs1 & ppath & Hpp & W)].
  { by apply pure_inv in W as [-> _]. }
  apply pure_inv in Hpp as [-> [(a & Hpp%item_inr & [= <-])|[e [=]]]].
  apply io_bind_inv in W as [(e & W & ->)|(fs1 & ptext & Hpt & W)].
  { by apply open_read_inv in W as [-> _]. }
  apply open_read_inv in Hpt as [-> [(a & Hpt & [= <-])|[e [=]]]].
  apply io_bind_inv in W as [(e & W & ->)|(fs1 & parameters & Hp & W)].
  { by apply pure_inv in W as [-> _]. }
  apply pure_inv in Hp as [-> [(a & Hp & [= <-])|[e [=]]]].
  cbv zeta in W.
  apply io_bind_inv in W as [(e & W & ->)|(fs1 & ids & Hinj & W)].
  { by apply pure_inv in W as [-> _]. }
  apply pure_inv in Hinj as [-> [(a & Hinj & [= <-])|[e [=]]]].
  apply io_bind_inv in W as [(e & W & ->)|(fs1 & path & Hpath & W)].
  { by apply pure_inv in W as [-> _]. }
  apply pure_inv in Hpath as [-> [(a & Hpath%item_inr & [= <-])|[e [=]]]].
  unfold open_write in W.
  destruct (creatable fs path); [|by injection W as <-].
  injection W as <- _.
  exists tpath, ppath, path, ttext, ptext, template, parameters,
    (inject_parameters_into_input parameters template).1, ids.
  repeat split; try done.
  by destruct (inject_parameters_into_input parameters template) as [s0 r0];
    simpl in *; subst.
Qed.

End Performing.

Section Sequences.
Context `{DataIndices, Shapely, Runtime}.

Lemma subcatchment_polygons_inr (s s1 : state) (ps : gmap string polygon) :
  subcatchment_polygons s = (s1, inr ps) →
  sc_polygons s1 = Some ps
  ∧ (sc_polygons s = Some ps
     ∨ (sc_polygons s = None
        ∧ extract_subcatchment_polygons (input_template s) = inr ps)).
Proof.
  unfold subcatchment_polygons. destruct (sc_polygons s) as [ps'|] eqn:E.
  - intros [= <- <-]. split; [done|]. by left.
  - destruct (extract_subcatchment_polygons (input_template s)) as [e|ps'];
      intros [= <- <-]. split; [done|]. by right.
Qed.

(** X16: map coordinates take precedence over a zone name given beside
    them: when the location of a LID has coordinates, the LID is placed in
    the zone the coordinates resolve to, against the polygons the run holds
    or, when it holds none yet, the polygons extracted from the model. *)
Theorem coordinates_override_zone_name (lid lid1 : params.lid) (s s1 : state)
    (coordinates : params.coords) :
  params.map (params.location lid) = Some coordinates →
  resolve_placements lid s = (s1, inr lid1) →
  ∃ (ps : gmap string polygon) (sc : string),
    (sc_polygons s = Some ps
     ∨ (sc_polygons s = None
        ∧ extract_subcatchment_polygons (input_template s) = inr ps))
    ∧ sc_polygons s1 = Some ps
    ∧ get_subcatchment_from_map_coords coordinates ps = inr sc
    ∧ params.subcatchment (params.location lid1) = Some sc.
Proof.
  intros Hmap. unfold resolve_placements.
  intros (s2 & lid2 & Hloc & Hdrain)%M_bind_inr.
  unfold resolve_location in Hloc. rewrite Hmap in Hloc.
  apply M_bind_inr in Hloc as (s3 & ps & [Hps Hfrom]%subcatchment_polygons_inr
                                & Hloc).
  apply M_bind_lift_inr in Hloc as (sc & Hsc & [= <- <-]).
  exists ps, sc. split; [done|].
  pose proof (resolve_drainTo_inr _ _ _ _ Hdrain) as (_ & _ & _ & ->).
  split; [|done].
  unfold resolve_drainTo in Hdrain. simpl in Hdrain.
  destruct (params.drainTo lid) as [d|]; [|by injection Hdrain as <- _].
  destruct (params.drain_map d); [|by injection Hdrain as <- _].
  apply M_bind_inr in Hdrain as (s4 & ps' & [Hps' Hfrom']%subcatchment_polygons_inr
                                  & Hdrain).
  apply M_bind_lift_inr in Hdrain as (sc' & _ & [= <- _]).
  destruct Hfrom' as [E|[E _]]; congruence.
Qed.

End Sequences.

Section Search.
Context `{DataIndices, Shapely, Runtime}.

(** X18: the search for the name of a child zone ends: in a model whose
    zone lines with fields all have a name field, it returns the first of the
    names tried that no zone has, after at most as many collisions as the
    model has zone lines. *)
Theorem name_search_is_bounded (input_template : swmm_input)
    (lid_base_sc_name lid_id : string) :
  zones_named input_template →
  ∃ k,
    k ≤ length (sc_lines input_template)
    ∧ unique_lid_sc_name input_template lid_base_sc_name lid_id
      = inr (child_name lid_base_sc_name lid_id k)
    ∧ (∀ j, j < k →
            zone_present input_template (child_name lid_base_sc_name lid_id j))
    ∧ ¬ zone_present input_template (child_name lid_base_sc_name lid_id k).
Proof.
  intros Hnamed.
  destruct (unique_lid_sc_name_named _ lid_base_sc_name lid_id Hnamed)
    as [name Hname].
  destruct (unique_lid_sc_name_inr _ _ _ _ Hname) as (k & -> & Hbefore & Hnone).
  exists k. split; [|split; [done|split; [done|]]].
  - destruct (decide (k ≤ length (sc_lines input_template))) as [|Hgt]; [done|].
    destruct (child_names_not_all_present input_template lid_base_sc_name lid_id).
    intros j Hj. apply Hbefore. lia.
  - by apply get_subcatchment_definition_None.
Qed.

End Search.

Section Preorders.
Context `{DataIndices, Shapely, Runtime}.

Context (R : state → state → Prop) `{!StepInvariant R}.

Lemma kept_bind {A B : Type} (m : M A) (f : A → M B) :
  keeps R m → (∀ a, keeps R (f a)) → keeps R (m ≫= f).
Proof.
  intros Hm Hf s s' r. unfold mbind, M_bind.
  destruct (m s) as [s1 [e|a]] eqn:E.
  - intros [= <- <-]. by eapply Hm.
  - intros W. eapply step_trans; [by eapply Hm | by eapply Hf].
Qed.

Lemma kept_lift {A : Type} (r : result A) : keeps R (lift r).
Proof. intros s s' r' [= <- _]. apply step_refl. Qed.

Lemma kept_ret {A : Type} (a : A) : keeps R (mret a).
Proof. intros s s' r' [= <- _]. apply step_refl. Qed.

Lemma kept_get_template : keeps R get_template.
Proof. intros s s' r' [= <- _]. apply step_refl. Qed.

Lemma kept_set_base (pos : nat) (l : list value) (i : nat) (v : value) :
  keeps R (set_base pos l i v).
Proof.
  unfold set_base. apply kept_bind; [apply kept_lift|]. intros vs.
  apply kept_bind; [|intros; apply kept_ret].
  apply step_zones. intros t k Hk. by apply lookup_write_sc_ne.
Qed.

Lemma kept_split_subcatchment (us : string) (lid : params.lid)
    (lid_id : string) :
  keeps R (split_subcatchment us lid lid_id).
Proof.
  unfold split_subcatchment.
  apply kept_bind; [apply kept_lift|]. intros name.
  apply kept_bind; [apply kept_get_template|]. intros t.
  apply kept_bind; [apply kept_lift|]. intros [[pos old]|];
    [|apply kept_lift].
  apply kept_bind; [apply kept_lift|]. intros lid_sc_name.
  apply kept_bind; [apply kept_lift|]. intros lid_sc.
  apply kept_bind; [apply kept_lift|]. intros [lau sau].
  do 5 (apply kept_bind; [apply kept_lift|]; intros ?).
  apply kept_bind; [apply kept_set_base|]. intros base1.
  match goal with
  | |- context [Qlt_le_dec ?q 0] => destruct (Qlt_le_dec q 0)
  end; [apply kept_lift|].
  do 6 (apply kept_bind; [apply kept_lift|]; intros ?).
  apply kept_bind; [apply kept_set_base|]. intros base2.
  match goal with
  | |- context [Qlt_le_dec ?q 0] => destruct (Qlt_le_dec q 0)
  end; [apply kept_lift|].
  apply kept_bind; [|intros; apply kept_ret].
  apply step_zones. intros t' k Hk. by apply lookup_append_line_ne.
Qed.

(** The loop body keeps what the resolution of the placements and the
    addition of the usage record keep. *)
Lemma kept_inject_lid (us : string) (lid : params.lid) :
  keeps R (resolve_placements lid) →
  (∀ lid2, keeps R (add_lid_usage lid2)) →
  keeps R (inject_lid us lid).
Proof.
  intros Hres Hadd. unfold inject_lid.
  apply kept_bind; [exact Hres|]. intros lid1.
  cbv zeta. apply kept_bind; [apply kept_get_template|]. intros t.
  destruct (t !! "LID_CONTROLS") as [ctl|]; [|apply kept_lift].
  apply kept_bind; [apply kept_lift|]. intros [|first rest];
    [apply kept_lift|].
  apply kept_bind; [apply step_count|]. intros lid_id.
  apply kept_bind; [apply kept_lift|]. intros v.
  apply kept_bind.
  { destruct (value_eqb v "RB"); [apply kept_split_subcatchment|].
    apply kept_bind; [apply step_warn|]. intros; apply kept_ret. }
  intros lid2.
  apply kept_bind; [apply Hadd|]. intros; apply kept_ret.
Qed.

End Preorders.

Section Cache.
Context `{DataIndices, Shapely, Runtime}.

Lemma polygons_kept_refl (s : state) : polygons_kept s s.
Proof.
  split; [done|]. split; [done|]. intros E ps Hps. congruence.
Qed.

Lemma polygons_kept_trans (s1 s2 s3 : state) :
  polygons_kept s1 s2 → polygons_kept s2 s3 → polygons_kept s1 s3.
Proof.
  intros (P1 & K1 & N1) (P2 & K2 & N2). split; [congruence|]. split.
  - intros ps Hps. by apply K2, K1.
  - intros Hnone ps Hps.
    destruct (sc_polygons s2) as [ps2|] eqn:E2.
    + rewrite (K2 ps2 eq_refl) in Hps. injection Hps as <-.
      by apply N1.
    + rewrite <- (extract_subcatchment_polygons_ext (input_template s1)
                    (input_template s2) P1).
      by apply N2.
Qed.

Lemma polygons_kept_modify (f : swmm_input → swmm_input) :
  (∀ t, f t !! "POLYGONS" = t !! "POLYGONS") →
  keeps polygons_kept (modify_template f).
Proof.
  intros Hf s s' r [= <- _]. split; [apply Hf|]. simpl.
  split; [done|]. intros E ps Hps. congruence.
Qed.

Lemma polygons_kept_subcatchment_polygons :
  keeps polygons_kept subcatchment_polygons.
Proof.
  intros s s' r. unfold subcatchment_polygons.
  destruct (sc_polygons s) as [ps|] eqn:Eps.
  - intros [= <- _]. apply polygons_kept_refl.
  - destruct (extract_subcatchment_polygons (input_template s)) as [e|ps] eqn:E.
    + intros [= <- _]. apply polygons_kept_refl.
    + intros [= <- _]. split; [done|]. simpl. split; [congruence|].
      intros _ ps' [= <-]. done.
Qed.

#[global] Instance polygons_kept_invariant : StepInvariant polygons_kept.
Proof.
  split.
  - apply polygons_kept_refl.
  - apply polygons_kept_trans.
  - intros f Hf. apply polygons_kept_modify. intros t. by apply Hf.
  - intros ty s s' r [= <- _]. split; [done|]. split; [done|].
    simpl. intros E ps Hps. congruence.
  - intros v s s' r [= <- _]. split; [done|]. split; [done|].
    simpl. intros E ps Hps. congruence.
Qed.

Lemma polygons_kept_resolve_placements (lid : params.lid) :
  keeps polygons_kept (resolve_placements lid).
Proof.
  unfold resolve_placements. apply (kept_bind polygons_kept); [ |].
  - unfold resolve_location. destruct (params.map (params.location lid)).
    + apply (kept_bind polygons_kept); [apply polygons_kept_subcatchment_polygons|].
      intros ps. apply (kept_bind polygons_kept); [by apply (kept_lift polygons_kept)|].
      intros; by apply (kept_ret polygons_kept).
    + by apply (kept_ret polygons_kept).
  - intros lid1. unfold resolve_drainTo.
    destruct (params.drainTo lid1) as [d|]; [|by apply (kept_ret polygons_kept)].
    destruct (params.drain_map d); [|by apply (kept_ret polygons_kept)].
    apply (kept_bind polygons_kept); [apply polygons_kept_subcatchment_polygons|].
    intros ps. apply (kept_bind polygons_kept); [by apply (kept_lift polygons_kept)|].
    intros; by apply (kept_ret polygons_kept).
Qed.

Lemma lookup_add_usage_ne (vs : list value) (t : swmm_input) (k : string) :
  k ≠ "LID_USAGE" →
  append_line "LID_USAGE" (Line vs None)
    (match t !! "LID_USAGE" with
     | Some _ => t
     | None => <["LID_USAGE" := Section_ [] None]> t
     end) !! k = t !! k.
Proof.
  intros Hk. rewrite lookup_append_line_ne by done.
  destruct (t !! "LID_USAGE"); [done|]. by rewrite lookup_insert_ne.
Qed.

Lemma polygons_kept_inject_lid (us : string) (lid : params.lid) :
  keeps polygons_kept (inject_lid us lid).
Proof.
  apply (kept_inject_lid polygons_kept); [ |].
  - apply polygons_kept_resolve_placements.
  - intros lid2. unfold add_lid_usage. apply (kept_bind polygons_kept); [ |].
    + by apply (kept_lift polygons_kept).
    + intros vs. apply polygons_kept_modify. intros t.
      by apply lookup_add_usage_ne.
Qed.

#[global] Instance polygons_untouched_invariant :
  StepInvariant polygons_untouched.
Proof.
  split; try done.
  - unfold polygons_untouched. congruence.
  - by intros f _ s s' r [= <- _].
  - by intros ty s s' r [= <- _].
  - by intros v s s' r [= <- _].
Qed.

Lemma resolve_placements_no_map (lid : params.lid) (s : state) :
  uses_map lid = false → resolve_placements lid s = (s, inr lid).
Proof.
  unfold uses_map, resolve_placements, resolve_location.
  destruct (params.map (params.location lid)); [done|].
  unfold mbind, M_bind, mret, M_ret, resolve_drainTo.
  destruct (params.drainTo lid) as [d|]; [|done].
  destruct (params.drain_map d); [|done].
  intros E. apply bool_decide_eq_false in E. destruct E. by eexists.
Qed.

Lemma polygons_untouched_inject_lid (us : string) (lid : params.lid) :
  uses_map lid = false →
  keeps polygons_untouched (inject_lid us lid).
Proof.
  intros Hmap. apply (kept_inject_lid polygons_untouched); [ |].
  - intros s s' r. rewrite (resolve_placements_no_map lid s Hmap).
    by intros [= <- _].
  - intros lid2. unfold add_lid_usage. apply (kept_bind polygons_untouched); [ |].
    + by apply (kept_lift polygons_untouched).
    + intros vs. by intros s s' r [= <- _].
Qed.

(** X2: the polygons are extracted lazily, once, and kept.  Through the loop
    over the LIDs, from any state: polygons that are held at the start are
    the ones held at the end; when none are held at the start, polygons held
    at the end are the extraction from the model as it was at the start, and
    also from the model as it is at the end; and when no LID gives map
    coordinates, for its location or for its drain point, the polygons held,
    or their absence, are as at the start, so that nothing is extracted.  It
    holds whether the loop completes or a LID is rejected. *)
Theorem polygons_extracted_once (us : string) (lids : list params.lid)
    (s s' : state) (r : result (list string)) :
  inject_lids us lids s = (s', r) →
  (∀ ps, sc_polygons s = Some ps → sc_polygons s' = Some ps)
  ∧ (sc_polygons s = None →
     ∀ ps, sc_polygons s' = Some ps →
           extract_subcatchment_polygons (input_template s) = inr ps
           ∧ extract_subcatchment_polygons (input_template s') = inr ps)
  ∧ ((∀ lid, lid ∈ lids → uses_map lid = false) →
     sc_polygons s' = sc_polygons s).
Proof.
  intros W.
  assert (K : polygons_kept s s').
  { revert s s' r W. change (keeps polygons_kept (inject_lids us lids)).
    induction lids as [|lid lids IH]; simpl.
    - by apply (kept_ret polygons_kept).
    - apply (kept_bind polygons_kept); [apply polygons_kept_inject_lid |].
      intros lid_id. apply (kept_bind polygons_kept); [apply IH |].
      intros. by apply (kept_ret polygons_kept). }
  destruct K as (P & K & N). split; [done|]. split.
  - intros Hnone ps Hps. split; [by apply N|].
    rewrite (extract_subcatchment_polygons_ext (input_template s)
               (input_template s') P).
    by apply N.
  - clear P K N. revert s s' r W.
    induction lids as [|lid lids IH]; intros s s' r W Hmaps.
    + by injection W as <- _.
    + simpl in W. unfold mbind, M_bind in W.
      destruct (inject_lid us lid s) as [s1 [e|lid_id]] eqn:E1.
      * injection W as <- _.
        eapply (polygons_untouched_inject_lid us lid); [|done].
        apply Hmaps. by left.
      * assert (U1 : sc_polygons s1 = sc_polygons s).
        { eapply (polygons_untouched_inject_lid us lid); [|done].
          apply Hmaps. by left. }
        destruct (inject_lids us lids s1) as [s2 [e|lid_ids]] eqn:E2;
          injection W as <- _; rewrite <- U1;
          (eapply IH; [done|]); intros; apply Hmaps; by right.
Qed.

End Cache.

Section Rejection.
Context `{DataIndices, Shapely, Runtime}.

#[global] Instance usage_kept_invariant : StepInvariant usage_kept.
Proof.
  split; try done.
  - unfold usage_kept. congruence.
  - intros f Hf s s' r [= <- _]. by apply Hf.
  - by intros ty s s' r [= <- _].
  - by intros v s s' r [= <- _].
Qed.

Lemma raising_of_keeps (R : state → state → Prop) {A : Type} (m : M A) :
  keeps R m → keeps_when_raising R m.
Proof. intros K s s' e. apply K. Qed.

Lemma raising_bind (R : state → state → Prop) `{!StepInvariant R}
    {A B : Type} (m : M A) (f : A → M B) :
  keeps R m → (∀ a, keeps_when_raising R (f a)) →
  keeps_when_raising R (m ≫= f).
Proof.
  intros Hm Hf s s' e. unfold mbind, M_bind.
  destruct (m s) as [s1 [e1|a]] eqn:E.
  - intros [= <- _]. by eapply Hm.
  - intros W. eapply step_trans; [by eapply Hm | by eapply Hf].
Qed.

Lemma usage_kept_resolve_placements (lid : params.lid) :
  keeps usage_kept (resolve_placements lid).
Proof.
  assert (Hp : keeps usage_kept subcatchment_polygons).
  { intros s s' r. unfold subcatchment_polygons.
    destruct (sc_polygons s); [by intros [= <- _]|].
    destruct (extract_subcatchment_polygons (input_template s));
      by intros [= <- _]. }
  unfold resolve_placements. apply (kept_bind usage_kept).
  - unfold resolve_location. destruct (params.map (params.location lid));
      [|by apply (kept_ret usage_kept)].
    apply (kept_bind usage_kept); [done|]. intros ps.
    apply (kept_bind usage_kept); [by apply (kept_lift usage_kept)|].
    intros; by apply (kept_ret usage_kept).
  - intros lid1. unfold resolve_drainTo.
    destruct (params.drainTo lid1) as [d|]; [|by apply (kept_ret usage_kept)].
    destruct (params.drain_map d); [|by apply (kept_ret usage_kept)].
    apply (kept_bind usage_kept); [done|]. intros ps.
    apply (kept_bind usage_kept); [by apply (kept_lift usage_kept)|].
    intros; by apply (kept_ret usage_kept).
Qed.

(** A LID that is rejected leaves the usage section as it was. *)
Lemma inject_lid_rejected (us : string) (lid : params.lid) :
  keeps_when_raising usage_kept (inject_lid us lid).
Proof.
  unfold inject_lid.
  apply (raising_bind usage_kept); [apply usage_kept_resolve_placements|].
  intros lid1. cbv zeta.
  apply (raising_bind usage_kept); [apply (kept_get_template usage_kept)|]. intros t.
  destruct (t !! "LID_CONTROLS") as [ctl|];
    [|apply raising_of_keeps, (kept_lift usage_kept)].
  apply (raising_bind usage_kept); [apply (kept_lift usage_kept)|].
  intros [|first rest]; [apply raising_of_keeps, (kept_lift usage_kept)|].
  apply (raising_bind usage_kept); [apply (step_count (R := usage_kept))|]. intros lid_id.
  apply (raising_bind usage_kept); [apply (kept_lift usage_kept)|]. intros v.
  apply (raising_bind usage_kept); [ |].
  { destruct (value_eqb v "RB");
      [apply (kept_split_subcatchment usage_kept)|].
    apply (kept_bind usage_kept); [apply (step_warn (R := usage_kept))|].
    intros; apply (kept_ret usage_kept). }
  intros lid2 s s' e. unfold add_lid_usage, mbind, M_bind, lift.
  destruct (lid_values lid2) as [e'|vs]; [by intros [= <- _]|].
  unfold modify_template, mret, M_ret. discriminate.
Qed.

(** X17: the loop over the LIDs does not roll back.  When it is rejected, a
    LID of the list raised the error from the state in which the LIDs before
    it, all injected, had left the run, and the usage section holds the
    records that were there followed by one record for each of those earlier
    LIDs and none for the rejected one. *)
Theorem rejected_run_keeps_earlier_records (us : string)
    (lids : list params.lid) (s s' : state) (e : exn) :
  inject_lids us lids s = (s', inl e) →
  ∃ n lid s1 lid_ids records,
    lids !! n = Some lid
    ∧ inject_lids us (take n lids) s = (s1, inr lid_ids)
    ∧ inject_lid us lid s1 = (s', inl e)
    ∧ usage_lines (input_template s')
      = usage_lines (input_template s) ++ records
    ∧ length records = n.
Proof.
  revert s. induction lids as [|lid lids IH]; intros s W; [done|].
  simpl in W. unfold mbind, M_bind in W.
  destruct (inject_lid us lid s) as [s0 [e0|lid_id]] eqn:E0.
  - injection W as <- <-. exists 0, lid, s, [], []. split; [done|].
    split; [done|]. split; [done|]. split; [|done].
    rewrite app_nil_r. unfold usage_lines.
    by rewrite (inject_lid_rejected us lid s s0 e0 E0).
  - destruct (inject_lids us lids s0) as [s2 [e2|ids]] eqn:E2; [|done].
    injection W as <- <-.
    destruct (IH s0 E2) as (n & lid' & s1 & ids & records & Hn & Ht & Hl & Hu & Hlen).
    destruct (inject_lid_effect _ _ _ _ _ E0)
      as (lid2 & vs & _ & _ & _ & _ & Husage & _).
    exists (S n), lid', s1, (lid_id :: ids), (Line vs None :: records).
    split; [done|]. split; [|split; [done|split]].
    + simpl. unfold mbind, M_bind. by rewrite E0, Ht.
    + by rewrite Hu, Husage, <- app_assoc.
    + simpl. by rewrite Hlen.
Qed.

End Rejection.

(** ** The statements on the worked examples *)

Section Examples.
#[local] Existing Instance swmm5_indices.
#[local] Existing Instance ring_shapely.
#[local] Existing Instance si_runtime.

Lemma example_zone_lines : sc_lines example_template = [Line s1_fields None].
Proof. vm_compute. reflexivity. Qed.

Lemma example_catalog (lid_type : string) :
  lid_type = "RB" ∨ lid_type = "BC" →
  catalog_type example_template lid_type (VStr lid_type).
Proof.
  intros [->| ->]; eexists _, _, _;
    (split; [vm_compute; reflexivity|]); split; vm_compute; reflexivity.
Qed.

Lemma example_zones_named : zones_named example_template.
Proof.
  intros l. rewrite example_zone_lines. intros ->%list_elem_of_singleton.
  right. by eexists.
Qed.

Lemma example_host :
  get_subcatchment_definition example_template "S1"
  = inr (Some (0, s1_fields)).
Proof. vm_compute. reflexivity. Qed.

Lemma example_split :
  split_subcatchment "SI" rain_barrel "RB_1" example_start
  = (after_split, inr rain_barrel_in_child).
Proof. vm_compute. reflexivity. Qed.

Lemma example_run :
  inject_parameters_into_input (one_lid rain_barrel) example_template
  = (after_run "SI" [rain_barrel], inr ["RB_1"]).
Proof. vm_compute. reflexivity. Qed.

Lemma example_run_of_two :
  inject_parameters_into_input
    (params.InputParameters (Some [rain_barrel; rain_barrel])) example_template
  = (after_run "SI" [rain_barrel; rain_barrel], inr ["RB_1"; "RB_2"]).
Proof. vm_compute. reflexivity. Qed.

Lemma example_zones_nonneg : Forall zone_nonneg (sc_lines example_template).
Proof.
  rewrite example_zone_lines. apply Forall_singleton.
  split; intros v q [= <-] Hq; vm_compute in Hq; by injection Hq as <-.
Qed.

(** A bio-retention cell is injected under a unit system that is not known. *)
Lemma bio_cell_under_unknown_units :
  @inject_parameters_into_input swmm5_indices ring_shapely (runtime_of "XX")
    (one_lid bio_cell) example_template
  = (after_run "XX" [bio_cell], inr ["BC_1"]).
Proof. vm_compute. reflexivity. Qed.

(** The zones of the disjoint squares, but for S1 and with it. *)
Lemma disjoint_polygons_others (point : Q * Q) :
  ring_contains (square 3 0 2) point = false →
  ∀ sc' p', disjoint_polygons !! sc' = Some p' → sc' ≠ "S1" →
            ring_contains p' point = false.
Proof.
  intros Hout sc' p' Hl Hne. unfold disjoint_polygons in Hl.
  apply lookup_insert_Some in Hl as [[<- <-]|[_ Hl]]; [done|].
  apply lookup_insert_Some in Hl as [[<- <-]|[_ Hl]]; [done|].
  by rewrite lookup_empty in Hl.
Qed.

Lemma disjoint_polygons_all (point : Q * Q) :
  ring_contains (square 0 0 2) point = false →
  ring_contains (square 3 0 2) point = false →
  ∀ sc p, disjoint_polygons !! sc = Some p → ring_contains p point = false.
Proof.
  intros Hout1 Hout2 sc p Hl. unfold disjoint_polygons in Hl.
  apply lookup_insert_Some in Hl as [[<- <-]|[_ Hl]]; [done|].
  apply lookup_insert_Some in Hl as [[<- <-]|[_ Hl]]; [done|].
  by rewrite lookup_empty in Hl.
Qed.

Lemma crowded_zone_lines :
  sc_lines crowded_template
  = [Line s1_fields None;
     text_line ["S1##RB_1"; "RG1"; "J1"; "0.5"; "0"; "100"; "0.5"; "0"]].
Proof. vm_compute. reflexivity. Qed.

Lemma crowded_zones_named : zones_named crowded_template.
Proof.
  intros l. rewrite crowded_zone_lines.
  intros [->| ->%list_elem_of_singleton]%elem_of_cons; right; by eexists.
Qed.

Lemma crowded_zone_present (n : string) :
  zone_present crowded_template n ↔ n = "S1" ∨ n = "S1##RB_1".
Proof.
  unfold zone_present. rewrite crowded_zone_lines. split.
  - intros (l & [->| ->%list_elem_of_singleton]%elem_of_cons & Hn);
      vm_compute in Hn; injection Hn as <-; auto.
  - intros [->| ->].
    + exists (Line s1_fields None). split; [by left|reflexivity].
    + eexists. split; [right; by left|reflexivity].
Qed.

Lemma crowded_split :
  split_subcatchment "SI" rain_barrel "RB_1" crowded_start
  = (after_crowded_split,
     inr (set_location_subcatchment rain_barrel "S1##RB_1###1")).
Proof. vm_compute. reflexivity. Qed.

Lemma negative_run :
  @inject_parameters_into_input swmm5_indices ring_shapely
    (unchecked_runtime "SI") (one_lid negative_rain_barrel) example_template
  = (after_negative_run, inr ["RB_1"]).
Proof. vm_compute. reflexivity. Qed.

Lemma negative_run_child :
  sc_lines (input_template after_negative_run) !! 1
  = Some (Line [VStr "S1##RB_1"; VStr "RG1"; VStr "J1"; VNum (-50 # 10000);
                VNum 0; VStr "100"; VStr "0.5"; VStr "0"]
               (Some "-1 LID units. (Added by OSTRICH-SWMM.)")).
Proof. vm_compute. reflexivity. Qed.

(** C3 as it is stated: nothing in the injection looks at the sign of the
    unit count or of the area of a LID.  A rain barrel with the unit count -1
    in S1 is injected without an error, and its child zone gets the area
    -0.005. *)
Lemma negative_count_gives_negative_area :
  ¬ (∀ (D : DataIndices) (S : Shapely) (R : Runtime)
       (input_parameters : params.input_parameters) (template : swmm_input)
       (s' : state) (lid_ids : list string),
       sc_area_index ≠ sc_imperv_index →
       Forall zone_nonneg (sc_lines template) →
       inject_parameters_into_input input_parameters template
       = (s', inr lid_ids) →
       Forall zone_nonneg (sc_lines (input_template s'))).
Proof.
  intros Hclaim.
  pose proof (Hclaim swmm5_indices ring_shapely (unchecked_runtime "SI")
                (one_lid negative_rain_barrel) example_template
                after_negative_run ["RB_1"]) as Hall.
  specialize (Hall ltac:(vm_compute; discriminate) example_zones_nonneg
                negative_run).
  rewrite Forall_lookup in Hall.
  destruct (Hall 1 _ negative_run_child) as [Harea _].
  specialize (Harea (VNum (-50 # 10000)) (-50 # 10000)%Q eq_refl eq_refl).
  vm_compute in Harea. by apply Harea.
Qed.

Lemma far_bio_cell_rejected :
  (inject_lid "SI" far_bio_cell mapped_start).2
  = inl (ValueError [Text "Coordinates ("; Float 10; Text ", "; Float 10;
                     Text ") not found in subcatchments."]).
Proof.
  vm_cast_no_check
    (eq_refl (inject_lid "SI" far_bio_cell mapped_start).2).
Qed.

Lemma unplaced_bio_cell_rejected :
  (inject_lid "SI" unplaced_bio_cell example_start).2
  = inl (KeyError "subcatchment").
Proof. vm_compute. reflexivity. Qed.

(** C6 as it is stated: a bio-retention cell placed by the coordinates of a
    point that lies in no zone is rejected with the error of the coordinate
    lookup, and one whose location names no zone and gives no coordinates
    with the error of the dictionary lookup. *)
Lemma unsupported_type_can_fail :
  catalog_type mapped_template "BC" (VStr "BC")
  ∧ catalog_type example_template "BC" (VStr "BC")
  ∧ (inject_lid "SI" far_bio_cell mapped_start).2
    = inl (ValueError [Text "Coordinates ("; Float 10; Text ", "; Float 10;
                       Text ") not found in subcatchments."])
  ∧ (inject_lid "SI" unplaced_bio_cell example_start).2
    = inl (KeyError "subcatchment")
  ∧ ¬ (∀ (D : DataIndices) (S : Shapely) (R : Runtime) (us : string)
         (lid : params.lid) (s : state) (v : value),
         catalog_type (input_template s) (params.type lid) v →
         v ≠ VStr "RB" →
         ∃ s' lid_id, inject_lid us lid s = (s', inr lid_id)).
Proof.
  assert (Hm : catalog_type mapped_template "BC" (VStr "BC")).
  { eexists _, _, _. split; [vm_compute; reflexivity|].
    split; vm_compute; reflexivity. }
  assert (He : catalog_type example_template "BC" (VStr "BC")).
  { eexists _, _, _. split; [vm_compute; reflexivity|].
    split; vm_compute; reflexivity. }
  split; [done|]. split; [done|].
  split; [exact far_bio_cell_rejected|].
  split; [exact unplaced_bio_cell_rejected|].
  intros Hclaim.
  destruct (Hclaim swmm5_indices ring_shapely si_runtime "SI" far_bio_cell
              mapped_start (VStr "BC") Hm ltac:(discriminate))
    as (s' & lid_id & E).
  pose proof far_bio_cell_rejected as F. rewrite E in F. discriminate F.
Qed.
(** C7 as it is stated: a bio-retention cell goes through whatever the unit
    system is, so that an unknown unit system does not make every run fail. *)
Lemma unknown_unit_system_unnoticed :
  ¬ (∀ (D : DataIndices) (S : Shapely) (R : Runtime)
       (input_parameters : params.input_parameters)
       (input_template : swmm_input) (us : string),
       get_unit_system input_template = inr us →
       us ≠ "US" → us ≠ "SI" →
       ∃ s' message,
         inject_parameters_into_input input_parameters input_template
         = (s', inl (ConfigException message))).
Proof.
  intros Hclaim.
  destruct (Hclaim swmm5_indices ring_shapely (runtime_of "XX")
              (one_lid bio_cell) example_template "XX")
    as (s' & message & E); [reflexivity | done | done |].
  rewrite bio_cell_under_unknown_units in E. discriminate E.
Qed.

Lemma split_conserves_impervious_area_witness :
  ∃ (name : string) (pos : nat) (old : list value) (lau sau : units.unit)
    (va vp : value) (A p L A' p' : Q) (new : line),
    params.subcatchment (params.location rain_barrel) = Some name
    ∧ get_subcatchment_definition (input_template example_start) name
      = inr (Some (pos, old))
    ∧ old !! sc_area_index = Some va ∧ float va = inr A
    ∧ old !! sc_imperv_index = Some vp ∧ float vp = inr p
    ∧ area_units "SI" = inr (lau, sau)
    ∧ sc_lines (input_template after_split) !! pos = Some new
    ∧ values new !! sc_area_index = Some (VNum A')
    ∧ values new !! sc_imperv_index = Some (VNum p')
    ∧ (L == inject_Z (params.number rain_barrel) * params.area rain_barrel
            * area_factor lau sau
       ∧ A' == A - L
       ∧ p / 100 * A == p' / 100 * A' + L
       ∧ p' / 100 == (p / 100 * A - L) / (A - L))%Q.
Proof.
  apply (split_conserves_impervious_area "SI" rain_barrel "RB_1"
           example_start after_split rain_barrel_in_child).
  - vm_compute. discriminate.
  - vm_compute. reflexivity.
Defined.

Lemma oversized_rain_barrel_rejected_witness :
  ∃ s',
    inject_lid "SI" oversized_rain_barrel example_start
    = (s', inl (below_zero_area (next_id example_start "RB") "S1"))
    ∧ input_template s' !! "LID_USAGE"
      = input_template example_start !! "LID_USAGE"
    ∧ length (sc_lines (input_template s'))
      = length (sc_lines (input_template example_start)).
Proof.
  apply (oversized_rain_barrel_rejected "SI" oversized_rain_barrel
           oversized_rain_barrel example_start example_start "S1" 0 s1_fields
           units.m2 units.hectare (VStr "2.0") 2).
  - reflexivity.
  - apply example_catalog. by left.
  - reflexivity.
  - exact example_zones_named.
  - exact example_host.
  - reflexivity.
  - reflexivity.
  - vm_compute. reflexivity.
  - vm_compute. reflexivity.
Defined.

Lemma injection_keeps_zones_nonneg_witness :
  Forall zone_nonneg (sc_lines (input_template (after_run "SI" [rain_barrel])))
  ∧ length (sc_lines example_template)
    ≤ length (sc_lines (input_template (after_run "SI" [rain_barrel])))
  ∧ ∀ i l,
      length (sc_lines example_template) ≤ i →
      sc_lines (input_template (after_run "SI" [rain_barrel])) !! i = Some l →
      zone_created_ok l.
Proof.
  apply (injection_keeps_zones_nonneg (one_lid rain_barrel) example_template
           (after_run "SI" [rain_barrel]) ["RB_1"]).
  - vm_compute. discriminate.
  - apply Forall_singleton. vm_compute. discriminate.
  - exact example_zones_nonneg.
  - exact example_run.
Defined.

Lemma coords_resolve_by_containment_witness :
  get_subcatchment_from_map_coords (params.Coords 1 1) disjoint_polygons
  = inr "S1"
  ∧ get_subcatchment_from_map_coords (params.Coords 10 10) disjoint_polygons
    = inl (ValueError [Text "Coordinates ("; Float 10; Text ", "; Float 10;
                       Text ") not found in subcatchments."]).
Proof.
  split.
  - apply (proj1 (coords_resolve_by_containment disjoint_polygons
                    (params.Coords 1 1)) "S1" (square 0 0 2)).
    + reflexivity.
    + vm_compute. reflexivity.
    + apply disjoint_polygons_others. vm_compute. reflexivity.
  - apply (proj2 (coords_resolve_by_containment disjoint_polygons
                    (params.Coords 10 10))).
    apply disjoint_polygons_all; vm_compute; reflexivity.
Defined.

Lemma ids_and_child_names_are_fresh_witness :
  (let lids := [rain_barrel; rain_barrel] in
   length ["RB_1"; "RB_2"] = length lids
   ∧ (∀ i lid, lids !! i = Some lid →
        ["RB_1"; "RB_2"] !! i
        = Some (params.type lid +:+ "_"
                +:+ pretty (occurrences (params.type lid) (take (S i) lids))))
   ∧ (∀ i j li lj,
        i ≠ j → lids !! i = Some li → lids !! j = Some lj →
        params.type li = params.type lj →
        ["RB_1"; "RB_2"] !! i ≠ ["RB_1"; "RB_2"] !! j))
  ∧ unique_lid_sc_name crowded_template "S1" "RB_1" = inr "S1##RB_1###1"
  ∧ (unique_lid_sc_name example_template "S1" "RB_1" = inr "S1##RB_1"
     ∧ ∃ child,
         last (sc_lines (input_template after_split)) = Some child
         ∧ values child !! sc_name_index = Some (VStr "S1##RB_1"))
  ∧ ∃ child,
      last (sc_lines (input_template after_crowded_split)) = Some child
      ∧ values child !! sc_name_index = Some (VStr "S1##RB_1###1").
Proof.
  destruct ids_and_child_names_are_fresh as (Hids & Hsearch & Hsplit).
  split; [|split; [|split]].
  - apply (Hids (params.InputParameters (Some [rain_barrel; rain_barrel]))
             example_template (after_run "SI" [rain_barrel; rain_barrel])
             ["RB_1"; "RB_2"]).
    exact example_run_of_two.
  - destruct (Hsearch crowded_template "S1" "RB_1" crowded_zones_named)
      as (k & _ & Hname & Hbefore & Hfree).
    destruct k as [|[|k]].
    + destruct Hfree. apply crowded_zone_present. by right.
    + exact Hname.
    + assert (Hone : 1 < S (S k)) by lia.
      apply Hbefore, crowded_zone_present in Hone. by destruct Hone.
  - destruct (Hsplit "SI" rain_barrel "RB_1" example_start after_split
                rain_barrel_in_child example_split)
      as (base & k & [= <-] & Hname & [= Hchild] & _ & _ & Hlast).
    rewrite <- Hchild in Hname, Hlast. split; [exact Hname|].
    by apply Hlast.
  - destruct (Hsplit "SI" rain_barrel "RB_1" crowded_start after_crowded_split
                _ crowded_split)
      as (base & k & _ & _ & [= Hchild] & _ & _ & Hlast).
    rewrite <- Hchild in Hlast. by apply Hlast.
Defined.
Lemma unsupported_type_passes_through_witness :
  ∃ s' vs,
    inject_lid "SI" bio_cell example_start
    = (s', inr (next_id example_start "BC"))
    ∧ lid_values bio_cell = inr vs
    ∧ input_template s' !! "SUBCATCHMENTS"
      = input_template example_start !! "SUBCATCHMENTS"
    ∧ warnings s' = warnings example_start ++ [unsupported_warning (VStr "BC")]
    ∧ usage_lines (input_template s')
      = usage_lines (input_template example_start) ++ [Line vs None].
Proof.
  apply (unsupported_type_passes_through "SI" bio_cell bio_cell
           example_start example_start (VStr "BC")).
  - reflexivity.
  - left. by eexists.
  - apply example_catalog. by right.
  - discriminate.
Defined.

Lemma unknown_unit_system_rejected_witness :
  (∃ s',
     inject_lid "XX" rain_barrel example_start
     = (s', inl (unknown_unit_system "XX"))
     ∧ input_template s' = input_template example_start)
  ∧ inject_lid "XX" bio_cell example_start
    = inject_lid "SI" bio_cell example_start.
Proof.
  split.
  - apply (proj1 unknown_unit_system_rejected "XX" rain_barrel rain_barrel
             example_start example_start "S1" 0 s1_fields).
    + reflexivity.
    + apply example_catalog. by left.
    + reflexivity.
    + exact example_zones_named.
    + exact example_host.
    + discriminate.
    + discriminate.
  - apply (proj2 unknown_unit_system_rejected "XX" "SI" bio_cell
             example_start).
    vm_compute. reflexivity.
Defined.

Lemma scenario_one_rain_barrel_witness :
  ∃ s' host_area host_imperv child_area,
    inject_parameters_into_input (one_lid rain_barrel) example_template
    = (s', inr ["RB_1"])
    ∧ sc_lines (input_template s')
      = [Line [VStr "S1"; VStr "RG1"; VStr "J1"; VNum host_area;
               VNum host_imperv; VStr "100"; VStr "0.5"; VStr "0"] None;
         Line [VStr "S1##RB_1"; VStr "RG1"; VStr "J1"; VNum child_area;
               VNum 0; VStr "100"; VStr "0.5"; VStr "0"]
              (Some "1 LID units. (Added by OSTRICH-SWMM.)")]
    ∧ (child_area == 0.005 ∧ host_area == 1.995
       ∧ host_imperv == 31900 # 399
       ∧ 0 <= host_imperv ∧ host_imperv < 80)%Q.
Proof.
  apply (@scenario_one_rain_barrel ring_shapely si_runtime).
  - reflexivity.
  - vm_compute. reflexivity.
  - vm_compute. reflexivity.
  - vm_compute. reflexivity.
Defined.

Lemma split_child_copies_base_witness :
  ∃ (name : string) (pos : nat) (old : list value) (child : line),
    params.subcatchment (params.location rain_barrel) = Some name
    ∧ get_subcatchment_definition (input_template example_start) name
      = inr (Some (pos, old))
    ∧ length (sc_lines (input_template after_split))
      = S (length (sc_lines (input_template example_start)))
    ∧ last (sc_lines (input_template after_split)) = Some child
    ∧ length (values child) = length old
    ∧ ∀ i, i ≠ sc_name_index → i ≠ sc_area_index → i ≠ sc_imperv_index →
        values child !! i = old !! i.
Proof.
  apply (split_child_copies_base "SI" rain_barrel "RB_1" example_start
           after_split rain_barrel_in_child).
  exact example_split.
Defined.

Lemma coords_resolve_to_first_containing_witness :
  ∃ before sc p after,
    iteritems overlapping_polygons = before ++ (sc, p) :: after
    ∧ Forall (λ item, contains item.2 (3 # 2, 3 # 2)%Q = false) before
    ∧ contains p (3 # 2, 3 # 2)%Q = true
    ∧ get_subcatchment_from_map_coords (params.Coords (3 # 2) (3 # 2))
        overlapping_polygons = inr sc.
Proof.
  apply (coords_resolve_to_first_containing overlapping_polygons
           (params.Coords (3 # 2) (3 # 2)) "S1" "S2"
           (square 0 0 2) (square 1 1 2)).
  - discriminate.
  - reflexivity.
  - vm_compute. reflexivity.
  - reflexivity.
  - vm_compute. reflexivity.
Defined.

End Examples.

(** ** Further statements on the worked examples *)

Section MoreExamples.
#[local] Existing Instance swmm5_indices.
#[local] Existing Instance ring_shapely.
#[local] Existing Instance si_runtime.
#[local] Existing Instance example_package.

Lemma mapped_run :
  inject_parameters_into_input (one_lid mapped_bio_cell) mapped_template
  = (after_mapped_run, inr ["BC_1"]).
Proof.
  vm_cast_no_check
    (eq_refl (inject_parameters_into_input (one_lid mapped_bio_cell)
                mapped_template)).
Qed.

Lemma mapped_resolve :
  resolve_placements mapped_bio_cell mapped_start
  = (State mapped_template (Some (<["S1" := square 0 0 2]> ∅)) ∅ [],
     inr (set_location_subcatchment mapped_bio_cell "S1")).
Proof.
  vm_cast_no_check (eq_refl (resolve_placements mapped_bio_cell mapped_start)).
Qed.

Lemma example_inject_lid :
  inject_lid "SI" rain_barrel example_start
  = (after_run "SI" [rain_barrel], inr "RB_1").
Proof. vm_compute. reflexivity. Qed.

Lemma example_zone_absent : ¬ zone_present example_template "S9".
Proof.
  intros (l & Hl & Hn). rewrite example_zone_lines in Hl.
  apply list_elem_of_singleton in Hl as ->. vm_compute in Hn. discriminate.
Qed.

Lemma injection_writes_two_sections_witness :
  input_template (after_run "SI" [rain_barrel]) !! "LID_CONTROLS"
  = example_template !! "LID_CONTROLS".
Proof.
  apply (injection_writes_two_sections (one_lid rain_barrel) example_template
           (after_run "SI" [rain_barrel]) (inr ["RB_1"]) "LID_CONTROLS").
  - exact example_run.
  - discriminate.
  - discriminate.
Defined.

Lemma mapped_loop :
  inject_lids "SI" [mapped_bio_cell] mapped_start
  = (after_mapped_run, inr ["BC_1"]).
Proof. exact mapped_run. Qed.

Lemma example_loop :
  inject_lids "SI" [rain_barrel] example_start
  = (after_run "SI" [rain_barrel], inr ["RB_1"]).
Proof. exact example_run. Qed.

Lemma polygons_extracted_once_witness :
  extract_subcatchment_polygons mapped_template
  = inr (<["S1" := square 0 0 2]> ∅)
  ∧ sc_polygons (inject_lids "SI" [far_bio_cell] after_mapped_run).1
    = Some (<["S1" := square 0 0 2]> ∅)
  ∧ sc_polygons (after_run "SI" [rain_barrel]) = None.
Proof.
  split; [|split].
  - destruct (polygons_extracted_once "SI" [mapped_bio_cell] mapped_start
                after_mapped_run (inr ["BC_1"]) mapped_loop)
      as (_ & Hnew & _).
    apply (Hnew eq_refl). vm_compute. reflexivity.
  - destruct (polygons_extracted_once "SI" [far_bio_cell] after_mapped_run
                _ _ (surjective_pairing _))
      as (Hheld & _ & _).
    apply Hheld. vm_compute. reflexivity.
  - destruct (polygons_extracted_once "SI" [rain_barrel] example_start
                (after_run "SI" [rain_barrel]) (inr ["RB_1"]) example_loop)
      as (_ & _ & Hlazy).
    apply Hlazy. intros lid ->%list_elem_of_singleton. reflexivity.
Defined.

Lemma rejected_run :
  inject_lids "SI" [bio_cell; oversized_rain_barrel] example_start
  = (after_rejected_run, inl (below_zero_area "RB_1" "S1")).
Proof. vm_compute. reflexivity. Qed.

Lemma rejected_run_keeps_earlier_records_witness :
  ∃ n lid s1 lid_ids records,
    [bio_cell; oversized_rain_barrel] !! n = Some lid
    ∧ inject_lids "SI" (take n [bio_cell; oversized_rain_barrel]) example_start
      = (s1, inr lid_ids)
    ∧ inject_lid "SI" lid s1
      = (after_rejected_run, inl (below_zero_area "RB_1" "S1"))
    ∧ usage_lines (input_template after_rejected_run)
      = usage_lines (input_template example_start) ++ records
    ∧ length records = n.
Proof.
  apply (rejected_run_keeps_earlier_records "SI"
           [bio_cell; oversized_rain_barrel] example_start
           after_rejected_run (below_zero_area "RB_1" "S1")).
  exact rejected_run.
Defined.

Lemma usage_records_follow_document_witness :
  let lids := default [] (params.lids (one_lid rain_barrel)) in
  ∃ records,
    usage_lines (input_template (after_run "SI" [rain_barrel]))
    = usage_lines example_template ++ records
    ∧ length records = length lids
    ∧ ∀ i lid, lids !! i = Some lid →
        ∃ vs, records !! i = Some (Line vs None)
              ∧ length vs = 10
              ∧ vs !! 1 = Some (VStr (params.type lid))
              ∧ vs !! 2 = Some (VNum (inject_Z (params.number lid)))
              ∧ vs !! 3 = Some (VNum (params.area lid)).
Proof.
  apply (usage_records_follow_document (one_lid rain_barrel) example_template
           (after_run "SI" [rain_barrel]) ["RB_1"]).
  exact example_run.
Defined.

Lemma one_zone_per_rain_barrel_witness :
  let lids := default [] (params.lids (one_lid rain_barrel)) in
  length (sc_lines (input_template (after_run "SI" [rain_barrel])))
  = length (sc_lines example_template)
    + length (filter (λ lid, is_rain_barrel example_template lid = true) lids)
  ∧ length (warnings (after_run "SI" [rain_barrel]))
    = length (filter (λ lid, is_rain_barrel example_template lid = false) lids).
Proof.
  apply (one_zone_per_rain_barrel (one_lid rain_barrel) example_template
           (after_run "SI" [rain_barrel]) ["RB_1"]).
  exact example_run.
Defined.

Lemma split_conserves_total_area_witness :
  ∃ (name : string) (pos : nat) (old : list value) (va : value)
    (host child : line) (A A' L : Q),
    params.subcatchment (params.location rain_barrel) = Some name
    ∧ get_subcatchment_definition (input_template example_start) name
      = inr (Some (pos, old))
    ∧ old !! sc_area_index = Some va ∧ float va = inr A
    ∧ sc_lines (input_template after_split) !! pos = Some host
    ∧ values host !! sc_area_index = Some (VNum A')
    ∧ last (sc_lines (input_template after_split)) = Some child
    ∧ values child !! sc_area_index = Some (VNum L)
    ∧ values child !! sc_imperv_index = Some (VNum 0)
    ∧ (A' + L == A ∧ 0 <= A' ∧ (lid_nonneg rain_barrel → 0 <= L))%Q.
Proof.
  apply (split_conserves_total_area "SI" rain_barrel "RB_1" example_start
           after_split rain_barrel_in_child).
  - vm_compute. discriminate.
  - exact example_split.
Defined.

Lemma impervious_land_exceeded_witness :
  ∃ (s' : state) (A' p' : Q),
    split_subcatchment "SI" wide_rain_barrel "RB_1" example_start
    = (s', inl (short_of_impervious "RB_1" "S1"))
    ∧ sc_lines (input_template s')
      = alter (rewrite_line (base_after s1_fields A' p')) 0
          (sc_lines (input_template example_start))
    ∧ (A' == 2 - inject_Z (params.number wide_rain_barrel)
                 * params.area wide_rain_barrel
                 * area_factor units.m2 units.hectare
       ∧ p' < 0)%Q.
Proof.
  apply (impervious_land_exceeded "SI" wide_rain_barrel "RB_1" "S1"
           example_start 0 s1_fields units.m2 units.hectare
           (VStr "2.0") (VStr "80") 2 80).
  - vm_compute. discriminate.
  - reflexivity.
  - exact example_zones_named.
  - exact example_host.
  - reflexivity.
  - reflexivity.
  - vm_compute. reflexivity.
  - reflexivity.
  - vm_compute. reflexivity.
  - vm_compute. reflexivity.
  - vm_compute. reflexivity.
Defined.

Lemma rain_barrel_zone_not_found_witness :
  inject_lid "SI" stray_rain_barrel example_start
  = (counted example_start "RB", inl (zone_not_found "S9"))
  ∧ input_template (counted example_start "RB") = input_template example_start.
Proof.
  apply (rain_barrel_zone_not_found "SI" stray_rain_barrel stray_rain_barrel
           example_start example_start "S9").
  - reflexivity.
  - apply example_catalog. by left.
  - reflexivity.
  - exact example_zones_named.
  - exact example_zone_absent.
Defined.

Lemma type_missing_from_catalog_witness :
  inject_lid "SI" unknown_lid example_start
  = (example_start,
     inl (ConfigException
            ("LID type " +:+ dq +:+ "ZZ" +:+ dq
             +:+ " not found in SWMM input file."))).
Proof.
  destruct (type_missing_from_catalog "SI" unknown_lid unknown_lid
              example_start example_start eq_refl) as (_ & _ & _ & Hunknown).
  apply (Hunknown
           (Section_ [text_line ["RB"; "RB"];
                      text_line ["RB"; "STORAGE"; "48"; "0.75"; "0.5"; "0"];
                      text_line ["BC"; "BC"]] None)).
  - reflexivity.
  - repeat apply Forall_cons_2; [..|apply Forall_nil_2];
      right; eexists; (split; [reflexivity | discriminate]).
Defined.

Lemma definition_is_first_match_witness :
  ∃ l, sc_lines example_template !! 0 = Some l ∧ values l = s1_fields
       ∧ s1_fields ≠ []
       ∧ s1_fields !! sc_name_index = Some (VStr "S1")
       ∧ Forall (other_name sc_name_index "S1")
                (take 0 (sc_lines example_template)).
Proof.
  apply (proj1 (definition_is_first_match example_template "S1") 0 s1_fields).
  exact example_host.
Defined.

Lemma polygons_follow_lines_witness :
  match omap (vertex_of "S1") (polygon_lines mapped_template) with
  | [] => (<["S1" := square 0 0 2]> ∅ : gmap string polygon) !! "S1" = None
  | coordinates =>
      ∃ p, (<["S1" := square 0 0 2]> ∅ : gmap string polygon) !! "S1" = Some p
           ∧ Polygon coordinates = inr p
  end.
Proof.
  apply (polygons_follow_lines mapped_template (<["S1" := square 0 0 2]> ∅)
           "S1").
  vm_compute. reflexivity.
Defined.

Lemma rain_barrel_attached_to_child_witness :
  ∃ (child record : line) (lid_sc_name : string),
    last (sc_lines (input_template (after_run "SI" [rain_barrel]))) = Some child
    ∧ values child !! sc_name_index = Some (VStr lid_sc_name)
    ∧ last (usage_lines (input_template (after_run "SI" [rain_barrel])))
      = Some record
    ∧ values record !! 0 = Some (VStr lid_sc_name)
    ∧ ¬ zone_present (input_template example_start) lid_sc_name.
Proof.
  apply (rain_barrel_attached_to_child "SI" rain_barrel example_start
           (after_run "SI" [rain_barrel]) "RB_1").
  - vm_compute. discriminate.
  - vm_compute. discriminate.
  - vm_compute. reflexivity.
  - exact example_inject_lid.
Defined.

Lemma split_rewrites_base_only_witness :
  ∃ (name : string) (pos : nat) (old : list value) (before host : line),
    params.subcatchment (params.location rain_barrel) = Some name
    ∧ get_subcatchment_definition (input_template example_start) name
      = inr (Some (pos, old))
    ∧ sc_lines (input_template example_start) !! pos = Some before
    ∧ sc_lines (input_template after_split) !! pos = Some host
    ∧ comment host = comment before
    ∧ length (values host) = length old
    ∧ (∀ i, i ≠ sc_area_index → i ≠ sc_imperv_index →
            values host !! i = old !! i)
    ∧ (∀ i, i ≠ pos → i < length (sc_lines (input_template example_start)) →
            sc_lines (input_template after_split) !! i
            = sc_lines (input_template example_start) !! i).
Proof.
  apply (split_rewrites_base_only "SI" rain_barrel "RB_1" example_start
           after_split rain_barrel_in_child).
  exact example_split.
Defined.

Lemma example_output :
  perform_injection example_config true example_files
  = (<["out.inp" := "2 zones"]> example_files, inr ()).
Proof.
  vm_cast_no_check
    (eq_refl (perform_injection example_config true example_files)).
Qed.

Lemma output_written_after_injection_witness :
  ∃ (input_template_path input_parameters_path input_path : string)
    (input_template_file input_parameters_file : string)
    (template : swmm_input) (input_parameters : params.input_parameters)
    (s : state) (lid_ids : list string),
    (true = true → validate_config example_config example_files = inr ())
    ∧ example_config !! "input_template_path" = Some input_template_path
    ∧ example_config !! "input_parameters_path" = Some input_parameters_path
    ∧ example_config !! "input_path" = Some input_path
    ∧ example_files !! input_template_path = Some input_template_file
    ∧ sir_read input_template_file = inr template
    ∧ example_files !! input_parameters_path = Some input_parameters_file
    ∧ json_load input_parameters_file = inr input_parameters
    ∧ inject_parameters_into_input input_parameters template
      = (s, inr lid_ids)
    ∧ <["out.inp" := "2 zones"]> example_files
      = <[input_path := (siw_write (input_template s)).1]> example_files.
Proof.
  apply (output_written_after_injection example_config true example_files
           (<["out.inp" := "2 zones"]> example_files) (inr ())).
  - exact example_output.
  - intros E.
    assert (E' : (<["out.inp" := "2 zones"]> example_files : files) !! "out.inp"
                 = example_files !! "out.inp") by by rewrite E.
    vm_compute in E'. discriminate E'.
Defined.

Lemma coordinates_override_zone_name_witness :
  ∃ (ps : gmap string polygon) (sc : string),
    (sc_polygons mapped_start = Some ps
     ∨ (sc_polygons mapped_start = None
        ∧ extract_subcatchment_polygons (input_template mapped_start) = inr ps))
    ∧ sc_polygons
        (State mapped_template (Some (<["S1" := square 0 0 2]> ∅)) ∅ [])
      = Some ps
    ∧ get_subcatchment_from_map_coords (params.Coords 1 1) ps = inr sc
    ∧ params.subcatchment
        (params.location (set_location_subcatchment mapped_bio_cell "S1"))
      = Some sc.
Proof.
  apply (coordinates_override_zone_name mapped_bio_cell
           (set_location_subcatchment mapped_bio_cell "S1") mapped_start
           (State mapped_template (Some (<["S1" := square 0 0 2]> ∅)) ∅ [])
           (params.Coords 1 1)).
  - reflexivity.
  - exact mapped_resolve.
Defined.

Lemma name_search_is_bounded_witness :
  ∃ k,
    k ≤ length (sc_lines example_template)
    ∧ unique_lid_sc_name example_template "S1" "RB_1"
      = inr (child_name "S1" "RB_1" k)
    ∧ (∀ j, j < k → zone_present example_template (child_name "S1" "RB_1" j))
    ∧ ¬ zone_present example_template (child_name "S1" "RB_1" k).
Proof.
  apply (name_search_is_bounded example_template "S1" "RB_1").
  exact example_zones_named.
Defined.

End MoreExamples.
